(** * wasm_server.py: a static file server with WASM MIME type and
      cross-origin isolation headers

    The program under verification is [client/www/wasm_server.py].  It is a
    thin layer over CPython's standard library: it registers one MIME type,
    overrides one method of [http.server.SimpleHTTPRequestHandler] and starts
    a [socketserver.TCPServer].  Everything the program does at run time is
    therefore decided by the inherited library code, which is embedded here
    next to the program's own lines, function by function, from CPython 3.11
    ([Lib/http/server.py], [Lib/socketserver.py], [Lib/mimetypes.py],
    [Lib/posixpath.py], [Lib/genericpath.py], [Objects/longobject.c]).

    Conventions of the embedding:
    - a [bytes] value, and a [str] value of code points below 256, is a
      [string].  Request lines are decoded by the library as ISO-8859-1, so
      they are of this form, and so are the header lines, which the library
      encodes the same way.  A [str] of any code points, as a command line
      argument is, is a [Unicode.str].  The path that
      [urllib.parse.unquote] makes of a request path is taken in the first
      form as well.  Where it holds a code point that the file system
      encoding does not have (a lone surrogate, as of the escape
      [%ED%A0%80]), the path the handler comes to is one that the file system
      reports as [Unencodable];
    - a Python exception is a value of [exn]; code that may raise returns a
      [result].  A call that never returns, because it waits for a peer that
      stays silent, ends in [Blocked];
    - the handler's mutable attributes and the streams it writes are an
      explicit state, threaded by a state-and-exception monad;
    - the operating system (file system, sockets, clock) is a record of
      observations, [World]. *)

From Stdlib Require Import ZArith NArith Ascii String List Lia Bool DecimalString DecimalPos
  DecimalZ ZifyBool.
From stdpp Require Import base option list gmap strings.

Local Open Scope Z_scope.

(** The type of a list is known before its elements are read, so that a
    [string] among them is taken as the [Unicode.str] it stands for. *)
#[local] Arguments cons {A}%_type_scope & a l.

(** ** Exceptions and results *)

(** The exception classes the modelled code raises or catches.  [Blocked]
    is none of them: it stands for a call that does not return, because it
    waits for a peer that neither sends nor closes (the sockets have no
    timeout).  Nothing catches it, and nothing runs after it. *)
Inductive exn : Type :=
| ValueError
| OverflowError
| IndexError
| AttributeError
| OSError
| UnicodeEncodeError
| Blocked.

Inductive result (A : Type) : Type :=
| Ok (a : A)
| Raise (e : exn).
Arguments Ok {A} a.
Arguments Raise {A} e.

(** ** Python string operations, on code points below 256 *)

Module PyStr.

Definition code (c : ascii) : Z := Z.of_N (N_of_ascii c).

Definition chr (n : Z) : ascii := ascii_of_N (Z.to_N n).

(** [str.lower] for one character: A-Z, and the Latin-1 capitals
    U+00C0..U+00DE except the multiplication sign U+00D7. *)
Definition lower_char (c : ascii) : ascii :=
  let n := code c in
  if ((65 <=? n) && (n <=? 90)) || ((192 <=? n) && (n <=? 222) && negb (n =? 215))
  then chr (n + 32) else c.

Fixpoint lower (s : string) : string :=
  match s with
  | EmptyString => EmptyString
  | String c s' => String (lower_char c) (lower s')
  end.

(** [str.isspace] for one character (the set [str.split()] and
    [str.rstrip()] use). *)
Definition isspace (c : ascii) : bool :=
  let n := code c in
  ((9 <=? n) && (n <=? 13)) || ((28 <=? n) && (n <=? 32)) || (n =? 133) || (n =? 160).

Fixpoint startswith (s prefix : string) {struct prefix} : bool :=
  match prefix with
  | EmptyString => true
  | String c prefix' =>
      match s with
      | EmptyString => false
      | String d s' => Ascii.eqb d c && startswith s' prefix'
      end
  end.

Fixpoint endswith (s suffix : string) : bool :=
  if String.eqb s suffix then true
  else match s with
       | EmptyString => false
       | String _ s' => endswith s' suffix
       end.

(** [s.find(c)] for a one-character [c]: the index of the first
    occurrence, or -1. *)
Fixpoint find (s : string) (c : ascii) : Z :=
  match s with
  | EmptyString => -1
  | String a s' =>
      if Ascii.eqb a c then 0
      else let i := find s' c in if i <? 0 then -1 else i + 1
  end.

(** [s.rfind(c)]: the index of the last occurrence, or -1. *)
Fixpoint rfind (s : string) (c : ascii) : Z :=
  match s with
  | EmptyString => -1
  | String a s' =>
      let i := rfind s' c in
      if 0 <=? i then i + 1 else if Ascii.eqb a c then 0 else -1
  end.

(** Slices [s[:i]] and [s[i:]] for [0 <= i]. *)
Fixpoint take (i : Z) (s : string) : string :=
  match s with
  | EmptyString => EmptyString
  | String c s' => if i <=? 0 then EmptyString else String c (take (i - 1) s')
  end.

Fixpoint drop (i : Z) (s : string) : string :=
  match s with
  | EmptyString => EmptyString
  | String _ s' => if i <=? 0 then s else drop (i - 1) s'
  end.

(** [s.split(sep)] for a one-character separator: never the empty list. *)
Fixpoint split (s : string) (sep : ascii) : list string :=
  match s with
  | EmptyString => [EmptyString]
  | String c s' =>
      if Ascii.eqb c sep then EmptyString :: split s' sep
      else match split s' sep with
           | w :: ws => String c w :: ws
           | [] => [String c EmptyString]
           end
  end.

(** [s.split(sep, 1)[0]]: the text before the first separator. *)
Fixpoint before (s : string) (sep : ascii) : string :=
  match s with
  | EmptyString => EmptyString
  | String c s' => if Ascii.eqb c sep then EmptyString else String c (before s' sep)
  end.

(** [sep.join(words)]. *)
Fixpoint join (sep : string) (words : list string) : string :=
  match words with
  | [] => EmptyString
  | [w] => w
  | w :: ws => w +:+ sep +:+ join sep ws
  end.

(** [s.lstrip(chars)] and [s.rstrip(chars)], the character set given as a
    predicate. *)
Fixpoint lstrip (p : ascii -> bool) (s : string) : string :=
  match s with
  | EmptyString => EmptyString
  | String c s' => if p c then lstrip p s' else s
  end.

Fixpoint rstrip (p : ascii -> bool) (s : string) : string :=
  match s with
  | EmptyString => EmptyString
  | String c s' =>
      match rstrip p s' with
      | EmptyString => if p c then EmptyString else String c EmptyString
      | r => String c r
      end
  end.

(** [s.split()]: the maximal runs of non-whitespace characters. *)
Fixpoint words_go (cur : option string) (s : string) : list string :=
  match s with
  | EmptyString => match cur with Some w => [String.rev w] | None => [] end
  | String c s' =>
      if isspace c
      then match cur with Some w => String.rev w :: words_go None s' | None => words_go None s' end
      else words_go (Some (String c (default EmptyString cur))) s'
  end.

Definition words (s : string) : list string := words_go None s.

Definition is_empty (s : string) : bool :=
  match s with EmptyString => true | _ => false end.

(** [str(n)] for an integer. *)
Definition of_Z (n : Z) : string := NilZero.string_of_int (Z.to_int n).

End PyStr.

(** ** [str] values of any code points *)

Module Unicode.

(** A [str], by its code points. *)
Definition str : Type := list N.

Definition ord (c : ascii) : N := N_of_ascii c.

(** A text of code points below 256 as a [str]. *)
Definition latin1 (s : string) : str := ord <$> list_ascii_of_string s.

(** [Py_UNICODE_ISSPACE], that is [_PyUnicode_IsWhitespace]: the code
    points of bidirectional type WS, B or S, or of category Zs, in the
    Unicode database of the interpreter (14.0.0). *)
Definition isspace (ch : N) : bool :=
  ((9 <=? ch) && (ch <=? 13) || (28 <=? ch) && (ch <=? 32) || (ch =? 133) || (ch =? 160)
   || (ch =? 5760) || (8192 <=? ch) && (ch <=? 8202) || (ch =? 8232) || (ch =? 8233)
   || (ch =? 8239) || (ch =? 8287) || (ch =? 12288))%N.

(** The digit zero of every script: the code points of category Nd come in
    runs of ten, zero to nine, and these are where the runs start (Unicode
    14.0.0). *)
Definition decimal_zeros : list N :=
  [48; 1632; 1776; 1984; 2406; 2534; 2662; 2790; 2918; 3046; 3174; 3302; 3430; 3558;
   3664; 3792; 3872; 4160; 4240; 6112; 6160; 6470; 6608; 6784; 6800; 6992; 7088; 7232;
   7248; 42528; 43216; 43264; 43472; 43504; 43600; 44016; 65296; 66720; 68912; 69734;
   69872; 69942; 70096; 70384; 70736; 70864; 71248; 71360; 71472; 71904; 72016; 72784;
   73040; 73120; 92768; 92864; 93008; 120782; 120792; 120802; 120812; 120822; 123200;
   123632; 125264; 130032]%N.

(** [Py_UNICODE_TODECIMAL]: the value of a decimal digit. *)
Definition todecimal (ch : N) : option Z :=
  (fun zero => Z.of_N (ch - zero))
    <$> List.find (fun zero => (zero <=? ch) && (ch <? zero + 10))%N decimal_zeros.

#[global] Arguments isspace : simpl never.
#[global] Arguments todecimal : simpl never.

End Unicode.

Coercion Unicode.latin1 : string >-> Unicode.str.

(** ** [int(str)] in base 10: [PyLong_FromUnicodeObject] *)

Module PyInt.

(** [Py_ISSPACE]: the ASCII white space of the C locale. *)
Definition Py_ISSPACE (c : ascii) : bool :=
  ((9 <=? PyStr.code c) && (PyStr.code c <=? 13)) || (PyStr.code c =? 32).

(** [_PyLong_DigitValue] below base 10. *)
Definition digit_value (c : ascii) : option Z :=
  let n := PyStr.code c in
  if (48 <=? n) && (n <=? 57) then Some (n - 48) else None.

(** [_PyUnicode_TransformDecimalAndSpaceToASCII]: a code point below 127
    is kept, a wider space becomes a blank, a wider decimal digit becomes
    the ASCII digit of its value, and any other code point becomes a question
    mark and ends the output. *)
Fixpoint transform (s : Unicode.str) : string :=
  match s with
  | [] => EmptyString
  | ch :: s' =>
      if (ch <? 127)%N then String (ascii_of_N ch) (transform s')
      else if Unicode.isspace ch then String " " (transform s')
      else match Unicode.todecimal ch with
           | Some decimal => String (PyStr.chr (48 + decimal)) (transform s')
           | None => String "?" EmptyString
           end
  end.

Fixpoint skip_spaces (s : string) : string :=
  match s with
  | EmptyString => EmptyString
  | String c s' => if Py_ISSPACE c then skip_spaces s' else s
  end.

(** The scan over digits and underscores of [PyLong_FromString]: two
    underscores in a row, or one at the end, are errors.  Returns the value,
    the number of digits and the unread rest. *)
Fixpoint scan_digits (prev_us : bool) (z : Z) (digits : nat) (s : string)
  : option (Z * nat * string) :=
  match s with
  | EmptyString => if prev_us then None else Some (z, digits, EmptyString)
  | String c s' =>
      match digit_value c with
      | Some d => scan_digits false (z * 10 + d) (S digits) s'
      | None =>
          if Ascii.eqb c "_"
          then if prev_us then None else scan_digits true z digits s'
          else if prev_us then None else Some (z, digits, s)
      end
  end.

(** [_PY_LONG_MAX_STR_DIGITS_THRESHOLD]. *)
Definition MAX_STR_DIGITS_THRESHOLD : nat := 640.

(** [_PY_LONG_DEFAULT_MAX_STR_DIGITS], the value of
    [sys.get_int_max_str_digits()] unless configured otherwise. *)
Definition DEFAULT_MAX_STR_DIGITS : nat := 4300.

Definition over_limit (max_str_digits digits : nat) : bool :=
  (MAX_STR_DIGITS_THRESHOLD <? digits)%nat && (0 <? max_str_digits)%nat
  && (max_str_digits <? digits)%nat.

(** [PyLong_FromString(str, &end, 10)]; [None] is [ValueError].  The
    caller's test that the whole buffer was read is the final emptiness
    test. *)
Definition PyLong_FromString (max_str_digits : nat) (s : string) : option Z :=
  let s := skip_spaces s in
  let '(sign, s) :=
    match s with
    | String c s' =>
        if Ascii.eqb c "+" then (1, s')
        else if Ascii.eqb c "-" then (-1, s')
        else (1, s)
    | EmptyString => (1, s)
    end in
  if PyStr.startswith s "_" then None
  else match scan_digits false 0 0 s with
       | None => None
       | Some (z, digits, rest) =>
           if over_limit max_str_digits digits then None
           else if (digits =? 0)%nat then None
           else if PyStr.is_empty (skip_spaces rest) then Some (sign * z)
           else None
       end.

(** [int(s)] for a [str] argument. *)
Definition int (max_str_digits : nat) (s : Unicode.str) : result Z :=
  match PyLong_FromString max_str_digits (transform s) with
  | Some z => Ok z
  | None => Raise ValueError
  end.

End PyInt.

(** ** [posixpath] and [genericpath] *)

Module PosixPath.
Import PyStr.

(** The loop of [genericpath._splitext] that skips the leading dots of the
    file name: [n] characters from [filenameIndex] up to [dotIndex] remain to
    be looked at. *)
Fixpoint splitext_loop (p : string) (dotIndex filenameIndex : Z) (n : nat)
  : string * string :=
  match n with
  | O => (p, EmptyString)
  | S n' =>
      if negb (String.eqb (take 1 (drop filenameIndex p)) ".")
      then (take dotIndex p, drop dotIndex p)
      else splitext_loop p dotIndex (filenameIndex + 1) n'
  end.

(** [posixpath.splitext(p)], that is [genericpath._splitext(p, '/', None, '.')]. *)
Definition splitext (p : string) : string * string :=
  let sepIndex := rfind p "/" in
  let dotIndex := rfind p "." in
  if sepIndex <? dotIndex
  then splitext_loop p dotIndex (sepIndex + 1) (Z.to_nat (dotIndex - (sepIndex + 1)))
  else (p, EmptyString).

(** [posixpath.join(a, b)]. *)
Definition join (a b : string) : string :=
  if startswith b "/" then b
  else if is_empty a || endswith a "/" then a +:+ b
  else a +:+ "/" +:+ b.

(** ['/' * n]. *)
Fixpoint slashes (n : nat) : string :=
  match n with O => EmptyString | S n' => String "/" (slashes n') end.

(** [posixpath.dirname(p)]. *)
Definition dirname (p : string) : string :=
  let i := rfind p "/" + 1 in
  let head := take i p in
  if negb (is_empty head) && negb (String.eqb head (slashes (String.length head)))
  then rstrip (fun c => Ascii.eqb c "/") head
  else head.

(** One turn of the loop of [posixpath.normpath] over the components. *)
Definition normpath_step (initial_slashes : nat) (new_comps : list string) (comp : string)
  : list string :=
  if String.eqb comp EmptyString || String.eqb comp "." then new_comps
  else if negb (String.eqb comp "..")
          || (Nat.eqb initial_slashes 0 && bool_decide (new_comps = []))
          || (match last new_comps with Some c => String.eqb c ".." | None => false end)
       then new_comps ++ [comp]
       else removelast new_comps.

(** [posixpath.normpath(path)]. *)
Definition normpath (path : string) : string :=
  if is_empty path then "."
  else
    let initial_slashes :=
      if startswith path "/"
      then if startswith path "//" && negb (startswith path "///") then 2%nat else 1%nat
      else 0%nat in
    let comps := split path "/" in
    let new_comps := fold_left (normpath_step initial_slashes) comps [] in
    let path := slashes initial_slashes +:+ PyStr.join "/" new_comps in
    if is_empty path then "." else path.

End PosixPath.

(** ** [mimetypes] *)

Module Mimetypes.
Import PyStr.

(** A [MimeTypes] datastore.  [types_map] is the strict table
    ([types_map[True]]); the non-strict table and the inverse tables are
    never read by [guess_type(url)] with its default [strict=True]. *)
Record MimeTypes : Type := {
  encodings_map : gmap string string;
  suffix_map : gmap string string;
  types_map : gmap string string
}.

Definition _suffix_map_default : gmap string string :=
  list_to_map [(".svgz", ".svg.gz"); (".tgz", ".tar.gz"); (".taz", ".tar.gz");
               (".tz", ".tar.gz"); (".tbz2", ".tar.bz2"); (".txz", ".tar.xz")].

Definition _encodings_map_default : gmap string string :=
  list_to_map [(".gz", "gzip"); (".Z", "compress"); (".bz2", "bzip2");
               (".xz", "xz"); (".br", "br")].

(** [MimeTypes.add_type(type, ext)]. *)
Definition add_type (type ext : string) (db : MimeTypes) : MimeTypes :=
  {| encodings_map := encodings_map db;
     suffix_map := suffix_map db;
     types_map := <[ext := type]> (types_map db) |}.

(** [mimetypes.init()]: the built-in tables, then the type tables of the
    platform's [mime.types] files, which only add entries to [types_map].
    [platform_types] is the strict table once they are read. *)
Definition init (platform_types : gmap string string) : MimeTypes :=
  {| encodings_map := _encodings_map_default;
     suffix_map := _suffix_map_default;
     types_map := platform_types |}.

(** Where the pattern of [_splittype] (one or more characters other than
    slash and colon, then a colon) matches at the start of [url]: the index
    of the first colon, when no slash comes before it. *)
Fixpoint scheme_length (url : string) : option nat :=
  match url with
  | EmptyString => None
  | String c url' =>
      if Ascii.eqb c ":" then Some O
      else if Ascii.eqb c "/" then None
      else S <$> scheme_length url'
  end.

(** [urllib.parse._splittype(url)]. *)
Definition _splittype (url : string) : option string * string :=
  match scheme_length url with
  | Some (S n) => (Some (lower (take (Z.of_nat (S n)) url)), drop (Z.of_nat (S n) + 1) url)
  | _ => (None, url)
  end.

(** The [while] loop of [guess_type] over [suffix_map]; [None] when the
    fuel does not suffice. *)
Fixpoint suffix_loop (db : MimeTypes) (fuel : nat) (base ext : string)
  : option (string * string) :=
  match suffix_map db !! lower ext with
  | None => Some (base, ext)
  | Some repl =>
      match fuel with
      | O => None
      | S fuel' =>
          let '(base', ext') := PosixPath.splitext (base +:+ repl) in
          suffix_loop db fuel' base' ext'
      end
  end.

(** [MimeTypes.guess_type(url)]: the pair (type, encoding).  The outer
    [option] is the fuel of the suffix loop. *)
Definition guess_type_fuel (fuel : nat) (db : MimeTypes) (url : string)
  : option (option string * option string) :=
  let '(scheme, url) := _splittype url in
  if bool_decide (scheme = Some "data") then
    let comma := find url "," in
    if comma <? 0 then Some (None, None)
    else
      let semi := find (take comma url) ";" in
      let type := if 0 <=? semi then take semi url else take comma url in
      let type := if (0 <=? find type "=") || (find type "/" <? 0) then "text/plain" else type in
      Some (Some type, None)
  else
    let '(base, ext) := PosixPath.splitext url in
    match suffix_loop db fuel base ext with
    | None => None
    | Some (base, ext) =>
        let '(encoding, base, ext) :=
          match encodings_map db !! ext with
          | Some enc => let '(base', ext') := PosixPath.splitext base in (Some enc, base', ext')
          | None => (None, base, ext)
          end in
        let ext := lower ext in
        match types_map db !! ext with
        | Some t => Some (Some t, encoding)
        | None => Some (None, encoding)
        end
    end.

(** With the built-in suffix table one turn of the loop is the most that
    can happen (see [guess_type_total]). *)
Definition guess_type (db : MimeTypes) (url : string) : option string * option string :=
  default (None, None) (guess_type_fuel 2 db url).

End Mimetypes.

(** ** The operating system *)

(** What a path resolves to (symbolic links followed): a regular file with
    its bytes ([None] when [open] fails, as without read permission) and its
    modification time in whole seconds, or a directory with its entries
    ([None] when [os.listdir] fails).  A path that holds a code point the
    file system encoding does not have never reaches the operating system:
    the interpreter raises [UnicodeEncodeError] when it encodes the path. *)
Inductive node : Type :=
| File (content : option string) (mtime : Z)
| Dir (entries : option (list string))
| Unencodable.

Record filesystem : Type := {
  (** path resolution; [None] when nothing is there *)
  lookup : string -> option node;
  (** [os.path.islink] *)
  islink : string -> bool
}.

(** The times [datetime] holds: the years 1 to 9999, in seconds since
    1970, from 0001-01-01 00:00:00 to 9999-12-31 23:59:59. *)
Definition datetime_holds (t : Z) : bool := (-62135596800 <=? t) && (t <=? 253402300799).

Record World : Type := {
  (** [os.getcwd()] is an absolute path: a slash, then [cwd_tail] *)
  cwd_tail : string;
  (** the file system when the program starts *)
  filesystem0 : filesystem;
  (** [time.time()], in whole seconds: a time of the years 1 to 9999 *)
  clock : Z;
  clock_holds : datetime_holds clock = true;
  (** the strict type table of [mimetypes] once the platform's files are read *)
  platform_types : gmap string string;
  (** [sys.get_int_max_str_digits()] *)
  int_max_str_digits : nat;
  (** whether binding a socket to the given port (1..65535) succeeds *)
  port_free : Z -> bool;
  (** the port a socket bound to port 0 gets; [None] when that bind fails *)
  ephemeral_port : option Z;
  (** whether [sys.stdout] can encode and take the start-up lines *)
  stdout_ok : bool;
  (** how many messages [sys.stderr] takes before its writes fail with
      [OSError] (a pipe whose reader is gone, a full disk); [None]: any
      number.  The stream is there: its descriptor is open when the
      interpreter starts *)
  stderr_takes : option nat
}.

Definition getcwd (w : World) : string := String "/" (cwd_tail w).

(** A path with a null character never reaches the operating system
    either: the interpreter raises [ValueError] (embedded null byte) once it
    has encoded the path. *)
Definition NUL : ascii := zero.

Definition has_nul (p : string) : bool := 0 <=? PyStr.find p NUL.

(** [os.path.isdir] and [os.path.isfile]: false when [os.stat] raises
    [OSError] or [ValueError], of which [UnicodeEncodeError] is a kind. *)
Definition isdir (fs : filesystem) (p : string) : bool :=
  negb (has_nul p) && match lookup fs p with Some (Dir _) => true | _ => false end.

Definition isfile (fs : filesystem) (p : string) : bool :=
  negb (has_nul p) && match lookup fs p with Some (File _ _) => true | _ => false end.

(** [open(p, 'rb')] and [os.fstat]: the bytes and the modification time.
    A path that cannot be encoded gives [UnicodeEncodeError] and a path with
    a null character [ValueError]; a path that reaches the operating system
    and does not resolve to a file that can be read gives an [OSError]
    ([FileNotFoundError], [IsADirectoryError], [PermissionError]).
    [os.listdir] likewise. *)
Definition open_rb (fs : filesystem) (p : string) : result (string * Z) :=
  match lookup fs p with
  | Some Unencodable => Raise UnicodeEncodeError
  | found =>
      if has_nul p then Raise ValueError
      else match found with
           | Some (File (Some content) mtime) => Ok (content, mtime)
           | _ => Raise OSError
           end
  end.

Definition listdir (fs : filesystem) (p : string) : result (list string) :=
  match lookup fs p with
  | Some Unencodable => Raise UnicodeEncodeError
  | found =>
      if has_nul p then Raise ValueError
      else match found with
           | Some (Dir (Some entries)) => Ok entries
           | _ => Raise OSError
           end
  end.

(** ** Library functions left abstract

    Pure functions of the standard library whose results the program only
    passes on.  Every theorem below holds for all of them. *)
Class PyLib : Type := {
  (** [urllib.parse.unquote(path, errors='surrogatepass')], with the
      fallback to [unquote(path)] of [translate_path] *)
  unquote : string -> string;
  (** [urllib.parse.urlsplit]: scheme, netloc, path, query, fragment *)
  urlsplit : string -> result (string * string * string * string * string);
  (** it returns or raises: it waits for nothing *)
  urlsplit_returns : forall url, urlsplit url <> Raise Blocked;
  urlunsplit : string * string * string * string * string -> string;
  (** [email.utils.formatdate(t, usegmt=True)], for a time that [datetime]
      holds *)
  formatdate : Z -> string;
  (** for a time that [datetime] does not hold, which of its limits the
      number passes: the range of the platform's [time_t] ([OverflowError]),
      or what its [gmtime] computes ([OSError]); otherwise the year is out
      of range ([ValueError]) *)
  time_t_overflows : Z -> bool;
  gmtime_overflows : Z -> bool;
  (** [email.utils.parsedate_to_datetime] as [send_head] uses it: the time
      in seconds when the text parses to a date that is naive or in UTC *)
  parsedate_utc : string -> option Z;
  (** the error page: [error_message_format] filled in and encoded *)
  error_page : Z -> string -> string -> string;
  (** the page [list_directory] builds, from [self.path], the directory's
      path and its entries, each with [isdir] and [islink] of its full name;
      [None] when the page cannot be encoded in the file system encoding (a
      lone surrogate in the request path as decoded): [UnicodeEncodeError] *)
  listing_page : string -> string -> list (string * bool * bool) -> option string;
  (** [sys.getfilesystemencoding()] *)
  filesystem_encoding : string;
  (** [repr] of a [str] *)
  repr : string -> string;
  (** ["Python/" + sys.version.split()[0]] *)
  sys_version : string
}.

(** ** The request handler's state *)

(** What [http.client.parse_headers] finds after the request line: the
    headers, a line or a number of lines over the limits, an error of the
    socket, or a client that stops sending before the blank line and keeps
    the connection open. *)
Inductive header_block : Type :=
| HeaderLines (hs : list (string * string))
| LineTooLong
| TooManyHeaders
| HeaderReadError
| HeaderSilence.

(** What the next [rfile.readline(65537)] meets on the connection: a line
    (followed by a header block), an error of the socket, or a client that
    sends nothing and keeps the connection open.  The end of the list is
    the end of the input: the client has closed its side. *)
Inductive arrival : Type :=
| Line (raw : string) (hb : header_block)
| ReadError
| Silence.

(** The attributes of a handler object, with what it can reach: [disk] is
    the file system, [rfile] what is still to be read from the connection,
    [wfile] the chunks written to it so far (one per [write]),
    [writes_left] how many writes the peer still takes before the connection
    is gone ([None]: any number), [stderr] the messages [sys.stderr] took
    from [log_message], and [stderr_left] how many more it takes ([None]: any
    number).  [_headers_buffer] is [None] while the attribute does not
    exist.  No setter is given for [disk]: nothing the program calls writes
    to the file system. *)
Record handler : Type := {
  disk : filesystem;
  rfile : list arrival;
  pending_headers : header_block;
  writes_left : option nat;
  wfile : list string;
  stderr : list string;
  stderr_left : option nat;
  raw_requestline : string;
  requestline : string;
  command : option string;
  path : string;
  request_version : string;
  headers : list (string * string);
  close_connection : bool;
  _headers_buffer : option (list string)
}.

Definition set_rfile (v : list arrival) (h : handler) : handler :=
  {| disk := disk h;
     rfile := v;
     pending_headers := pending_headers h;
     writes_left := writes_left h;
     wfile := wfile h;
     stderr := stderr h;
     stderr_left := stderr_left h;
     raw_requestline := raw_requestline h;
     requestline := requestline h;
     command := command h;
     path := path h;
     request_version := request_version h;
     headers := headers h;
     close_connection := close_connection h;
     _headers_buffer := _headers_buffer h |}.

Definition set_pending_headers (v : header_block) (h : handler) : handler :=
  {| disk := disk h;
     rfile := rfile h;
     pending_headers := v;
     writes_left := writes_left h;
     wfile := wfile h;
     stderr := stderr h;
     stderr_left := stderr_left h;
     raw_requestline := raw_requestline h;
     requestline := requestline h;
     command := command h;
     path := path h;
     request_version := request_version h;
     headers := headers h;
     close_connection := close_connection h;
     _headers_buffer := _headers_buffer h |}.

Definition set_writes_left (v : option nat) (h : handler) : handler :=
  {| disk := disk h;
     rfile := rfile h;
     pending_headers := pending_headers h;
     writes_left := v;
     wfile := wfile h;
     stderr := stderr h;
     stderr_left := stderr_left h;
     raw_requestline := raw_requestline h;
     requestline := requestline h;
     command := command h;
     path := path h;
     request_version := request_version h;
     headers := headers h;
     close_connection := close_connection h;
     _headers_buffer := _headers_buffer h |}.

Definition set_wfile (v : list string) (h : handler) : handler :=
  {| disk := disk h;
     rfile := rfile h;
     pending_headers := pending_headers h;
     writes_left := writes_left h;
     wfile := v;
     stderr := stderr h;
     stderr_left := stderr_left h;
     raw_requestline := raw_requestline h;
     requestline := requestline h;
     command := command h;
     path := path h;
     request_version := request_version h;
     headers := headers h;
     close_connection := close_connection h;
     _headers_buffer := _headers_buffer h |}.

Definition set_stderr (v : list string) (h : handler) : handler :=
  {| disk := disk h;
     rfile := rfile h;
     pending_headers := pending_headers h;
     writes_left := writes_left h;
     wfile := wfile h;
     stderr := v;
     stderr_left := stderr_left h;
     raw_requestline := raw_requestline h;
     requestline := requestline h;
     command := command h;
     path := path h;
     request_version := request_version h;
     headers := headers h;
     close_connection := close_connection h;
     _headers_buffer := _headers_buffer h |}.

Definition set_stderr_left (v : option nat) (h : handler) : handler :=
  {| disk := disk h;
     rfile := rfile h;
     pending_headers := pending_headers h;
     writes_left := writes_left h;
     wfile := wfile h;
     stderr := stderr h;
     stderr_left := v;
     raw_requestline := raw_requestline h;
     requestline := requestline h;
     command := command h;
     path := path h;
     request_version := request_version h;
     headers := headers h;
     close_connection := close_connection h;
     _headers_buffer := _headers_buffer h |}.

Definition set_raw_requestline (v : string) (h : handler) : handler :=
  {| disk := disk h;
     rfile := rfile h;
     pending_headers := pending_headers h;
     writes_left := writes_left h;
     wfile := wfile h;
     stderr := stderr h;
     stderr_left := stderr_left h;
     raw_requestline := v;
     requestline := requestline h;
     command := command h;
     path := path h;
     request_version := request_version h;
     headers := headers h;
     close_connection := close_connection h;
     _headers_buffer := _headers_buffer h |}.

Definition set_requestline (v : string) (h : handler) : handler :=
  {| disk := disk h;
     rfile := rfile h;
     pending_headers := pending_headers h;
     writes_left := writes_left h;
     wfile := wfile h;
     stderr := stderr h;
     stderr_left := stderr_left h;
     raw_requestline := raw_requestline h;
     requestline := v;
     command := command h;
     path := path h;
     request_version := request_version h;
     headers := headers h;
     close_connection := close_connection h;
     _headers_buffer := _headers_buffer h |}.

Definition set_command (v : option string) (h : handler) : handler :=
  {| disk := disk h;
     rfile := rfile h;
     pending_headers := pending_headers h;
     writes_left := writes_left h;
     wfile := wfile h;
     stderr := stderr h;
     stderr_left := stderr_left h;
     raw_requestline := raw_requestline h;
     requestline := requestline h;
     command := v;
     path := path h;
     request_version := request_version h;
     headers := headers h;
     close_connection := close_connection h;
     _headers_buffer := _headers_buffer h |}.

Definition set_path (v : string) (h : handler) : handler :=
  {| disk := disk h;
     rfile := rfile h;
     pending_headers := pending_headers h;
     writes_left := writes_left h;
     wfile := wfile h;
     stderr := stderr h;
     stderr_left := stderr_left h;
     raw_requestline := raw_requestline h;
     requestline := requestline h;
     command := command h;
     path := v;
     request_version := request_version h;
     headers := headers h;
     close_connection := close_connection h;
     _headers_buffer := _headers_buffer h |}.

Definition set_request_version (v : string) (h : handler) : handler :=
  {| disk := disk h;
     rfile := rfile h;
     pending_headers := pending_headers h;
     writes_left := writes_left h;
     wfile := wfile h;
     stderr := stderr h;
     stderr_left := stderr_left h;
     raw_requestline := raw_requestline h;
     requestline := requestline h;
     command := command h;
     path := path h;
     request_version := v;
     headers := headers h;
     close_connection := close_connection h;
     _headers_buffer := _headers_buffer h |}.

Definition set_headers (v : list (string * string)) (h : handler) : handler :=
  {| disk := disk h;
     rfile := rfile h;
     pending_headers := pending_headers h;
     writes_left := writes_left h;
     wfile := wfile h;
     stderr := stderr h;
     stderr_left := stderr_left h;
     raw_requestline := raw_requestline h;
     requestline := requestline h;
     command := command h;
     path := path h;
     request_version := request_version h;
     headers := v;
     close_connection := close_connection h;
     _headers_buffer := _headers_buffer h |}.

Definition set_close_connection (v : bool) (h : handler) : handler :=
  {| disk := disk h;
     rfile := rfile h;
     pending_headers := pending_headers h;
     writes_left := writes_left h;
     wfile := wfile h;
     stderr := stderr h;
     stderr_left := stderr_left h;
     raw_requestline := raw_requestline h;
     requestline := requestline h;
     command := command h;
     path := path h;
     request_version := request_version h;
     headers := headers h;
     close_connection := v;
     _headers_buffer := _headers_buffer h |}.

Definition set_headers_buffer (v : option (list string)) (h : handler) : handler :=
  {| disk := disk h;
     rfile := rfile h;
     pending_headers := pending_headers h;
     writes_left := writes_left h;
     wfile := wfile h;
     stderr := stderr h;
     stderr_left := stderr_left h;
     raw_requestline := raw_requestline h;
     requestline := requestline h;
     command := command h;
     path := path h;
     request_version := request_version h;
     headers := headers h;
     close_connection := close_connection h;
     _headers_buffer := v |}.

(** ** A state-and-exception monad for handler methods *)

Definition M (A : Type) : Type := handler -> result A * handler.

Definition ret {A : Type} (a : A) : M A := fun h => (Ok a, h).

Definition bind {A B : Type} (m : M A) (k : A -> M B) : M B :=
  fun h => match m h with
           | (Ok a, h') => k a h'
           | (Raise e, h') => (Raise e, h')
           end.

Definition raise {A : Type} (e : exn) : M A := fun h => (Raise e, h).

Definition get {A : Type} (f : handler -> A) : M A := fun h => (Ok (f h), h).

Definition modify (f : handler -> handler) : M unit := fun h => (Ok tt, f h).

Definition lift {A : Type} (r : result A) : M A := fun h => (r, h).

Declare Scope handler_scope.
Notation "x ← m ; k" := (bind m (fun x => k))
  (at level 20, m at level 100, k at level 200, only parsing) : handler_scope.
Notation "m ;; k" := (bind m (fun _ => k))
  (at level 100, k at level 200, only parsing, right associativity) : handler_scope.
Local Open Scope handler_scope.

Definition when (b : bool) (m : M unit) : M unit := if b then m else ret tt.

(** ** [http.server.BaseHTTPRequestHandler] *)

Module HttpServer.
Import PyStr.

Definition CRLF : string := String (chr 13) (String (chr 10) EmptyString).

Definition dquote : string := String (chr 34) EmptyString.

Definition protocol_version : string := "HTTP/1.0".

Definition default_request_version : string := "HTTP/0.9".

Definition error_content_type : string := "text/html;charset=utf-8".

(** [SimpleHTTPRequestHandler.server_version]. *)
Definition server_version : string := "SimpleHTTP/0.6".

(** [responses]: phrase and description of a status code, for the codes
    this handler sends. *)
Definition responses (code : Z) : option (string * string) :=
  if code =? 100 then Some ("Continue", "Request received, please continue")
  else if code =? 200 then Some ("OK", "Request fulfilled, document follows")
  else if code =? 301 then Some ("Moved Permanently", "Object moved permanently -- see URI list")
  else if code =? 304 then Some ("Not Modified", "Document has not changed since given time")
  else if code =? 400 then Some ("Bad Request", "Bad request syntax or unsupported method")
  else if code =? 404 then Some ("Not Found", "Nothing matches the given URI")
  else if code =? 414 then Some ("Request-URI Too Long", "URI is too long")
  else if code =? 431 then Some ("Request Header Fields Too Large",
    "The server is unwilling to process the request because its header fields are too large")
  else if code =? 501 then Some ("Not Implemented", "Server does not support this operation")
  else if code =? 505 then Some ("HTTP Version Not Supported", "Cannot fulfill request")
  else None.

(** Python's [>=] on [str]. *)
Definition str_ge (a b : string) : bool := String.leb b a.

(** Python's [>=] on pairs of integers. *)
Definition pair_ge (a b : Z * Z) : bool :=
  (b.1 <? a.1) || ((a.1 =? b.1) && (b.2 <=? a.2)).

(** [version.split('/', 1)[1]]: the text after the first separator;
    [IndexError] without one. *)
Fixpoint after (s : string) (sep : ascii) : result string :=
  match s with
  | EmptyString => Raise IndexError
  | String c s' => if Ascii.eqb c sep then Ok s' else after s' sep
  end.

(** [Message.get(name)]: the value of the first header of that name,
    letter case apart. *)
Fixpoint header_get (hs : list (string * string)) (name : string) : option string :=
  match hs with
  | [] => None
  | (k, v) :: hs' => if String.eqb (lower k) (lower name) then Some v else header_get hs' name
  end.

(** [wfile.write(b)]: the socket takes the chunk, or the connection is
    gone and the write raises. *)
Definition write (b : string) : M unit :=
  fun h => match writes_left h with
           | Some O => (Raise OSError, h)
           | Some (S n) => (Ok tt, set_writes_left (Some n) (set_wfile (wfile h ++ [b]) h))
           | None => (Ok tt, set_wfile (wfile h ++ [b]) h)
           end.

(** [rfile.readline(65537)]: empty at the end of the input.  The socket
    has no timeout: while the client is silent, the call waits. *)
Definition readline : M string :=
  fun h => match rfile h with
           | [] => (Ok EmptyString, h)
           | Line raw hb :: rest => (Ok raw, set_pending_headers hb (set_rfile rest h))
           | ReadError :: rest => (Raise OSError, set_rfile rest h)
           | Silence :: _ => (Raise Blocked, h)
           end.

(** [log_message(format, *args)], the message already formatted: one
    [sys.stderr.write], which raises when the stream takes no more. *)
Definition log_message (message : string) : M unit :=
  fun h => match stderr_left h with
           | Some O => (Raise OSError, h)
           | Some (S n) => (Ok tt, set_stderr_left (Some n) (set_stderr (stderr h ++ [message]) h))
           | None => (Ok tt, set_stderr (stderr h ++ [message]) h)
           end.

Definition log_request (code : Z) : M unit :=
  rl ← get requestline;
  log_message (dquote +:+ rl +:+ dquote +:+ " " +:+ of_Z code +:+ " -").

Definition log_error (message : string) : M unit := log_message message.

(** The attribute [self.path]. *)
Definition self_path : handler -> string := path.

(** The calls that ask the file system. *)
Definition os_path_isdir (p : string) : M bool := get (fun h => isdir (disk h) p).

Definition os_path_isfile (p : string) : M bool := get (fun h => isfile (disk h) p).

Definition os_path_islink (p : string) : M bool :=
  get (fun h => negb (has_nul p) && islink (disk h) p).

Definition os_open_rb (p : string) : M (result (string * Z)) :=
  get (fun h => open_rb (disk h) p).

Definition os_listdir (p : string) : M (result (list string)) :=
  get (fun h => listdir (disk h) p).

Section Handler.
Context `{PyLib} (w : World) (db : Mimetypes.MimeTypes).

Definition version_string : string := server_version +:+ " " +:+ sys_version.

(** [datetime.datetime.fromtimestamp(t, datetime.timezone.utc)]: the
    date, for a time of the years 1 to 9999. *)
Definition fromtimestamp (t : Z) : result Z :=
  if datetime_holds t then Ok t
  else if time_t_overflows t then Raise OverflowError
  else if gmtime_overflows t then Raise OSError
  else Raise ValueError.

(** [date_time_string(timestamp=None)]: [email.utils.formatdate] makes the
    date with [fromtimestamp]. *)
Definition date_time_string (timestamp : option Z) : M string :=
  date ← lift (fromtimestamp (default (clock w) timestamp));
  ret (formatdate date).

Definition append_header_line (line : string) : M unit :=
  modify (fun h => set_headers_buffer (Some (default [] (_headers_buffer h) ++ [line])) h).

Definition send_response_only (code : Z) (message : option string) : M unit :=
  rv ← get request_version;
  if negb (String.eqb rv "HTTP/0.9") then
    let message :=
      match message with
      | Some m => m
      | None => match responses code with Some (phrase, _) => phrase | None => EmptyString end
      end in
    append_header_line (protocol_version +:+ " " +:+ of_Z code +:+ " " +:+ message +:+ CRLF)
  else ret tt.

Definition send_header (keyword value : string) : M unit :=
  rv ← get request_version;
  when (negb (String.eqb rv "HTTP/0.9"))
       (append_header_line (keyword +:+ ": " +:+ value +:+ CRLF));;
  if String.eqb (lower keyword) "connection" then
    if String.eqb (lower value) "close" then modify (set_close_connection true)
    else if String.eqb (lower value) "keep-alive" then modify (set_close_connection false)
    else ret tt
  else ret tt.

Definition send_response (code : Z) (message : option string) : M unit :=
  log_request code;;
  send_response_only code message;;
  send_header "Server" version_string;;
  date ← date_time_string None;
  send_header "Date" date.

Definition flush_headers : M unit :=
  buf ← get _headers_buffer;
  match buf with
  | Some lines =>
      write (String.concat EmptyString lines);;
      modify (set_headers_buffer (Some []))
  | None => ret tt
  end.

(** [BaseHTTPRequestHandler.end_headers]. *)
Definition Base_end_headers : M unit :=
  rv ← get request_version;
  if negb (String.eqb rv "HTTP/0.9") then
    buf ← get _headers_buffer;
    match buf with
    | Some lines => modify (set_headers_buffer (Some (lines ++ [CRLF])));; flush_headers
    | None => raise AttributeError
    end
  else ret tt.

(** The one method the program overrides: the library code below calls
    [self.end_headers()], which is the method of the handler's class. *)
Class HandlerClass : Type := { end_headers : M unit }.

Section Methods.
Context {cls : HandlerClass}.

Definition send_error (code : Z) (message explain : option string) : M unit :=
  let '(shortmsg, longmsg) := default ("???", "???") (responses code) in
  let message := default shortmsg message in
  let explain := default longmsg explain in
  log_error ("code " +:+ of_Z code +:+ ", message " +:+ message);;
  send_response code (Some message);;
  send_header "Connection" "close";;
  body ← (if (200 <=? code) && negb ((code =? 204) || (code =? 205) || (code =? 304))
          then
            let body := error_page code message explain in
            send_header "Content-Type" error_content_type;;
            send_header "Content-Length" (of_Z (Z.of_nat (String.length body)));;
            ret (Some body)
          else ret None);
  end_headers;;
  cmd ← get command;
  match body with
  | Some body =>
      when (negb (bool_decide (cmd = Some "HEAD")) && negb (is_empty body)) (write body)
  | None => ret tt
  end.

Definition handle_expect_100 : M bool :=
  send_response_only 100 None;;
  end_headers;;
  ret true.

(** The [try] block of [parse_request] on the version word: the two
    numbers and the text after the slash, or the exception raised. *)
Definition parse_version (version : string) : result (Z * Z * string) :=
  if negb (startswith version "HTTP/") then Raise ValueError
  else match after version "/" with
       | Raise e => Raise e
       | Ok base_version_number =>
           match split base_version_number "." with
           | [a; b] =>
               match PyInt.int (int_max_str_digits w) a with
               | Raise e => Raise e
               | Ok major =>
                   match PyInt.int (int_max_str_digits w) b with
                   | Raise e => Raise e
                   | Ok minor => Ok (major, minor, base_version_number)
                   end
               end
           | _ => Raise ValueError
           end
       end.

Definition is_newline (c : ascii) : bool := Ascii.eqb c (chr 13) || Ascii.eqb c (chr 10).

(** The last part of [parse_request], from the headers on:
    [http.client.parse_headers(self.rfile)] returns the headers, or raises
    [LineTooLong] or another [HTTPException]. *)
Definition parse_request_headers : M bool :=
  hb ← get pending_headers;
  match hb with
  | HeaderReadError => raise OSError
  | HeaderSilence => raise Blocked
  | LineTooLong =>
      send_error 431 (Some "Line too long")
                 (Some "got more than 65536 bytes when reading header line");;
      ret false
  | TooManyHeaders =>
      send_error 431 (Some "Too many headers") (Some "got more than 100 headers");;
      ret false
  | HeaderLines hs =>
      modify (set_headers hs);;
      let conntype := default EmptyString (header_get hs "Connection") in
      (if String.eqb (lower conntype) "close" then modify (set_close_connection true)
       else if String.eqb (lower conntype) "keep-alive" && str_ge protocol_version "HTTP/1.1"
            then modify (set_close_connection false)
            else ret tt);;
      let expect := default EmptyString (header_get hs "Expect") in
      rv ← get request_version;
      if String.eqb (lower expect) "100-continue" && str_ge protocol_version "HTTP/1.1"
         && str_ge rv "HTTP/1.1"
      then handle_expect_100
      else ret true
  end.

(** [parse_request] on a path that starts with two slashes: reduced to a
    single one. *)
Definition reduce_slashes (path : string) : string :=
  if startswith path "//" then String "/" (lstrip (fun c => Ascii.eqb c "/") path) else path.

(** The part of [parse_request] after the version word. *)
Definition parse_request_words (words : list string) : M bool :=
  let n := Z.of_nat (length words) in
  if negb ((2 <=? n) && (n <=? 3)) then
    rl ← get requestline;
    send_error 400 (Some ("Bad request syntax (" +:+ repr rl +:+ ")")) None;;
    ret false
  else
    match words with
    | command :: path :: _ =>
        ok ← (if n =? 2 then
                 modify (set_close_connection true);;
                 if negb (String.eqb command "GET") then
                   send_error 400 (Some ("Bad HTTP/0.9 request type (" +:+ repr command +:+ ")"))
                              None;;
                   ret false
                 else ret true
               else ret true);
        if negb ok then ret false
        else
          modify (set_command (Some command));;
          modify (set_path path);;
          modify (set_path (reduce_slashes path));;
          parse_request_headers
    | _ => ret false
    end.

Definition parse_request : M bool :=
  modify (set_command None);;
  modify (set_request_version default_request_version);;
  modify (set_close_connection true);;
  raw ← get raw_requestline;
  let requestline := rstrip is_newline raw in
  modify (set_requestline requestline);;
  let words := PyStr.words requestline in
  if Nat.eqb (length words) 0 then ret false
  else
    ok ← (if (3 <=? length words)%nat then
             let version := default EmptyString (last words) in
             match parse_version version with
             | Raise _ =>
                 send_error 400 (Some ("Bad request version (" +:+ repr version +:+ ")")) None;;
                 ret false
             | Ok (major, minor, base_version_number) =>
                 when (pair_ge (major, minor) (1, 1) && str_ge protocol_version "HTTP/1.1")
                      (modify (set_close_connection false));;
                 if pair_ge (major, minor) (2, 0) then
                   send_error 505 (Some ("Invalid HTTP version (" +:+ base_version_number +:+ ")"))
                              None;;
                   ret false
                 else
                   modify (set_request_version version);;
                   ret true
             end
           else ret true);
    if negb ok then ret false else parse_request_words words.

(** *** [http.server.SimpleHTTPRequestHandler] *)

Definition extensions_map : gmap string string :=
  list_to_map [(".gz", "application/gzip"); (".Z", "application/octet-stream");
               (".bz2", "application/x-bzip2"); (".xz", "application/x-xz")].

(** [self.directory], the working directory when the handler is made. *)
Definition directory : string := getcwd w.

Definition guess_type (path : string) : string :=
  let '(base, ext) := PosixPath.splitext path in
  match extensions_map !! ext with
  | Some t => t
  | None =>
      let ext := lower ext in
      match extensions_map !! ext with
      | Some t => t
      | None =>
          match Mimetypes.guess_type db path with
          | (Some guess, _) =>
              if negb (is_empty guess) then guess else "application/octet-stream"
          | (None, _) => "application/octet-stream"
          end
      end
  end.

(** One turn of the loop of [translate_path] over the words. *)
Definition translate_step (path word : string) : string :=
  if negb (is_empty (PosixPath.dirname word)) || String.eqb word "." || String.eqb word ".."
  then path
  else PosixPath.join path word.

Definition translate_path (path : string) : string :=
  let path := before path "?" in
  let path := before path "#" in
  let trailing_slash := endswith (rstrip isspace path) "/" in
  let path := unquote path in
  let path := PosixPath.normpath path in
  let words := split path "/" in
  let words := filter (fun word => negb (is_empty word) = true) words in
  let path := fold_left translate_step words directory in
  if trailing_slash then path +:+ "/" else path.

(** [shutil.COPY_BUFSIZE]. *)
Definition COPY_BUFSIZE : Z := 64 * 1024.

(** [shutil.copyfileobj(source, self.wfile)]: read a buffer and write it,
    until a read returns nothing. *)
Fixpoint copyfileobj (fuel : nat) (source : string) : M unit :=
  match fuel with
  | O => ret tt
  | S fuel' =>
      let buf := take COPY_BUFSIZE source in
      if is_empty buf then ret tt
      else write buf;; copyfileobj fuel' (drop COPY_BUFSIZE source)
  end.

(** [copyfile(source, outputfile)]; the loop ends before the fuel does
    (see [copyfileobj_writes]). *)
Definition copyfile (source : string) : M unit :=
  copyfileobj (S (String.length source)) source.

(** The loop of [list_directory] over the names: each with [isdir] and
    [islink] of its full name. *)
Fixpoint list_entries (path : string) (names : list string)
  : M (list (string * bool * bool)) :=
  match names with
  | [] => ret []
  | name :: names' =>
      let fullname := PosixPath.join path name in
      is_dir ← os_path_isdir fullname;
      is_link ← os_path_islink fullname;
      entries ← list_entries path names';
      ret ((name, is_dir, is_link) :: entries)
  end.

(** [list_directory(path)]: the page, as the file object it returns.
    The page is encoded before anything is sent. *)
Definition list_directory (path : string) : M (option string) :=
  listing ← os_listdir path;
  match listing with
  | Raise OSError =>
      send_error 404 (Some "No permission to list directory") None;;
      ret None
  | Raise e => raise e
  | Ok names =>
      url ← get self_path;
      entries ← list_entries path names;
      encoded ← lift (match listing_page url path entries with
                      | Some page => Ok page
                      | None => Raise UnicodeEncodeError
                      end);
      send_response 200 None;;
      send_header "Content-type" ("text/html; charset=" +:+ filesystem_encoding);;
      send_header "Content-Length" (of_Z (Z.of_nat (String.length encoded)));;
      end_headers;;
      ret (Some encoded)
  end.

(** The test "use browser cache if possible" of [send_head]: the request
    has [If-Modified-Since] and no [If-None-Match], the date parses to a time
    that is naive or in UTC, and the file was not modified after it.  The
    time of modification is made a date with [fromtimestamp] when the test
    comes to the comparison. *)
Definition not_modified (hs : list (string * string)) (mtime : Z) : result bool :=
  if bool_decide (is_Some (header_get hs "If-Modified-Since"))
     && negb (bool_decide (is_Some (header_get hs "If-None-Match")))
  then match parsedate_utc (default EmptyString (header_get hs "If-Modified-Since")) with
       | Some ims =>
           match fromtimestamp mtime with
           | Ok last_modif => Ok (last_modif <=? ims)
           | Raise e => Raise e
           end
       | None => Ok false
       end
  else Ok false.

(** The part of [send_head] from [guess_type] on, for the path of a file.
    Of what [open] raises only [OSError] is caught; what is raised once the
    file is open goes on to the caller. *)
Definition send_head_file (path : string) : M (option string) :=
  let ctype := guess_type path in
  if endswith path "/" then
    send_error 404 (Some "File not found") None;;
    ret None
  else
    opened ← os_open_rb path;
    match opened with
    | Raise OSError =>
        send_error 404 (Some "File not found") None;;
        ret None
    | Raise e => raise e
    | Ok (content, mtime) =>
        hs ← get headers;
        cached ← lift (not_modified hs mtime);
        if cached : bool then
          send_response 304 None;;
          end_headers;;
          ret None
        else
          send_response 200 None;;
          send_header "Content-type" ctype;;
          send_header "Content-Length" (of_Z (Z.of_nat (String.length content)));;
          date ← date_time_string (Some mtime);
          send_header "Last-Modified" date;;
          end_headers;;
          ret (Some content)
    end.

(** [send_head()]: the file object to copy, if any. *)
Definition send_head : M (option string) :=
  url ← get self_path;
  let path := translate_path url in
  is_dir ← os_path_isdir path;
  if is_dir then
    parts ← lift (urlsplit url);
    let '(scheme, netloc, url_path, query, fragment) := parts in
    if negb (endswith url_path "/") then
      send_response 301 None;;
      send_header "Location" (urlunsplit (scheme, netloc, url_path +:+ "/", query, fragment));;
      send_header "Content-Length" "0";;
      end_headers;;
      ret None
    else
      has_html ← os_path_isfile (PosixPath.join path "index.html");
      if has_html then send_head_file (PosixPath.join path "index.html")
      else
        has_htm ← os_path_isfile (PosixPath.join path "index.htm");
        if has_htm then send_head_file (PosixPath.join path "index.htm")
        else list_directory path
  else send_head_file path.

(** Closing the file object changes nothing in the model. *)
Definition do_GET : M unit :=
  f ← send_head;
  match f with
  | Some source => copyfile source
  | None => ret tt
  end.

Definition do_HEAD : M unit :=
  f ← send_head;
  ret tt.

(** [getattr(self, 'do_' + command)]: the class has [do_GET] and [do_HEAD]. *)
Definition method (command : string) : option (M unit) :=
  if String.eqb command "GET" then Some do_GET
  else if String.eqb command "HEAD" then Some do_HEAD
  else None.

(** [handle_one_request()].  The socket has no timeout, so the
    [except TimeoutError] clause never runs; [wfile.flush()] does nothing
    on the unbuffered socket writer. *)
Definition handle_one_request : M unit :=
  raw ← readline;
  modify (set_raw_requestline raw);;
  if 65536 <? Z.of_nat (String.length raw) then
    modify (set_requestline EmptyString);;
    modify (set_request_version EmptyString);;
    modify (set_command (Some EmptyString));;
    send_error 414 None None
  else if is_empty raw then modify (set_close_connection true)
  else
    ok ← parse_request;
    if negb ok then ret tt
    else
      cmd ← get command;
      match method (default EmptyString cmd) with
      | None =>
          send_error 501 (Some ("Unsupported method (" +:+ repr (default EmptyString cmd) +:+ ")"))
                     None
      | Some m => m
      end.

(** The [while not self.close_connection] loop of [handle()]. *)
Fixpoint handle_loop (fuel : nat) : M unit :=
  match fuel with
  | O => ret tt
  | S fuel' =>
      closed ← get close_connection;
      if closed then ret tt else handle_one_request;; handle_loop fuel'
  end.

(** [handle()]: every turn of the loop reads a line or meets the end of
    the input, which closes the connection. *)
Definition handle : M unit :=
  modify (set_close_connection true);;
  handle_one_request;;
  pending ← get rfile;
  handle_loop (S (length pending)).

End Methods.
End Handler.

End HttpServer.

(** ** [socketserver.TCPServer] *)

Module SocketServer.

(** A connection as the server meets it: what the client sends, and how
    many writes it takes before it is gone.  While it is there, the client
    reads what is written to it. *)
Record connection : Type := {
  arrivals : list arrival;
  peer_takes : option nat
}.

(** What [select] reports on the listening socket: a connection to accept,
    or an [accept] that fails. *)
Inductive event : Type :=
| AcceptError
| Connection (c : connection).

(** The connections among the events, in their order. *)
Fixpoint accepted (events : list event) : list connection :=
  match events with
  | [] => []
  | AcceptError :: events' => accepted events'
  | Connection c :: events' => c :: accepted events'
  end.

(** A server that was bound and activated, with what it has done so far:
    the messages on [sys.stderr] and, per connection handled, the chunks
    written to it; [fs] is the file system as the handlers left it, and
    [stderr_room] how many more messages [sys.stderr] takes. *)
Record server : Type := {
  server_address : Z;
  fs : filesystem;
  errors : list string;
  sent : list (list string);
  stderr_room : option nat
}.

(** [socket.bind(("", port))] followed by [getsockname()]. *)
Definition socket_bind (w : World) (port : Z) : result Z :=
  if (port <? 0) || (65535 <? port) then Raise OverflowError
  else if port =? 0 then
    match ephemeral_port w with Some p => Ok p | None => Raise OSError end
  else if port_free w port then Ok port else Raise OSError.

(** [TCPServer.__init__]: [server_bind()] and [server_activate()]; when
    one raises, the socket is closed and the exception goes on. *)
Definition TCPServer (w : World) (port : Z) : result server :=
  match socket_bind w port with
  | Ok bound =>
      Ok {| server_address := bound; fs := filesystem0 w; errors := []; sent := [];
            stderr_room := stderr_takes w |}
  | Raise e => Raise e
  end.

(** The handler object [finish_request] makes for a connection, with a
    standard error stream that takes every message. *)
Definition new_handler (d : filesystem) (c : connection) : handler :=
  {| disk := d;
     rfile := arrivals c;
     pending_headers := HeaderLines [];
     writes_left := peer_takes c;
     wfile := [];
     stderr := [];
     stderr_left := None;
     raw_requestline := EmptyString;
     requestline := EmptyString;
     command := None;
     path := EmptyString;
     request_version := EmptyString;
     headers := [];
     close_connection := true;
     _headers_buffer := None |}.

Definition exn_name (e : exn) : string :=
  match e with
  | ValueError => "ValueError"
  | OverflowError => "OverflowError"
  | IndexError => "IndexError"
  | AttributeError => "AttributeError"
  | OSError => "OSError"
  | UnicodeEncodeError => "UnicodeEncodeError"
  | Blocked => EmptyString
  end.

(** [traceback.print_exc()], down to its first and last line. *)
Definition traceback (e : exn) : list string :=
  ["Traceback (most recent call last):"; exn_name e].

(** [handle_error]: what it prints on [sys.stderr]. *)
Definition handle_error (e : exn) : list string :=
  ["----------------------------------------";
   "Exception occurred during processing of request from"]
  ++ traceback e ++ ["----------------------------------------"].

(** [print(line, file=sys.stderr)] for each of the lines: [OSError] at
    the first one the stream does not take. *)
Fixpoint print_stderr (lines : list string) (srv : server) : result unit * server :=
  match lines with
  | [] => (Ok tt, srv)
  | line :: lines' =>
      match stderr_room srv with
      | Some O => (Raise OSError, srv)
      | room =>
          print_stderr lines'
            {| server_address := server_address srv;
               fs := fs srv;
               errors := errors srv ++ [line];
               sent := sent srv;
               stderr_room := Nat.pred <$> room |}
      end
  end.

(** The server once a handler is done with a connection. *)
Definition finished (srv : server) (h : handler) : server :=
  {| server_address := server_address srv;
     fs := disk h;
     errors := errors srv ++ stderr h;
     sent := sent srv ++ [wfile h];
     stderr_room := stderr_left h |}.

(** [_handle_request_noblock()].  A failing [accept] is passed over.  The
    handler runs in [process_request]; every exception class of [exn]
    derives from [Exception], so whatever the handler raises is caught and
    reported by [handle_error], and the request is shut down.  What
    [handle_error] itself raises is not caught.  A handler that does not
    return holds the server, which has one thread. *)
Definition _handle_request_noblock (handle : M unit) (ev : event) (srv : server)
  : result unit * server :=
  match ev with
  | AcceptError => (Ok tt, srv)
  | Connection c =>
      let '(r, h) := handle (set_stderr_left (stderr_room srv) (new_handler (fs srv) c)) in
      match r with
      | Ok _ => (Ok tt, finished srv h)
      | Raise Blocked => (Raise Blocked, finished srv h)
      | Raise e => print_stderr (handle_error e) (finished srv h)
      end
  end.

(** [serve_forever()] over the events that arrive: one
    [_handle_request_noblock()] each, then the server waits for more; it
    ends with the exception that leaves the loop, if one does. *)
Fixpoint serve_forever (handle : M unit) (events : list event) (srv : server)
  : result unit * server :=
  match events with
  | [] => (Ok tt, srv)
  | ev :: events' =>
      match _handle_request_noblock handle ev srv with
      | (Ok _, srv') => serve_forever handle events' srv'
      | (Raise e, srv') => (Raise e, srv')
      end
  end.

End SocketServer.

(** ** The program: [wasm_server.py] *)

Module WasmServer.
Import PyStr HttpServer SocketServer.

(** [mimetypes.add_type('application/wasm', '.wasm')], on the registry
    that [mimetypes.init()] builds. *)
Definition mimetypes_db (w : World) : Mimetypes.MimeTypes :=
  Mimetypes.add_type "application/wasm" ".wasm" (Mimetypes.init (platform_types w)).

(** [class WASMHandler(http.server.SimpleHTTPRequestHandler)], with its
    [end_headers]. *)
Definition WASMHandler : HandlerClass :=
  {| end_headers :=
       send_header "Cross-Origin-Embedder-Policy" "require-corp";;
       send_header "Cross-Origin-Opener-Policy" "same-origin";;
       Base_end_headers |}.

(** The base class, for comparison. *)
Definition SimpleHTTPRequestHandler : HandlerClass :=
  {| end_headers := Base_end_headers |}.

(** The end of a header block that carries the two headers: their lines,
    then the blank line. *)
Definition isolation_block_end : string :=
  "Cross-Origin-Embedder-Policy: require-corp" +:+ CRLF
  +:+ "Cross-Origin-Opener-Policy: same-origin" +:+ CRLF +:+ CRLF.

Definition isolated (block : string) : bool := endswith block isolation_block_end.

(** [int(sys.argv[1]) if len(sys.argv) > 1 else 8000]. *)
Definition port_of_argv (w : World) (argv : list Unicode.str) : result Z :=
  if (1 <? length argv)%nat then
    match argv !! 1%nat with
    | Some arg => PyInt.int (int_max_str_digits w) arg
    | None => Raise IndexError
    end
  else Ok 8000.

(** The globe and the package, as UTF-8. *)
Definition globe : string :=
  String (chr 240) (String (chr 159) (String (chr 140) (String (chr 144) EmptyString))).

Definition package : string :=
  String (chr 240) (String (chr 159) (String (chr 147) (String (chr 166) EmptyString))).

Definition startup_lines (port : Z) : list string :=
  [globe +:+ " Serving at http://localhost:" +:+ of_Z port;
   package +:+ " WASM files will be served with proper application/wasm MIME type"].

(** How a run of the program stands: what it printed, the port it
    listens on while it serves, what it wrote to each connection, the file
    system as it left it, and its exit status once it has ended. *)
Record process : Type := {
  stdout : list string;
  stderr_lines : list string;
  listening : option Z;
  replies : list (list string);
  disk_after : filesystem;
  exit_status : option Z
}.

(** What [sys.stderr] takes of some lines, with room for [room] more. *)
Definition taken (room : option nat) (lines : list string) : list string :=
  match room with Some n => firstn n lines | None => lines end.

(** The exit status after an exception nobody catches: 1, or 120 when
    the interpreter could not write the traceback and fails to flush
    [sys.stderr] as it ends. *)
Definition exit_code (room : option nat) (lines : list string) : Z :=
  match room with
  | Some n => if (length lines <=? n)%nat then 1 else 120
  | None => 1
  end.

(** An exception nobody catches, before the server serves: the
    interpreter prints the traceback and exits. *)
Definition uncaught (w : World) (e : exn) : process :=
  {| stdout := [];
     stderr_lines := taken (stderr_takes w) (traceback e);
     listening := None;
     replies := [];
     disk_after := filesystem0 w;
     exit_status := Some (exit_code (stderr_takes w) (traceback e)) |}.

(** The process while the server serves, and once an exception has left
    [serve_forever]: the [with] block closes the socket, and the interpreter
    prints the traceback and exits. *)
Definition serving (port : Z) (httpd : server) : process :=
  {| stdout := startup_lines port;
     stderr_lines := errors httpd;
     listening := Some (server_address httpd);
     replies := sent httpd;
     disk_after := fs httpd;
     exit_status := None |}.

Definition crashed (port : Z) (httpd : server) (e : exn) : process :=
  {| stdout := startup_lines port;
     stderr_lines := errors httpd ++ taken (stderr_room httpd) (traceback e);
     listening := None;
     replies := sent httpd;
     disk_after := fs httpd;
     exit_status := Some (exit_code (stderr_room httpd) (traceback e)) |}.

(** The process by how [serve_forever] stands.  A server held by a
    handler that does not return still runs, and listens. *)
Definition outcome (port : Z) (run : result unit * server) : process :=
  match run with
  | (Ok _, httpd) | (Raise Blocked, httpd) => serving port httpd
  | (Raise e, httpd) => crashed port httpd e
  end.

Section Main.
Context `{PyLib} (w : World).

(** The handler the server runs for each connection. *)
Definition WASMHandler_handle : M unit :=
  handle (cls := WASMHandler) w (mimetypes_db w).

(** The header block of a reply of this handler, as the specification
    describes it: the status line, the [Server] and [Date] headers, the
    headers of the reply at hand, the two cross-origin headers, and the blank
    line. *)
Definition header_line (field : string * string) : string :=
  field.1 +:+ ": " +:+ field.2 +:+ CRLF.

Definition header_block (code : Z) (phrase : string) (fields : list (string * string))
  : string :=
  String.concat EmptyString
    ([protocol_version +:+ " " +:+ of_Z code +:+ " " +:+ phrase +:+ CRLF]
     ++ (header_line <$> [("Server", version_string); ("Date", formatdate (clock w))]
                         ++ fields
                         ++ [("Cross-Origin-Embedder-Policy", "require-corp");
                             ("Cross-Origin-Opener-Policy", "same-origin")])
     ++ [CRLF]).

(** What the handler does with a connection, while the standard error
    stream takes its messages: the outcome and the state it ends in; [reply]
    is what it wrote. *)
Definition serve (d : filesystem) (c : connection) : result unit * handler :=
  WASMHandler_handle (new_handler d c).

Definition reply (d : filesystem) (c : connection) : list string :=
  wfile (serve d c).2.

(** The [if __name__ == "__main__"] block, run on the events that arrive
    at the listening socket. *)
Definition main (argv : list Unicode.str) (events : list event) : process :=
  match port_of_argv w argv with
  | Raise e => uncaught w e
  | Ok port =>
      match TCPServer w port with
      | Raise e => uncaught w e
      | Ok httpd =>
          if stdout_ok w
          then outcome port (serve_forever WASMHandler_handle events httpd)
          else uncaught w UnicodeEncodeError
      end
  end.

End Main.

End WasmServer.

(** ** Integer literals, as the specification words them

    A valid integer literal: white space, an optional sign, decimal digits
    with single underscores between them, white space.  The digits are the
    decimal digits of any script, and the white space is that of Unicode
    without the four separators U+001C to U+001F.  [int_literal s z n] says
    that [s] is such a literal, of value [z], with [n] digits. *)

Module IntLiteralSpec.
Import Unicode.

Definition is_space (ch : N) : bool :=
  isspace ch && negb ((28 <=? ch) && (ch <=? 31))%N.

Inductive sign : str -> Z -> Prop :=
| sign_none : sign [] 1
| sign_plus : sign [ord "+"] 1
| sign_minus : sign [ord "-"] (-1).

Inductive digit_string : str -> Z -> nat -> Prop :=
| ds_one ch d :
    todecimal ch = Some d ->
    digit_string [ch] d 1
| ds_digit s z n ch d :
    digit_string s z n -> todecimal ch = Some d ->
    digit_string (s ++ [ch]) (z * 10 + d) (S n)
| ds_underscore s z n ch d :
    digit_string s z n -> todecimal ch = Some d ->
    digit_string (s ++ [ord "_"; ch]) (z * 10 + d) (S n).

Inductive int_literal : str -> Z -> nat -> Prop :=
| literal_intro ws1 sg sigma body z n ws2 :
    forallb is_space ws1 = true -> sign sg sigma -> digit_string body z n ->
    forallb is_space ws2 = true ->
    int_literal (ws1 ++ sg ++ body ++ ws2) (sigma * z) n.

(** [s] is a valid integer literal. *)
Definition valid (s : str) : Prop := exists z n, int_literal s z n.

End IntLiteralSpec.

(** ** The literals of the parser

    What [PyLong_FromString] reads, as a grammar over the ASCII text that
    [PyInt.transform] hands to it: the white space of the C locale, a sign,
    ASCII digits with single underscores between them. *)

Module CLiteral.

Fixpoint all_chars (p : ascii -> bool) (s : string) : bool :=
  match s with
  | EmptyString => true
  | String c s' => p c && all_chars p s'
  end.

Inductive sign : string -> Z -> Prop :=
| sign_none : sign EmptyString 1
| sign_plus : sign "+" 1
| sign_minus : sign "-" (-1).

Inductive digit_string : string -> Z -> nat -> Prop :=
| ds_one c d :
    PyInt.digit_value c = Some d ->
    digit_string (String c EmptyString) d 1
| ds_digit s z n c d :
    digit_string s z n -> PyInt.digit_value c = Some d ->
    digit_string (s +:+ String c EmptyString) (z * 10 + d) (S n)
| ds_underscore s z n c d :
    digit_string s z n -> PyInt.digit_value c = Some d ->
    digit_string (s +:+ String "_" (String c EmptyString)) (z * 10 + d) (S n).

Inductive literal : string -> Z -> nat -> Prop :=
| literal_intro ws1 sg sigma body z n ws2 :
    all_chars PyInt.Py_ISSPACE ws1 = true -> sign sg sigma -> digit_string body z n ->
    all_chars PyInt.Py_ISSPACE ws2 = true ->
    literal (ws1 +:+ sg +:+ body +:+ ws2) (sigma * z) n.

End CLiteral.

(** ** Paths under the root directory

    [confined root p]: the path [p] is the root directory followed by
    simple names and slashes only.  A simple name is not empty, has no
    slash, and is neither [.] nor [..]; so a confined path names something
    below the root, and no step of it leads up again. *)

Module Confinement.

Definition simple_name (name : string) : bool :=
  negb (PyStr.is_empty name) && (PyStr.find name "/" <? 0)
  && negb (String.eqb name ".") && negb (String.eqb name "..").

Inductive confined (root : string) : string -> Prop :=
| confined_root : confined root root
| confined_join p name :
    confined root p -> simple_name name = true -> confined root (PosixPath.join p name)
| confined_slash p :
    confined root p -> confined root (p +:+ "/").

(** Two file systems that differ only outside the root directory, and
    there only in what files hold, what directories list and when files
    were modified: below the root they are the same, and everywhere the same
    paths are directories and symbolic links. *)
Definition agree (root : string) (d1 d2 : filesystem) : Prop :=
  (forall p, confined root p -> lookup d1 p = lookup d2 p)
  /\ (forall p, isdir d1 p = isdir d2 p)
  /\ (forall p, islink d1 p = islink d2 p).

End Confinement.

(** ** A concrete world, for the examples *)

Module Example.
Import PyStr HttpServer SocketServer WasmServer.

(** Stand-ins for the library functions left abstract.  [unquote] and
    [urlsplit] are given on the texts the examples use: paths without
    percent signs, query or fragment; and the escape [%ED%A0%80] of a lone
    surrogate, which stands for the surrogate. *)
Definition lib : PyLib :=
  {| unquote := fun s => s;
     urlsplit := fun s => Ok (EmptyString, EmptyString, s, EmptyString, EmptyString);
     urlsplit_returns := fun s => ltac:(discriminate);
     urlunsplit := fun '(scheme, netloc, url_path, query, fragment) => url_path;
     formatdate := fun t => "t=" +:+ of_Z t;
     time_t_overflows := fun t => (t <? - 2 ^ 63) || (2 ^ 63 <=? t);
     gmtime_overflows := fun t => (t <? - 2 ^ 55) || (2 ^ 55 <=? t);
     parsedate_utc := fun s => if String.eqb s "never" then None else Some 4102444800;
     error_page := fun code message explain => of_Z code +:+ " " +:+ message;
     listing_page := fun url path entries => Some ("Directory listing for " +:+ url);
     filesystem_encoding := "utf-8";
     repr := fun s => "'" +:+ s +:+ "'";
     sys_version := "Python/3.11.2" |}.

(** A served directory [/srv/www] with [module.wasm], [APP.WASM],
    [index.html], an unreadable [secret.wasm], a file [.WASM], a file
    [future.wasm] last modified in the year 33658, and a directory [private]
    that cannot be listed; [/etc/passwd] lies outside it.  The path with a
    lone surrogate cannot be encoded. *)
Definition files (passwd : string) : filesystem :=
  {| lookup := fun p =>
       if String.eqb p "/srv/www" || String.eqb p "/srv/www/"
       then Some (Dir (Some [".WASM"; "APP.WASM"; "future.wasm"; "index.html"; "module.wasm";
                             "private"; "secret.wasm"]))
       else if String.eqb p "/srv/www/module.wasm" then Some (File (Some "wasm-bytes") 1700000000)
       else if String.eqb p "/srv/www/.WASM" then Some (File (Some "dot-bytes") 1700000000)
       else if String.eqb p "/srv/www/future.wasm"
       then Some (File (Some "late-bytes") 1000000000000)
       else if String.eqb p "/srv/www/APP.WASM" then Some (File (Some "more-bytes") 1700000000)
       else if String.eqb p "/srv/www/index.html" then Some (File (Some "<html>") 1700000000)
       else if String.eqb p "/srv/www/secret.wasm" then Some (File None 1700000000)
       else if String.eqb p "/srv/www/private" || String.eqb p "/srv/www/private/"
       then Some (Dir None)
       else if String.eqb p "/etc/passwd" then Some (File (Some passwd) 1700000000)
       else if String.eqb p "/srv/www/%ED%A0%80" then Some Unencodable
       else None;
     islink := fun _ => false |}.

Definition world : World :=
  {| cwd_tail := "srv/www";
     filesystem0 := files "root:x:0:0";
     clock := 1800000000;
     clock_holds := eq_refl;
     platform_types := ∅;
     int_max_str_digits := PyInt.DEFAULT_MAX_STR_DIGITS;
     port_free := fun port => negb (port =? 8080);
     ephemeral_port := Some 49152;
     stdout_ok := true;
     stderr_takes := None |}.

(** The same world with a standard error stream that takes nothing: a
    pipe whose reader is gone, or a device that is full. *)
Definition mute_world : World :=
  {| cwd_tail := "srv/www";
     filesystem0 := files "root:x:0:0";
     clock := 1800000000;
     clock_holds := eq_refl;
     platform_types := ∅;
     int_max_str_digits := PyInt.DEFAULT_MAX_STR_DIGITS;
     port_free := fun port => negb (port =? 8080);
     ephemeral_port := Some 49152;
     stdout_ok := true;
     stderr_takes := Some 0%nat |}.

(** A client that sends one request line, CR LF, and the given headers,
    and reads all of the reply. *)
Definition request (line : string) (hs : list (string * string)) : connection :=
  {| arrivals := [Line (line +:+ CRLF) (HeaderLines hs)]; peer_takes := None |}.

(** The text 8000 in Arabic-Indic digits (U+0668, U+0660). *)
Definition arabic_8000 : Unicode.str := [1640; 1632; 1632; 1632]%N.

(** [n] times the digit one. *)
Fixpoint ones (n : nat) : string :=
  match n with O => EmptyString | S n' => String "1" (ones n') end.

(** Four connections: one whose socket fails on the first read, one
    whose peer is gone before the reply, one that asks for a missing file,
    and one that asks for [module.wasm]. *)
Definition troubled_events : list SocketServer.event :=
  [SocketServer.Connection {| SocketServer.arrivals := [ReadError];
                              SocketServer.peer_takes := None |};
   SocketServer.AcceptError;
   SocketServer.Connection {| SocketServer.arrivals :=
                                [Line "GET /module.wasm HTTP/1.1" (HeaderLines [])];
                              SocketServer.peer_takes := Some 0%nat |};
   SocketServer.Connection (Example.request "GET /missing.bin HTTP/1.1" []);
   SocketServer.Connection (Example.request "GET /module.wasm HTTP/1.1" [])].

(** Two connections: a client that connects and sends nothing, and one
    that asks for [module.wasm]. *)
Definition stalled_events : list SocketServer.event :=
  [SocketServer.Connection {| SocketServer.arrivals := [Silence];
                              SocketServer.peer_takes := None |};
   SocketServer.Connection (Example.request "GET /module.wasm HTTP/1.1" [])].

End Example.

(** ** What the theorems speak of *)

(** *** Requests and replies *)

Section Requests.
Import PyStr HttpServer SocketServer WasmServer.
Context `{PyLib} (w : World).

(** A request line the server takes: at most 65536 bytes, with three
    words, the last of them a version below 2.0 other than [HTTP/0.9]. *)
Definition accepted_request (raw cmd url version : string) : Prop :=
  Z.of_nat (String.length raw) <= 65536
  /\ words (rstrip is_newline raw) = [cmd; url; version]
  /\ (exists major minor base,
        parse_version w version = Ok (major, minor, base)
        /\ pair_ge (major, minor) (2, 0) = false)
  /\ version <> "HTTP/0.9".

(** Nothing to open at [f], a path that reaches the operating system (it
    has no null character, and it can be encoded): no such path, or a file
    that cannot be read. *)
Definition missing (d : filesystem) (f : string) : Prop :=
  has_nul f = false
  /\ (lookup d f = None \/ exists mtime, lookup d f = Some (File None mtime)).

(** The body that follows the header block of an error reply: the page,
    unless the request is a [HEAD] or the page is empty. *)
Definition error_body (cmd : option string) (page : string) : list string :=
  if negb (bool_decide (cmd = Some "HEAD")) && negb (is_empty page) then [page] else [].

(** The page of the 404 that [send_head] sends. *)
Definition not_found_page : string :=
  error_page 404 "File not found" "Nothing matches the given URI".

(** What a connection leaves on the standard error stream when the
    stream takes it: the messages of the handler, and the report of
    [handle_error] when the handler raises. *)
Definition connection_log (d : filesystem) (c : connection) : list string :=
  stderr (serve w d c).2
  ++ match (serve w d c).1 with
     | Raise e => handle_error e
     | Ok _ => []
     end.

(** The server with one more connection handled, by a handler that
    returns or raises, on a standard error stream that takes every
    message. *)
Definition handled (srv : server) (c : connection) : server :=
  {| server_address := server_address srv;
     fs := fs srv;
     errors := errors srv ++ connection_log (fs srv) c;
     sent := sent srv ++ [reply w (fs srv) c];
     stderr_room := None |}.

End Requests.

(** *** Clients that hold nothing up *)

Section PromptClients.
Import SocketServer.

(** A client is prompt when it sends each line it begins to its end, and
    the header block after a request line to its blank line, or closes its
    side: nothing of it is a silence on an open connection. *)
Definition prompt_headers (hb : header_block) : bool :=
  match hb with
  | HeaderSilence => false
  | _ => true
  end.

Definition prompt_arrival (a : arrival) : bool :=
  match a with
  | Line _ hb => prompt_headers hb
  | ReadError => true
  | Silence => false
  end.

Definition prompt (c : connection) : bool := forallb prompt_arrival (arrivals c).

Definition prompt_event (ev : event) : bool :=
  match ev with
  | AcceptError => true
  | Connection c => prompt c
  end.

End PromptClients.

Section StartupFailures.
Import SocketServer WasmServer.

(** How the start of the program can fail: the port argument is no
    integer, the socket cannot be bound, or the start-up lines cannot be
    printed. *)
Inductive startup_failure (w : World) (argv : list Unicode.str) : exn -> Prop :=
| bad_port_argument e :
    port_of_argv w argv = Raise e -> startup_failure w argv e
| bind_failure port e :
    port_of_argv w argv = Ok port -> TCPServer w port = Raise e ->
    startup_failure w argv e
| print_failure port httpd :
    port_of_argv w argv = Ok port -> TCPServer w port = Ok httpd ->
    stdout_ok w = false -> startup_failure w argv UnicodeEncodeError.

(** The process has ended at its start, for the exception [e]: its exit
    status is not zero; when the standard error stream takes the traceback,
    the status is 1 and the traceback names the exception; nothing was
    printed on the standard output, no port is listened on and no request
    was answered. *)
Definition fatal (w : World) (p : process) (e : exn) : Prop :=
  (exists code, exit_status p = Some code /\ code <> 0)
  /\ (stderr_takes w = None ->
      exit_status p = Some 1
      /\ stderr_lines p = ["Traceback (most recent call last):"; exn_name e])
  /\ stdout p = [] /\ listening p = None /\ replies p = [].

End StartupFailures.

(** *** The characters of an integer text

    [PyInt.transform] keeps the code points below 127, turns the wider
    white space into blanks and the wider digits into ASCII digits, and
    stops at any other code point. *)

Section IntegerTexts.
Import PyInt.

(** The code points [transform] takes. *)
Definition good (ch : N) : bool :=
  (ch <? 127)%N || Unicode.isspace ch || bool_decide (is_Some (Unicode.todecimal ch)).

(** What [transform] makes of a code point it takes. *)
Definition to_ascii (ch : N) : ascii :=
  if (ch <? 127)%N then ascii_of_N ch
  else if Unicode.isspace ch then " "%char
  else PyStr.chr (48 + default 0 (Unicode.todecimal ch)).

Fixpoint map_chars (f : N -> ascii) (s : Unicode.str) : string :=
  match s with
  | [] => EmptyString
  | ch :: s' => String (f ch) (map_chars f s')
  end.

(** The characters a literal of the parser is made of. *)
Definition literal_char (c : ascii) : bool :=
  Py_ISSPACE c || bool_decide (is_Some (digit_value c))
  || Ascii.eqb c "+" || Ascii.eqb c "-" || Ascii.eqb c "_".

End IntegerTexts.

(** *** Predicates on handler methods *)

Section MethodPredicates.
Import PyStr HttpServer WasmServer Confinement.

(** A method is quiet when it writes nothing to the connection, keeps
    the request version, does not reopen a connection marked to close, and
    takes no message back from the log. *)
Definition unchanged (h h' : handler) : Prop :=
  wfile h' = wfile h /\ request_version h' = request_version h
  /\ (close_connection h = true -> close_connection h' = true)
  /\ (stderr h <> [] -> stderr h' <> []).

Definition quiet {A : Type} (m : M A) : Prop := forall h, unchanged h (m h).2.

(** [m], run from a state in [P], ends in [Q] when it returns and in [E]
    when it raises. *)
Definition tri {A : Type} (P : handler -> Prop) (m : M A)
    (Q : A -> handler -> Prop) (E : handler -> Prop) : Prop :=
  forall h, P h -> match m h with
                   | (Ok a, h') => Q a h'
                   | (Raise _, h') => E h'
                   end.

(** The first chunk of the reply, if any, is a header block with the two
    headers; [sent] says that there is one.  Both hold by default for a
    request answered in the style of HTTP/0.9, which has no header block. *)
Definition headers_ok (h : handler) : Prop :=
  request_version h = "HTTP/0.9"
  \/ match wfile h with
     | [] => True
     | block :: _ => isolated block = true
     end.

Definition headers_sent (h : handler) : Prop :=
  request_version h = "HTTP/0.9"
  \/ match wfile h with
     | [] => False
     | block :: _ => isolated block = true
     end.

Definition okst (h : handler) : Prop := close_connection h = true /\ headers_ok h.

Definition sentst (h : handler) : Prop := close_connection h = true /\ headers_sent h.

(** A handler that has written nothing yet. *)
Definition freshst (h : handler) : Prop := close_connection h = true /\ wfile h = [].

(** What [send_head] and its parts leave behind: when they return a file
    object, the header block is written. *)
Definition file_post (f : option string) (h : handler) : Prop :=
  match f with Some _ => sentst h | None => okst h end.

(** A handler with a message in its log, and one that has a message in
    its log if it has written to the connection. *)
Definition noted (h : handler) : Prop := stderr h <> [].

Definition noted_if_written (h : handler) : Prop := wfile h = [] \/ stderr h <> [].

Definition file_noted (f : option string) (h : handler) : Prop :=
  match f with Some _ => noted h | None => noted_if_written h end.

(** A handler that nothing holds up: what is left to read is of a prompt
    client, and the standard error stream takes any number of messages. *)
Definition unhindered (h : handler) : Prop :=
  forallb prompt_arrival (rfile h) = true
  /\ prompt_headers (pending_headers h) = true
  /\ stderr_left h = None.

(** A method proceeds when, run by a handler that nothing holds up, it
    returns or raises, and nothing holds up the handler after it. *)
Definition proceeds {A : Type} (m : M A) : Prop :=
  forall h, unhindered h -> unhindered (m h).2 /\ (m h).1 <> Raise Blocked.

(** The same handler on another file system. *)
Definition with_disk (d : filesystem) (h : handler) : handler :=
  {| disk := d;
     rfile := rfile h;
     pending_headers := pending_headers h;
     writes_left := writes_left h;
     wfile := wfile h;
     stderr := stderr h;
     stderr_left := stderr_left h;
     raw_requestline := raw_requestline h;
     requestline := requestline h;
     command := command h;
     path := path h;
     request_version := request_version h;
     headers := headers h;
     close_connection := close_connection h;
     _headers_buffer := _headers_buffer h |}.

(** [m] leaves the file system as it is, and on a file system that
    agrees with it below [root] it does the same. *)
Definition respects (root : string) {A : Type} (m : M A) : Prop :=
  forall h d2, agree root (disk h) d2 ->
    disk (m h).2 = disk h /\ m (with_disk d2 h) = ((m h).1, with_disk d2 (m h).2).

End MethodPredicates.

(** *** State changes of the handler *)

Section StateChanges.
Import PyStr HttpServer.

(** Lines added to the header buffer, messages to the log, chunks to the
    connection. *)
Definition buffered (lines : list string) (h : handler) : handler :=
  set_headers_buffer (Some (default [] (_headers_buffer h) ++ lines)) h.

Definition logged (messages : list string) (h : handler) : handler :=
  set_stderr (stderr h ++ messages) h.

Definition wrote (chunks : list string) (h : handler) : handler :=
  set_wfile (wfile h ++ chunks) h.

(** The status line of a reply. *)
Definition status_line (code : Z) (message : string) : string :=
  protocol_version +:+ " " +:+ of_Z code +:+ " " +:+ message +:+ CRLF.

(** The state [parse_request] leaves for a request line of three words
    with a version the server takes. *)
Definition parsed (cmd url version : string) (hs : list (string * string)) (h : handler)
  : handler :=
  set_headers hs
    (set_path (reduce_slashes url)
       (set_command (Some cmd)
          (set_request_version version
             (set_requestline (rstrip is_newline (raw_requestline h))
                (set_close_connection true h))))).

End StateChanges.

(** *** Further requests, replies and examples *)

Section FurtherRequests.
Import PyStr HttpServer SocketServer WasmServer.
Context `{PyLib}.

(** The message and the page of the 501 for a command the handler has no
    method for. *)
Definition unsupported (cmd : string) : string :=
  "Unsupported method (" +:+ repr cmd +:+ ")".

Definition unsupported_page (cmd : string) : string :=
  error_page 501 (unsupported cmd) "Server does not support this operation".

(** The entries [list_directory] shows: each name with [os.path.isdir]
    and [os.path.islink] of its full name. *)
Definition entries_of (d : filesystem) (dir : string) (names : list string)
  : list (string * bool * bool) :=
  (fun name => (name, isdir d (PosixPath.join dir name),
                negb (has_nul (PosixPath.join dir name)) && islink d (PosixPath.join dir name)))
    <$> names.

(** The extension [MimeTypes.guess_type] looks up in the type table for
    a path: what [splitext] splits off, once a suffix of [suffix_map] is
    replaced and the extension of an encoding is taken off, in lower case.
    A [data:] URL has none. *)
Definition extension_looked_up (db : Mimetypes.MimeTypes) (url : string) : option string :=
  let '(scheme, rest) := Mimetypes._splittype url in
  if bool_decide (scheme = Some "data") then None
  else
    let '(base, ext) := PosixPath.splitext rest in
    match Mimetypes.suffix_loop db 2 base ext with
    | None => None
    | Some (base, ext) =>
        match Mimetypes.encodings_map db !! ext with
        | Some _ => Some (lower (PosixPath.splitext base).2)
        | None => Some (lower ext)
        end
    end.

(** The state in which the method of an accepted request starts. *)
Definition request_state (d : filesystem) (raw cmd url version : string)
    (hs : list (string * string)) (more : list arrival) : handler :=
  parsed cmd url version hs
    (set_raw_requestline raw
       (set_pending_headers (HeaderLines hs)
          (set_rfile more
             (set_close_connection true
                (new_handler d {| arrivals := Line raw (HeaderLines hs) :: more;
                                  peer_takes := None |}))))).

End FurtherRequests.

(** The value of a decimal numeral, read digit by digit from [z]. *)
Fixpoint read_uint (d : Decimal.uint) (z : Z) : Z :=
  match d with
  | Decimal.Nil => z
  | Decimal.D0 d' => read_uint d' (z * 10 + 0)
  | Decimal.D1 d' => read_uint d' (z * 10 + 1)
  | Decimal.D2 d' => read_uint d' (z * 10 + 2)
  | Decimal.D3 d' => read_uint d' (z * 10 + 3)
  | Decimal.D4 d' => read_uint d' (z * 10 + 4)
  | Decimal.D5 d' => read_uint d' (z * 10 + 5)
  | Decimal.D6 d' => read_uint d' (z * 10 + 6)
  | Decimal.D7 d' => read_uint d' (z * 10 + 7)
  | Decimal.D8 d' => read_uint d' (z * 10 + 8)
  | Decimal.D9 d' => read_uint d' (z * 10 + 9)
  end.

(** A served directory [/srv/www] without index file, which can be
    listed. *)
Module Assets.

Definition files : filesystem :=
  {| lookup := fun p =>
       if String.eqb p "/srv/www" || String.eqb p "/srv/www/"
       then Some (Dir (Some ["app.wasm"]))
       else if String.eqb p "/srv/www/app.wasm" then Some (File (Some "wasm") 1700000000)
       else None;
     islink := fun _ => false |}.

End Assets.

(** *** Two runs of the handler, side by side *)

(** [m1] and [m2], run from states related by [P], return the same value
    in states related by [Q], or raise the same exception in states related
    by [E]. *)
Definition sim {A : Type} (P Q E : handler -> handler -> Prop) (m1 m2 : M A) : Prop :=
  forall h1 h2, P h1 h2 ->
    match m1 h1, m2 h2 with
    | (Ok a1, h1'), (Ok a2, h2') => a1 = a2 /\ Q h1' h2'
    | (Raise e1, h1'), (Raise e2, h2') => e1 = e2 /\ E h1' h2'
    | _, _ => False
    end.

(** The same handler, whatever is left to read on the connection. *)
Definition same_but_rfile (h1 h2 : handler) : Prop := set_rfile [] h1 = set_rfile [] h2.

(** A method that does not read the connection does the same whatever
    is left to read on it. *)
Definition deaf {A : Type} (m : M A) : Prop :=
  sim same_but_rfile same_but_rfile same_but_rfile m m.

(** A chunk [WASMHandler] writes, beside the chunk the base class writes
    in its place: the same chunk, or the same header block with the two
    cross-origin headers before its blank line. *)
Definition adds_headers (chunk base_chunk : string) : Prop :=
  chunk = base_chunk
  \/ exists lines,
       base_chunk = String.concat EmptyString (lines ++ [HttpServer.CRLF])
       /\ chunk = String.concat EmptyString
                    (lines ++ ["Cross-Origin-Embedder-Policy: require-corp" +:+ HttpServer.CRLF;
                               "Cross-Origin-Opener-Policy: same-origin" +:+ HttpServer.CRLF;
                               HttpServer.CRLF]).

(** The state of a [WASMHandler] beside the state of a handler of the base
    class that has seen the same: they differ in the chunks written only.
    With [buffered_lines], the header buffer exists unless the reply is in the
    style of HTTP/0.9. *)
Definition beside (buffered_lines : bool) (h1 h2 : handler) : Prop :=
  set_wfile [] h1 = set_wfile [] h2
  /\ Forall2 adds_headers (wfile h1) (wfile h2)
  /\ (buffered_lines = true ->
      request_version h1 = "HTTP/0.9" \/ is_Some (_headers_buffer h1)).

(** The same once an exception is on its way: the header buffer may
    differ as well. *)
Definition beside_raised (h1 h2 : handler) : Prop :=
  set_headers_buffer None (set_wfile [] h1) = set_headers_buffer None (set_wfile [] h2)
  /\ Forall2 adds_headers (wfile h1) (wfile h2).

(** What the base class does with a connection. *)
Definition base_serve `{PyLib} (w : World) (d : filesystem) (c : SocketServer.connection)
  : result unit * handler :=
  HttpServer.handle (cls := WasmServer.SimpleHTTPRequestHandler) w (WasmServer.mimetypes_db w)
    (SocketServer.new_handler d c).

Section Alike.
Import HttpServer WasmServer.

(** A method of [WASMHandler] beside the same method of the base class. *)
Definition alike {A : Type} (m : HandlerClass -> M A) : Prop :=
  sim (beside false) (beside false) beside_raised
    (m WASMHandler) (m SimpleHTTPRequestHandler).

End Alike.

(** * Properties *)

Example int_examples :
  PyInt.int 4300 " 8000 " = Ok 8000 /\ PyInt.int 4300 "+8000" = Ok 8000 /\
  PyInt.int 4300 "8_000" = Ok 8000 /\ PyInt.int 4300 "-1" = Ok (-1) /\
  PyInt.int 4300 "8__0" = Raise ValueError /\ PyInt.int 4300 "+ 8" = Raise ValueError /\
  PyInt.int 4300 "" = Raise ValueError /\ PyInt.int 4300 "_8" = Raise ValueError /\
  PyInt.int 4300 "00012" = Ok 12 /\ PyInt.int 4300 "1 2" = Raise ValueError.
Proof. repeat split; reflexivity. Qed.

Example splitext_examples :
  PosixPath.splitext "/a/b.wasm" = ("/a/b", ".wasm") /\
  PosixPath.splitext "/a/.wasm" = ("/a/.wasm", "") /\
  PosixPath.splitext "/a/..wasm" = ("/a/..wasm", "") /\
  PosixPath.splitext "/a.b/c" = ("/a.b/c", "") /\
  PosixPath.splitext "/a/b." = ("/a/b", ".") /\
  PosixPath.splitext "/a/...x.wasm" = ("/a/...x", ".wasm") /\
  PosixPath.splitext "/a/b..wasm" = ("/a/b.", ".wasm").
Proof. repeat split; reflexivity. Qed.

Example normpath_examples :
  PosixPath.normpath "" = "." /\ PosixPath.normpath "//" = "//" /\
  PosixPath.normpath "///" = "/" /\ PosixPath.normpath "/a/../.." = "/" /\
  PosixPath.normpath "a/.." = "." /\ PosixPath.normpath "../a" = "../a" /\
  PosixPath.normpath "/../a" = "/a" /\ PosixPath.normpath "a//b/./c/" = "a/b/c" /\
  PosixPath.normpath "/a/b/../../../c" = "/c".
Proof. repeat split; reflexivity. Qed.

Example monad_example (h : handler) :
  (x ← get close_connection; modify (set_close_connection (negb x));; ret x) h
  = (Ok (close_connection h), set_close_connection (negb (close_connection h)) h).
Proof. reflexivity. Qed.

(** ** Strings *)

#[local] Arguments String.append !s1 s2 : simpl nomatch.

Section StringFacts.

Lemma sapp_nil_r (s : string) : s +:+ EmptyString = s.
Proof. induction s as [|c s IH]; simpl; [reflexivity | now rewrite IH]. Qed.

Lemma sapp_assoc (a b c : string) : (a +:+ b) +:+ c = a +:+ b +:+ c.
Proof. induction a as [|x a IH]; simpl; [reflexivity | now rewrite IH]. Qed.

Lemma sapp_cons (c : ascii) (a b : string) : String c a +:+ b = String c (a +:+ b).
Proof. reflexivity. Qed.

Lemma slength_app (a b : string) :
  String.length (a +:+ b) = (String.length a + String.length b)%nat.
Proof. induction a as [|x a IH]; simpl; [reflexivity | now rewrite IH]. Qed.

Lemma sapp_eq_nil (a b : string) : a +:+ b = EmptyString -> a = EmptyString /\ b = EmptyString.
Proof. destruct a; simpl; [tauto | discriminate]. Qed.

End StringFacts.

Lemma eqb_code (c d : ascii) : Ascii.eqb c d = (PyStr.code c =? PyStr.code d).
Proof.
  unfold PyStr.code. destruct (Ascii.eqb_spec c d) as [->|Hne].
  - symmetry. apply Z.eqb_refl.
  - symmetry. apply Z.eqb_neq. intros Heq. apply Hne.
    apply N2Z.inj in Heq. rewrite <- (ascii_N_embedding c), <- (ascii_N_embedding d).
    now rewrite Heq.
Qed.

(** Facts on single characters, by the ranges of their codes. *)
Ltac eval_codes :=
  repeat match goal with
         | |- context [PyStr.code (Ascii ?b0 ?b1 ?b2 ?b3 ?b4 ?b5 ?b6 ?b7)] =>
             let v := eval vm_compute in (PyStr.code (Ascii b0 b1 b2 b3 b4 b5 b6 b7)) in
             change (PyStr.code (Ascii b0 b1 b2 b3 b4 b5 b6 b7)) with v
         | H : context [PyStr.code (Ascii ?b0 ?b1 ?b2 ?b3 ?b4 ?b5 ?b6 ?b7)] |- _ =>
             let v := eval vm_compute in (PyStr.code (Ascii b0 b1 b2 b3 b4 b5 b6 b7)) in
             change (PyStr.code (Ascii b0 b1 b2 b3 b4 b5 b6 b7)) with v in H
         end.

Ltac char_ranges :=
  unfold PyInt.Py_ISSPACE, PyInt.digit_value in *;
  rewrite ?eqb_code in *; eval_codes;
  repeat match goal with
         | H : context [if ?test then _ else _] |- _ => destruct test eqn:?
         | |- context [if ?test then _ else _] => destruct test eqn:?
         end;
  simpl in *; try discriminate; try reflexivity; try lia; try congruence.

(** ** [int]: the parser and the grammar of integer literals *)

Section IntFacts.
Import PyInt CLiteral.

Lemma all_chars_app p a b : all_chars p (a +:+ b) = all_chars p a && all_chars p b.
Proof. induction a as [|c a IH]; simpl; [reflexivity|]. rewrite IH. now rewrite andb_assoc. Qed.

Lemma all_chars_impl (p q : ascii -> bool) s :
  (forall c, p c = true -> q c = true) -> all_chars p s = true -> all_chars q s = true.
Proof.
  intros Hpq. induction s as [|c s IH]; simpl; [reflexivity|].
  intros [Hc Hs]%andb_true_iff. rewrite (Hpq _ Hc), (IH Hs). reflexivity.
Qed.

Lemma skip_spaces_split t :
  exists sp, t = sp +:+ skip_spaces t /\ all_chars Py_ISSPACE sp = true.
Proof.
  induction t as [|c t [sp [Ht Hsp]]]; simpl.
  - exists EmptyString. split; reflexivity.
  - destruct (Py_ISSPACE c) eqn:Hc.
    + exists (String c sp). simpl. rewrite Hc, Hsp, <- Ht. split; reflexivity.
    + exists EmptyString. split; reflexivity.
Qed.

Lemma skip_spaces_all t : all_chars Py_ISSPACE t = true -> skip_spaces t = EmptyString.
Proof.
  induction t as [|c t IH]; simpl; [reflexivity|].
  intros [Hc Ht]%andb_true_iff. rewrite Hc. auto.
Qed.

Lemma skip_spaces_nil t : skip_spaces t = EmptyString -> all_chars Py_ISSPACE t = true.
Proof.
  induction t as [|c t IH]; simpl; [reflexivity|].
  destruct (Py_ISSPACE c); [auto | discriminate].
Qed.

Lemma skip_spaces_app sp t :
  all_chars Py_ISSPACE sp = true -> skip_spaces (sp +:+ t) = skip_spaces t.
Proof.
  induction sp as [|c sp IH]; simpl; [reflexivity|].
  intros [Hc Hsp]%andb_true_iff. rewrite Hc. auto.
Qed.

Lemma digit_not_ISSPACE c d : digit_value c = Some d -> Py_ISSPACE c = false.
Proof. intros Hd. char_ranges. Qed.

Lemma digit_not_underscore c d : digit_value c = Some d -> Ascii.eqb c "_" = false.
Proof. intros Hd. char_ranges. Qed.

Lemma scan_app s z n :
  digit_string s z n -> forall t, scan_digits false 0 0 (s +:+ t) = scan_digits false z n t.
Proof.
  induction 1 as [c d Hd | s z n c d Hs IH Hd | s z n c d Hs IH Hd]; intros t.
  - simpl. rewrite Hd. reflexivity.
  - rewrite sapp_assoc, IH. simpl. rewrite Hd. reflexivity.
  - rewrite sapp_assoc, IH. simpl. rewrite Hd. reflexivity.
Qed.

Lemma scan_end z n t :
  match t with
  | EmptyString => True
  | String c _ => digit_value c = None /\ Ascii.eqb c "_" = false
  end ->
  scan_digits false z n t = Some (z, n, t).
Proof. destruct t as [|c t]; simpl; [reflexivity|]. intros [-> ->]. reflexivity. Qed.

Lemma scan_sound s :
  forall prev z0 n0 pre z n rest,
    scan_digits prev z0 n0 s = Some (z, n, rest) ->
    (if prev : bool then exists p, pre = p +:+ "_" /\ digit_string p z0 n0
     else digit_string pre z0 n0) ->
    exists body, pre +:+ s = body +:+ rest /\ digit_string body z n.
Proof.
  induction s as [|c s IH]; intros prev z0 n0 pre z n rest Hscan Hpre; simpl in Hscan.
  - destruct prev; [discriminate|]. injection Hscan as <- <- <-. eauto.
  - destruct (digit_value c) as [d|] eqn:Hd.
    + apply (IH _ _ _ (pre +:+ String c EmptyString)) in Hscan.
      * destruct Hscan as [body [Heq Hbody]]. exists body. split; [|exact Hbody].
        rewrite <- Heq, sapp_assoc. reflexivity.
      * destruct prev.
        -- destruct Hpre as [p [-> Hp]]. rewrite sapp_assoc. simpl.
           apply ds_underscore; assumption.
        -- apply ds_digit; assumption.
    + destruct (Ascii.eqb_spec c "_") as [->|Hc].
      * destruct prev; [discriminate|].
        apply (IH _ _ _ (pre +:+ "_")) in Hscan.
        -- destruct Hscan as [body [Heq Hbody]]. exists body. split; [|exact Hbody].
           rewrite <- Heq, sapp_assoc. reflexivity.
        -- eauto.
      * destruct prev; [discriminate|]. injection Hscan as <- <- <-. eauto.
Qed.

Lemma prefix_underscore c t :
  PyStr.startswith (String c t) "_" = Ascii.eqb c "_".
Proof. simpl. apply andb_true_r. Qed.

Lemma digit_string_pos s z n : digit_string s z n -> (0 < n)%nat.
Proof. induction 1; lia. Qed.

Lemma digit_string_head s z n :
  digit_string s z n -> exists c d t, s = String c t /\ digit_value c = Some d.
Proof.
  induction 1 as [c d Hd | s z n c d Hs [c0 [d0 [t0 [-> H0]]]] Hd
                 | s z n c d Hs [c0 [d0 [t0 [-> H0]]]] Hd]; simpl; eauto.
Qed.

(** The parser accepts what the grammar (over the white space of the C
    locale) derives. *)
Lemma PyLong_FromString_complete lim t z n :
  literal t z n -> over_limit lim n = false ->
  PyLong_FromString lim t = Some z.
Proof.
  intros Hlit Hlim. destruct Hlit as [ws1 sg sigma body z n ws2 Hws1 Hsg Hbody Hws2].
  destruct (digit_string_head _ _ _ Hbody) as [c [d [t [-> Hd]]]].
  pose proof (digit_not_ISSPACE _ _ Hd) as Hsp.
  pose proof (digit_not_underscore _ _ Hd) as Hus.
  assert (Hscan : forall sign,
    (if PyStr.startswith (String c t +:+ ws2) "_" then None
     else match scan_digits false 0 0 (String c t +:+ ws2) with
          | None => None
          | Some (z0, digits, rest) =>
              if over_limit lim digits then None
              else if (digits =? 0)%nat then None
              else if PyStr.is_empty (skip_spaces rest) then Some (sign * z0) else None
          end) = Some (sign * z)).
  { intros sign. simpl String.append at 1. rewrite prefix_underscore, Hus.
    rewrite (scan_app _ _ _ Hbody), scan_end.
    - rewrite Hlim. pose proof (digit_string_pos _ _ _ Hbody).
      destruct n; [lia|]. simpl. rewrite (skip_spaces_all _ Hws2). reflexivity.
    - destruct ws2 as [|c2 ws2]; [exact I|]. simpl in Hws2.
      apply andb_true_iff in Hws2 as [Hc2 _]. clear - Hc2. split; char_ranges. }
  unfold PyLong_FromString. rewrite (skip_spaces_app _ _ Hws1).
  destruct Hsg; simpl String.append.
  - simpl skip_spaces. rewrite Hsp.
    assert (Ascii.eqb c "+" = false) as -> by (clear - Hd; char_ranges).
    assert (Ascii.eqb c "-" = false) as -> by (clear - Hd; char_ranges).
    apply Hscan.
  - simpl skip_spaces. simpl Ascii.eqb. apply Hscan.
  - simpl skip_spaces. simpl Ascii.eqb. apply Hscan.
Qed.

(** What the parser accepts, the grammar derives. *)
Lemma PyLong_FromString_sound lim t v :
  PyLong_FromString lim t = Some v ->
  exists n, literal t v n /\ over_limit lim n = false.
Proof.
  unfold PyLong_FromString. intros Hparse.
  destruct (skip_spaces_split t) as [ws1 [Ht Hws1]].
  set (t1 := skip_spaces t) in *. clearbody t1.
  assert (Hcore : forall sg sigma t2, sign sg sigma -> t1 = sg +:+ t2 ->
    (if PyStr.startswith t2 "_" then None
     else match scan_digits false 0 0 t2 with
          | None => None
          | Some (z0, digits, rest) =>
              if over_limit lim digits then None
              else if (digits =? 0)%nat then None
              else if PyStr.is_empty (skip_spaces rest) then Some (sigma * z0) else None
          end) = Some v ->
    exists n, literal t v n /\ over_limit lim n = false).
  { intros sg sigma t2 Hsg Ht1 H.
    destruct t2 as [|c t2].
    { simpl in H. destruct (over_limit lim 0); discriminate. }
    rewrite prefix_underscore in H.
    destruct (Ascii.eqb c "_") eqn:Hus; [discriminate|].
    simpl in H. rewrite Hus in H.
    destruct (digit_value c) as [d|] eqn:Hd.
    - destruct (scan_digits false (0 * 10 + d) 1 t2) as [[[z0 digits] rest]|] eqn:Hscan;
        [|discriminate].
      apply (scan_sound _ _ _ _ (String c EmptyString)) in Hscan; [|apply (ds_one c); exact Hd].
      destruct Hscan as [body [Heq Hbody]]. simpl in Heq.
      destruct (over_limit lim digits) eqn:Hlim; [discriminate|].
      destruct (digits =? 0)%nat; [discriminate|].
      destruct (skip_spaces rest) eqn:Hrest; [|discriminate].
      injection H as <-. exists digits. split; [|exact Hlim].
      rewrite Ht, Ht1, Heq. apply skip_spaces_nil in Hrest.
      replace (0 * 10 + d) with d in Hbody by lia.
      constructor; assumption.
    - destruct (over_limit lim 0); discriminate. }
  destruct t1 as [|c t1'].
  - apply (Hcore EmptyString 1 EmptyString); [constructor | reflexivity | exact Hparse].
  - destruct (Ascii.eqb_spec c "+") as [->|Hplus].
    + apply (Hcore "+" 1 t1'); [constructor | reflexivity | exact Hparse].
    + destruct (Ascii.eqb_spec c "-") as [->|Hminus].
      * apply (Hcore "-" (-1) t1'); [constructor | reflexivity | exact Hparse].
      * apply (Hcore EmptyString 1 (String c t1')); [constructor | reflexivity | exact Hparse].
Qed.

(** *** The transformation to ASCII *)

Lemma code_ascii_of_N ch : (ch < 256)%N -> PyStr.code (ascii_of_N ch) = Z.of_N ch.
Proof. intros Hch. unfold PyStr.code. now rewrite N_ascii_embedding. Qed.

Lemma code_chr z : 0 <= z < 256 -> PyStr.code (PyStr.chr z) = z.
Proof. intros Hz. unfold PyStr.chr. rewrite code_ascii_of_N; lia. Qed.

Lemma ascii_of_code c ch : (ch < 256)%N -> ascii_of_N ch = c -> ch = Unicode.ord c.
Proof. intros Hch <-. unfold Unicode.ord. now rewrite N_ascii_embedding. Qed.

Lemma find_head {A} (f : A -> bool) (x : A) (l : list A) :
  f x = true -> List.find f (x :: l) = Some x.
Proof. simpl. now intros ->. Qed.

(** The table of the decimal digits. *)
Lemma todecimal_spec ch d :
  Unicode.todecimal ch = Some d ->
  exists zero, In zero Unicode.decimal_zeros /\ (zero <= ch < zero + 10)%N
               /\ d = Z.of_N (ch - zero).
Proof.
  unfold Unicode.todecimal. intros Hd. apply fmap_Some in Hd as [zero [Hfind ->]].
  apply find_some in Hfind as [Hin Hrun]. exists zero. repeat split; [exact Hin | lia | lia].
Qed.

Lemma todecimal_range ch d : Unicode.todecimal ch = Some d -> 0 <= d <= 9.
Proof. intros (zero & _ & Hrun & ->)%todecimal_spec. lia. Qed.

Lemma decimal_zeros_wide zero :
  In zero Unicode.decimal_zeros -> zero = 48%N \/ (127 <= zero)%N.
Proof.
  assert (Hall : forallb (fun zero => (zero =? 48) || (127 <=? zero))%N Unicode.decimal_zeros
                 = true) by reflexivity.
  intros Hin. pose proof (proj1 (forallb_forall _ _) Hall zero Hin) as Hzero.
  cbv beta in Hzero. lia.
Qed.

Lemma todecimal_low ch d :
  (ch < 127)%N -> Unicode.todecimal ch = Some d -> (48 <= ch <= 57)%N /\ d = Z.of_N ch - 48.
Proof.
  intros Hlow (zero & Hin & Hrun & ->)%todecimal_spec.
  destruct (decimal_zeros_wide _ Hin) as [-> | Hwide]; lia.
Qed.

Lemma todecimal_ascii_digit ch :
  (48 <= ch <= 57)%N -> Unicode.todecimal ch = Some (Z.of_N ch - 48).
Proof.
  intros Hch. unfold Unicode.todecimal.
  change Unicode.decimal_zeros with (48%N :: List.tl Unicode.decimal_zeros).
  rewrite find_head by (cbv beta; lia). cbn [fmap option_fmap option_map]. f_equal. lia.
Qed.

(** No decimal digit is white space. *)
Lemma decimal_not_space ch d : Unicode.todecimal ch = Some d -> Unicode.isspace ch = false.
Proof.
  assert (Hall : forallb (fun zero =>
                    forallb (fun k => negb (Unicode.isspace (zero + k)))
                            [0; 1; 2; 3; 4; 5; 6; 7; 8; 9]%N)
                   Unicode.decimal_zeros = true) by reflexivity.
  intros (zero & Hin & Hrun & _)%todecimal_spec.
  pose proof (proj1 (forallb_forall _ _) Hall zero Hin) as Hzero. cbv beta in Hzero.
  rewrite forallb_forall in Hzero. specialize (Hzero (ch - zero)%N).
  replace (zero + (ch - zero))%N with ch in Hzero by lia.
  apply negb_true_iff, Hzero. cbn [In].
  assert (Hk : (ch - zero < 10)%N) by lia. revert Hk. generalize (ch - zero)%N. intros k Hk.
  destruct k as [|p]; [now left|].
  do 9 (destruct p as [p|p|]; try lia; cbn; auto 12).
Qed.

(** What [to_ascii] makes of the characters of a literal, and back. *)
Lemma space_char ch :
  IntLiteralSpec.is_space ch = true -> good ch = true /\ Py_ISSPACE (to_ascii ch) = true.
Proof.
  unfold IntLiteralSpec.is_space, good, to_ascii. intros [Hsp Hsep]%andb_true_iff.
  rewrite Hsp, orb_true_r. split; [reflexivity|].
  destruct (N.ltb_spec ch 127) as [Hlow|Hwide]; [|reflexivity].
  unfold Py_ISSPACE. rewrite code_ascii_of_N by lia. unfold Unicode.isspace in Hsp. lia.
Qed.

Lemma space_char_inv ch :
  good ch = true -> Py_ISSPACE (to_ascii ch) = true -> IntLiteralSpec.is_space ch = true.
Proof.
  unfold IntLiteralSpec.is_space, good, to_ascii. intros Hgood.
  destruct (N.ltb_spec ch 127) as [Hlow|Hwide].
  - unfold Py_ISSPACE. rewrite code_ascii_of_N by lia. unfold Unicode.isspace. lia.
  - destruct (Unicode.isspace ch) eqn:Hsp.
    + intros _. cbn. lia.
    + cbn in Hgood. apply bool_decide_eq_true in Hgood as [d Hd]. rewrite Hd. cbn.
      pose proof (todecimal_range _ _ Hd). unfold Py_ISSPACE. rewrite code_chr by lia. lia.
Qed.

Lemma digit_char ch d :
  Unicode.todecimal ch = Some d -> good ch = true /\ digit_value (to_ascii ch) = Some d.
Proof.
  intros Hd. unfold good, to_ascii. rewrite Hd, (decimal_not_space _ _ Hd).
  cbn [bool_decide default from_option id].
  split; [rewrite bool_decide_eq_true_2 by eauto; apply orb_true_r|].
  unfold digit_value. destruct (N.ltb_spec ch 127) as [Hlow|Hwide].
  - destruct (todecimal_low _ _ Hlow Hd) as [Hrange ->]. rewrite code_ascii_of_N by lia.
    replace ((48 <=? Z.of_N ch) && (Z.of_N ch <=? 57)) with true by lia. reflexivity.
  - pose proof (todecimal_range _ _ Hd). rewrite code_chr by lia.
    replace ((48 <=? 48 + d) && (48 + d <=? 57)) with true by lia. f_equal. lia.
Qed.

Lemma digit_char_inv ch d :
  good ch = true -> digit_value (to_ascii ch) = Some d -> Unicode.todecimal ch = Some d.
Proof.
  unfold good, to_ascii, digit_value. intros Hgood.
  destruct (N.ltb_spec ch 127) as [Hlow|Hwide].
  - rewrite code_ascii_of_N by lia.
    destruct ((48 <=? Z.of_N ch) && (Z.of_N ch <=? 57)) eqn:Hrange; [|discriminate].
    intros [= <-]. apply todecimal_ascii_digit. lia.
  - destruct (Unicode.isspace ch); [discriminate|].
    cbn in Hgood. apply bool_decide_eq_true in Hgood as [d' Hd']. rewrite Hd'. cbn.
    pose proof (todecimal_range _ _ Hd'). rewrite code_chr by lia.
    replace ((48 <=? 48 + d') && (48 + d' <=? 57)) with true by lia.
    intros [= <-]. f_equal. lia.
Qed.

(** A sign or an underscore comes from itself alone. *)
Lemma plain_char_inv ch c :
  good ch = true -> to_ascii ch = c ->
  Py_ISSPACE c = false -> digit_value c = None -> ch = Unicode.ord c.
Proof.
  unfold good, to_ascii. intros Hgood Hc Hsp Hdigit.
  destruct (N.ltb_spec ch 127) as [Hlow|Hwide].
  - apply ascii_of_code; [lia | exact Hc].
  - destruct (Unicode.isspace ch); [now subst c|].
    cbn in Hgood. apply bool_decide_eq_true in Hgood as [d Hd]. rewrite Hd in Hc. cbn in Hc.
    pose proof (todecimal_range _ _ Hd). subst c. unfold digit_value in Hdigit.
    rewrite code_chr in Hdigit by lia.
    replace ((48 <=? 48 + d) && (48 + d <=? 57)) with true in Hdigit by lia. discriminate.
Qed.

Lemma plain_char c :
  (Unicode.ord c < 127)%N -> good (Unicode.ord c) = true /\ to_ascii (Unicode.ord c) = c.
Proof.
  intros Hlow. unfold good, to_ascii. replace (Unicode.ord c <? 127)%N with true by lia.
  split; [reflexivity|]. apply ascii_N_embedding.
Qed.

Lemma transform_good s : forallb good s = true -> transform s = map_chars to_ascii s.
Proof.
  induction s as [|ch s IH]; [reflexivity|]. cbn [forallb transform map_chars].
  intros [Hch Hs]%andb_true_iff. rewrite (IH Hs). unfold good in Hch. unfold to_ascii.
  destruct (ch <? 127)%N; [reflexivity|]. destruct (Unicode.isspace ch); [reflexivity|].
  cbn in Hch. apply bool_decide_eq_true in Hch as [d ->]. reflexivity.
Qed.

Lemma transform_bad s : forallb good s = false -> exists x, transform s = x +:+ "?".
Proof.
  induction s as [|ch s IH]; [discriminate|]. cbn [forallb transform]. unfold good at 1.
  destruct (ch <? 127)%N; cbn [orb andb].
  - intros [x ->]%IH. now exists (String (ascii_of_N ch) x).
  - destruct (Unicode.isspace ch); cbn [orb andb].
    + intros [x ->]%IH. now exists (String " " x).
    + destruct (Unicode.todecimal ch) as [d|] eqn:Hd.
      * rewrite bool_decide_eq_true_2 by eauto. cbn [andb]. intros [x ->]%IH.
        now exists (String (PyStr.chr (48 + d)) x).
      * intros _. now exists EmptyString.
Qed.

Lemma map_chars_app f a b : map_chars f (a ++ b) = map_chars f a +:+ map_chars f b.
Proof. induction a as [|c a IH]; simpl; [reflexivity | now rewrite IH]. Qed.

Lemma map_chars_app_inv f s : forall a b,
  map_chars f s = a +:+ b ->
  exists s1 s2, s = s1 ++ s2 /\ map_chars f s1 = a /\ map_chars f s2 = b.
Proof.
  induction s as [|c s IH]; intros a b Heq.
  - simpl in Heq. symmetry in Heq. apply sapp_eq_nil in Heq as [-> ->].
    exists [], []. repeat split.
  - destruct a as [|x a].
    + exists [], (c :: s). repeat split. exact Heq.
    + simpl in Heq. injection Heq as Hx Heq.
      destruct (IH _ _ Heq) as [s1 [s2 [-> [<- <-]]]].
      exists (c :: s1), s2. simpl. rewrite Hx. repeat split.
Qed.

Lemma map_chars_one f s c : map_chars f s = String c EmptyString -> exists ch, s = [ch] /\ f ch = c.
Proof.
  destruct s as [|ch [|ch' s]]; simpl; try discriminate. intros [= <-]. now exists ch.
Qed.

Lemma forallb_good_app a b : forallb good (a ++ b) = forallb good a && forallb good b.
Proof. apply forallb_app. Qed.

Lemma digit_string_chars s z n :
  digit_string s z n ->
  all_chars (fun c => bool_decide (is_Some (digit_value c)) || Ascii.eqb c "_") s = true.
Proof.
  induction 1 as [c d Hd | s z n c d Hs IH Hd | s z n c d Hs IH Hd];
    rewrite ?all_chars_app, ?IH; simpl; rewrite Hd; reflexivity.
Qed.

Lemma sign_chars sg sigma :
  sign sg sigma -> all_chars (fun c => Ascii.eqb c "+" || Ascii.eqb c "-") sg = true.
Proof. destruct 1; reflexivity. Qed.

Lemma literal_chars t z n : literal t z n -> all_chars literal_char t = true.
Proof.
  destruct 1 as [ws1 sg sigma body z n ws2 Hws1 Hsg Hbody Hws2].
  rewrite !all_chars_app. repeat (apply andb_true_iff; split).
  - revert Hws1. apply all_chars_impl. intros c Hc. unfold literal_char. now rewrite Hc.
  - generalize (sign_chars _ _ Hsg). apply all_chars_impl. intros c Hc. unfold literal_char.
    apply orb_true_iff in Hc as [-> | ->]; rewrite ?orb_true_r; reflexivity.
  - generalize (digit_string_chars _ _ _ Hbody). apply all_chars_impl. intros c Hc.
    unfold literal_char. apply orb_true_iff in Hc as [-> | ->]; rewrite ?orb_true_r; reflexivity.
  - revert Hws2. apply all_chars_impl. intros c Hc. unfold literal_char. now rewrite Hc.
Qed.

Lemma space_image s :
  forallb IntLiteralSpec.is_space s = true ->
  forallb good s = true /\ all_chars Py_ISSPACE (map_chars to_ascii s) = true.
Proof.
  induction s as [|ch s IH]; simpl; [split; reflexivity|].
  intros [Hch Hs]%andb_true_iff. destruct (IH Hs) as [-> ->].
  destruct (space_char _ Hch) as [-> ->]. split; reflexivity.
Qed.

Lemma space_preimage s :
  forallb good s = true -> all_chars Py_ISSPACE (map_chars to_ascii s) = true ->
  forallb IntLiteralSpec.is_space s = true.
Proof.
  induction s as [|ch s IH]; simpl; [reflexivity|].
  intros [Hch Hs]%andb_true_iff [Hch' Hs']%andb_true_iff.
  now rewrite (IH Hs Hs'), (space_char_inv _ Hch Hch').
Qed.

Lemma sign_image sg sigma :
  IntLiteralSpec.sign sg sigma ->
  forallb good sg = true /\ sign (map_chars to_ascii sg) sigma.
Proof. destruct 1; (split; [reflexivity | constructor]). Qed.

Lemma sign_preimage sg t sigma :
  forallb good sg = true -> map_chars to_ascii sg = t -> sign t sigma ->
  IntLiteralSpec.sign sg sigma.
Proof.
  intros Hgood Hmap Hsign. destruct Hsign.
  - destruct sg; [constructor | discriminate].
  - apply map_chars_one in Hmap as [ch [-> Hch]]. cbn in Hgood. rewrite andb_true_r in Hgood.
    rewrite (plain_char_inv ch "+" Hgood Hch eq_refl eq_refl). constructor.
  - apply map_chars_one in Hmap as [ch [-> Hch]]. cbn in Hgood. rewrite andb_true_r in Hgood.
    rewrite (plain_char_inv ch "-" Hgood Hch eq_refl eq_refl). constructor.
Qed.

Lemma digit_string_image s z n :
  IntLiteralSpec.digit_string s z n ->
  forallb good s = true /\ digit_string (map_chars to_ascii s) z n.
Proof.
  induction 1 as [ch d Hd | s z n ch d Hs [Hgood IH] Hd | s z n ch d Hs [Hgood IH] Hd].
  - destruct (digit_char _ _ Hd) as [Hg Hv]. cbn. rewrite Hg. split; [reflexivity|].
    now constructor.
  - destruct (digit_char _ _ Hd) as [Hg Hv]. rewrite forallb_good_app, map_chars_app, Hgood.
    cbn. rewrite Hg. split; [reflexivity|]. now apply ds_digit.
  - destruct (digit_char _ _ Hd) as [Hg Hv]. rewrite forallb_good_app, map_chars_app, Hgood.
    destruct (plain_char "_" eq_refl) as [Hgu Hu].
    cbn [forallb map_chars andb]. rewrite Hg, Hgu, Hu. split; [reflexivity|].
    now apply ds_underscore.
Qed.

Lemma digit_string_preimage t z n :
  digit_string t z n ->
  forall s, forallb good s = true -> map_chars to_ascii s = t ->
            IntLiteralSpec.digit_string s z n.
Proof.
  induction 1 as [c d Hd | t z n c d Ht IH Hd | t z n c d Ht IH Hd]; intros s Hgood Hmap.
  - apply map_chars_one in Hmap as [ch [-> Hch]]. cbn in Hgood. rewrite andb_true_r in Hgood.
    subst c. constructor. now apply digit_char_inv.
  - apply map_chars_app_inv in Hmap as [s1 [s2 [-> [H1 H2]]]].
    apply map_chars_one in H2 as [ch [-> Hch]].
    rewrite forallb_good_app in Hgood. apply andb_true_iff in Hgood as [G1 G2].
    cbn in G2. rewrite andb_true_r in G2. subst c.
    apply IntLiteralSpec.ds_digit; [now apply IH | now apply digit_char_inv].
  - apply map_chars_app_inv in Hmap as [s1 [s2 [-> [H1 H2]]]].
    destruct s2 as [|u [|ch [|ch' s2]]]; try discriminate. injection H2 as Hu Hch.
    rewrite forallb_good_app in Hgood. apply andb_true_iff in Hgood as [G1 G2].
    cbn in G2. rewrite andb_true_r in G2. apply andb_true_iff in G2 as [Gu Gch].
    rewrite (plain_char_inv u "_" Gu Hu eq_refl eq_refl). subst c.
    apply IntLiteralSpec.ds_underscore; [now apply IH | now apply digit_char_inv].
Qed.

(** The grammar of the specification is the grammar of the parser after
    the transformation. *)
Lemma literal_transform s z n :
  IntLiteralSpec.int_literal s z n <-> literal (transform s) z n.
Proof.
  split.
  - destruct 1 as [ws1 sg sigma body z n ws2 Hws1 Hsg Hbody Hws2].
    destruct (space_image _ Hws1) as [G1 I1]. destruct (space_image _ Hws2) as [G4 I4].
    destruct (sign_image _ _ Hsg) as [G2 I2].
    destruct (digit_string_image _ _ _ Hbody) as [G3 I3].
    rewrite transform_good by (rewrite !forallb_good_app, G1, G2, G3, G4; reflexivity).
    rewrite !map_chars_app. constructor; assumption.
  - intros Hlit. pose proof (literal_chars _ _ _ Hlit) as Hchars.
    destruct (forallb good s) eqn:Hgood.
    + rewrite (transform_good _ Hgood) in Hlit.
      remember (map_chars to_ascii s) as t eqn:Ht.
      destruct Hlit as [ws1 sg sigma body z n ws2 Hws1 Hsg Hbody Hws2].
      symmetry in Ht.
      apply map_chars_app_inv in Ht as [s1 [r1 [-> [E1 Ht]]]].
      apply map_chars_app_inv in Ht as [s2 [r2 [-> [E2 Ht]]]].
      apply map_chars_app_inv in Ht as [s3 [s4 [-> [E3 E4]]]].
      rewrite !forallb_good_app in Hgood.
      apply andb_true_iff in Hgood as [G1 Hgood].
      apply andb_true_iff in Hgood as [G2 Hgood].
      apply andb_true_iff in Hgood as [G3 G4].
      subst ws1 ws2. constructor.
      * now apply space_preimage.
      * now apply (sign_preimage _ _ _ G2 E2).
      * now apply (digit_string_preimage _ _ _ Hbody).
      * now apply space_preimage.
    + destruct (transform_bad _ Hgood) as [x Hx]. rewrite Hx, all_chars_app in Hchars.
      apply andb_true_iff in Hchars as [_ Hq]. discriminate.
Qed.

(** [int] accepts exactly the literals of the grammar whose number of
    digits is within the limit, and returns their value. *)
Lemma int_spec lim s z :
  PyInt.int lim s = Ok z
  <-> exists n, IntLiteralSpec.int_literal s z n /\ over_limit lim n = false.
Proof.
  unfold PyInt.int. split.
  - destruct (PyLong_FromString lim (transform s)) as [v|] eqn:Hparse; [|discriminate].
    intros [= <-]. apply PyLong_FromString_sound in Hparse as [n [Hlit Hlim]].
    exists n. split; [apply literal_transform; exact Hlit | exact Hlim].
  - intros [n [Hlit Hlim]]. apply literal_transform in Hlit.
    rewrite (PyLong_FromString_complete _ _ _ _ Hlit Hlim). reflexivity.
Qed.

Lemma int_raises lim s :
  PyInt.int lim s = Raise ValueError \/ exists z, PyInt.int lim s = Ok z.
Proof. unfold PyInt.int. destruct (PyLong_FromString lim (transform s)); eauto. Qed.

(** A text of ASCII characters is handed to the parser as it is. *)
Lemma transform_ascii (s : string) :
  all_chars (fun c => PyStr.code c <? 127) s = true -> transform s = s.
Proof.
  induction s as [|c s IH]; [reflexivity|]. cbn [all_chars]. intros [Hc Hs]%andb_true_iff.
  change (transform (String c s : Unicode.str))
    with (transform (Unicode.ord c :: Unicode.latin1 s)).
  cbn [transform]. unfold PyStr.code in Hc.
  replace (Unicode.ord c <? 127)%N with true by (unfold Unicode.ord; lia).
  unfold Unicode.ord. now rewrite ascii_N_embedding, (IH Hs).
Qed.

End IntFacts.

(** ** The start of the program *)

Section Startup.
Import PyStr SocketServer WasmServer.
Context `{PyLib}.

Lemma main_serving w argv events port httpd :
  port_of_argv w argv = Ok port -> TCPServer w port = Ok httpd -> stdout_ok w = true ->
  main w argv events = outcome port (serve_forever (WASMHandler_handle w) events httpd).
Proof. intros Hport Hsrv Hout. unfold main. rewrite Hport, Hsrv, Hout. reflexivity. Qed.

Lemma main_failure w argv events e :
  startup_failure w argv e -> main w argv events = uncaught w e.
Proof.
  unfold main. destruct 1 as [e Hport | port e Hport Hsrv | port httpd Hport Hsrv Hout];
    rewrite Hport; [reflexivity | rewrite Hsrv; reflexivity | rewrite Hsrv, Hout; reflexivity].
Qed.

(** Each run either fails at its start or comes to serve. *)
Lemma main_cases w argv :
  (exists e, startup_failure w argv e)
  \/ exists port httpd,
       port_of_argv w argv = Ok port /\ TCPServer w port = Ok httpd /\ stdout_ok w = true.
Proof.
  destruct (port_of_argv w argv) as [port|e] eqn:Hport.
  - destruct (TCPServer w port) as [httpd|e] eqn:Hsrv.
    + destruct (stdout_ok w) eqn:Hout.
      * right. eauto.
      * left. exists UnicodeEncodeError. eapply print_failure; eauto.
    + left. exists e. eapply bind_failure; eauto.
  - left. exists e. apply bad_port_argument; assumption.
Qed.

Lemma exit_code_nonzero room lines : exit_code room lines <> 0.
Proof. unfold exit_code. destruct room as [n|]; [destruct (length lines <=? n)%nat|]; lia. Qed.

Lemma uncaught_fatal w e : fatal w (uncaught w e) e.
Proof.
  unfold fatal, uncaught. cbn. split; [|split; [|repeat split]].
  - eexists. split; [reflexivity | apply exit_code_nonzero].
  - intros ->. split; reflexivity.
Qed.

Lemma server_address_print_stderr lines : forall srv,
  server_address (print_stderr lines srv).2 = server_address srv.
Proof.
  induction lines as [|line lines IH]; intros srv; [reflexivity|]. cbn [print_stderr].
  destruct (stderr_room srv) as [[|n]|]; [reflexivity | |]; now rewrite IH.
Qed.

Lemma server_address_step handle srv ev :
  server_address (_handle_request_noblock handle ev srv).2 = server_address srv.
Proof.
  destruct ev as [|c]; [reflexivity|]. unfold _handle_request_noblock.
  destruct (handle _) as [[[]|e] h]; [reflexivity|].
  destruct e; rewrite ?server_address_print_stderr; reflexivity.
Qed.

Lemma server_address_serve_forever handle events : forall srv,
  server_address (serve_forever handle events srv).2 = server_address srv.
Proof.
  induction events as [|ev events IH]; intros srv; [reflexivity|]. cbn [serve_forever].
  pose proof (server_address_step handle srv ev) as Hstep.
  destruct (_handle_request_noblock handle ev srv) as [[[]|e] srv']; cbn [snd] in *.
  - now rewrite IH.
  - exact Hstep.
Qed.

Lemma TCPServer_address w port httpd :
  TCPServer w port = Ok httpd -> socket_bind w port = Ok (server_address httpd).
Proof.
  unfold TCPServer. destruct (socket_bind w port); [|discriminate].
  intros [= <-]. reflexivity.
Qed.

Lemma socket_bind_nonzero w port bound :
  socket_bind w port = Ok bound -> port <> 0 -> bound = port.
Proof.
  unfold socket_bind. intros Hbind Hport.
  destruct ((port <? 0) || (65535 <? port)); [discriminate|].
  destruct (Z.eqb_spec port 0); [contradiction|].
  destruct (port_free w port); [|discriminate]. now injection Hbind.
Qed.

Lemma socket_bind_out_of_range w port :
  port < 0 \/ 65535 < port -> socket_bind w port = Raise OverflowError.
Proof.
  unfold socket_bind. intros Hport.
  assert ((port <? 0) || (65535 <? port) = true) as ->; [|reflexivity].
  apply orb_true_iff. destruct Hport; [left; now apply Z.ltb_lt | right; now apply Z.ltb_lt].
Qed.

Lemma socket_bind_in_use w port :
  0 < port <= 65535 -> port_free w port = false -> socket_bind w port = Raise OSError.
Proof.
  unfold socket_bind. intros Hport Hfree.
  replace ((port <? 0) || (65535 <? port)) with false by lia.
  replace (port =? 0) with false by lia. now rewrite Hfree.
Qed.

Lemma socket_bind_none_left w :
  ephemeral_port w = None -> socket_bind w 0 = Raise OSError.
Proof. unfold socket_bind. cbn. now intros ->. Qed.

Lemma bind_failure_fatal w argv events port e :
  port_of_argv w argv = Ok port -> socket_bind w port = Raise e ->
  fatal w (main w argv events) e.
Proof.
  intros Hport Hbind. rewrite (main_failure w argv events e); [apply uncaught_fatal|].
  apply (bind_failure _ _ port); [exact Hport|]. unfold TCPServer. now rewrite Hbind.
Qed.

(** While the server runs, the process has no exit status and listens on
    the port the socket was bound to. *)
Lemma outcome_running port run :
  exit_status (outcome port run) = None ->
  listening (outcome port run) = Some (server_address run.2).
Proof. destruct run as [[[]|e] httpd]; [reflexivity|]. destruct e; try discriminate. reflexivity. Qed.

(** The port the program listens on, while it serves. *)
Lemma listening_port w argv events port :
  port_of_argv w argv = Ok port -> exit_status (main w argv events) = None ->
  exists bound, socket_bind w port = Ok bound /\ listening (main w argv events) = Some bound.
Proof.
  intros Hport Hrun. destruct (main_cases w argv) as [[e Hfail] | [p [httpd [Hp [Hsrv Hout]]]]].
  - rewrite (main_failure _ _ _ _ Hfail) in Hrun. discriminate.
  - rewrite Hport in Hp. injection Hp as <-.
    rewrite (main_serving _ _ _ _ _ Hport Hsrv Hout) in Hrun |- *.
    rewrite (outcome_running _ _ Hrun), server_address_serve_forever.
    exists (server_address httpd).
    split; [apply TCPServer_address; assumption | reflexivity].
Qed.

Lemma port_of_argv_none w prog : port_of_argv w [prog] = Ok 8000.
Proof. reflexivity. Qed.

Lemma port_of_argv_arg w prog arg rest :
  port_of_argv w (prog :: arg :: rest) = PyInt.int (int_max_str_digits w) arg.
Proof. reflexivity. Qed.

End Startup.

(** ** Claims on the start of the program *)

Section StartupClaims.
Import PyStr SocketServer WasmServer IntLiteralSpec.
Context `{PyLib}.

(** C5, as amended.  While the program serves: started with no argument it
    listens on port 8000; started with an argument that [int] reads as an
    integer other than zero, it listens on that port.  (With the argument
    [0] the operating system chooses the port.) *)
Theorem port_default_and_override (w : World) (prog : string) (events : list event) :
  (exit_status (main w [prog] events) = None ->
   listening (main w [prog] events) = Some 8000)
  /\ (forall arg rest n,
        PyInt.int (int_max_str_digits w) arg = Ok n -> n <> 0 ->
        exit_status (main w (prog :: arg :: rest) events) = None ->
        listening (main w (prog :: arg :: rest) events) = Some n).
Proof.
  split.
  - intros Hrun.
    destruct (listening_port w [prog : Unicode.str] events 8000 eq_refl Hrun)
      as [bound [Hbind ->]].
    now rewrite (socket_bind_nonzero _ _ _ Hbind).
  - intros arg rest n Hint Hn Hrun.
    destruct (listening_port w (prog :: arg :: rest) events n Hint Hrun) as [bound [Hbind ->]].
    now rewrite (socket_bind_nonzero _ _ _ Hbind Hn).
Qed.

(** C6.  Every failure at the start is fatal.  An argument that is no
    integer literal (or one with more digits than the limit for integer
    texts) ends the process with [ValueError]: the port does not fall back
    to 8000.  A port outside 0..65535 ends it with [OverflowError], and a
    port that cannot be bound (in use, not permitted; or none left for the
    argument [0]) with [OSError], also when the port is the default one.
    Ended so, the process has a non-zero exit status (1 when the standard
    error stream takes the traceback, which names the exception), has
    printed nothing on the standard output, listens on no port and answers
    no request. *)
Theorem startup_failure_is_fatal
    (w : World) (prog : Unicode.str) (rest : list Unicode.str) (events : list event) :
  (forall arg,
     ~ (exists z n, int_literal arg z n /\ PyInt.over_limit (int_max_str_digits w) n = false) ->
     fatal w (main w (prog :: arg :: rest) events) ValueError)
  /\ (forall arg port n,
        int_literal arg port n -> PyInt.over_limit (int_max_str_digits w) n = false ->
        (port < 0 \/ 65535 < port ->
         fatal w (main w (prog :: arg :: rest) events) OverflowError)
        /\ (0 < port <= 65535 -> port_free w port = false ->
            fatal w (main w (prog :: arg :: rest) events) OSError)
        /\ (port = 0 -> ephemeral_port w = None ->
            fatal w (main w (prog :: arg :: rest) events) OSError))
  /\ (port_free w 8000 = false -> fatal w (main w [prog] events) OSError).
Proof.
  split; [|split].
  - intros arg Hnot. rewrite (main_failure w _ events ValueError); [apply uncaught_fatal|].
    apply bad_port_argument. rewrite port_of_argv_arg.
    destruct (int_raises (int_max_str_digits w) arg) as [Hr | [z Hz]]; [exact Hr|].
    exfalso. apply Hnot. exists z. apply int_spec. exact Hz.
  - intros arg port n Hlit Hlim.
    assert (Hport : port_of_argv w (prog :: arg :: rest) = Ok port).
    { rewrite port_of_argv_arg. apply int_spec. eauto. }
    split; [|split].
    + intros Hrange. apply (bind_failure_fatal w _ events port _ Hport).
      now apply socket_bind_out_of_range.
    + intros Hrange Hfree. apply (bind_failure_fatal w _ events port _ Hport).
      now apply socket_bind_in_use.
    + intros -> Hnone. apply (bind_failure_fatal w _ events 0 _ Hport).
      now apply socket_bind_none_left.
  - intros Hfree. apply (bind_failure_fatal w [prog] events 8000 _ eq_refl).
    now apply socket_bind_in_use.
Qed.

End StartupClaims.

(** The port argument [abc] is no integer, and port 8080 is in use: exit
    status 1, and a traceback. *)
Lemma startup_failure_is_fatal_witness :
  fatal Example.world
    (WasmServer.main (H := Example.lib) Example.world ["wasm_server.py"; "abc"] []) ValueError
  /\ fatal Example.world
       (WasmServer.main (H := Example.lib) Example.world ["wasm_server.py"; "8080"] []) OSError
  /\ WasmServer.exit_status
       (WasmServer.main (H := Example.lib) Example.world ["wasm_server.py"; "abc"] []) = Some 1
  /\ WasmServer.stderr_lines
       (WasmServer.main (H := Example.lib) Example.world ["wasm_server.py"; "abc"] [])
     = ["Traceback (most recent call last):"; "ValueError"].
Proof.
  pose proof (startup_failure_is_fatal (H := Example.lib) Example.world "wasm_server.py" [] [])
    as [Hbad [Hbind _]].
  assert (Habc : fatal Example.world
            (WasmServer.main (H := Example.lib) Example.world ["wasm_server.py"; "abc"] [])
            ValueError).
  { apply Hbad. intros [z [n [Hlit Hlim]]].
    assert (Hint : PyInt.int (int_max_str_digits Example.world) "abc" = Ok z)
      by (apply int_spec; eauto).
    discriminate Hint. }
  split; [exact Habc|]. split.
  - assert (Hint : PyInt.int (int_max_str_digits Example.world) "8080" = Ok 8080)
      by reflexivity.
    apply int_spec in Hint as [n [Hlit Hlim]].
    apply (proj1 (proj2 (Hbind _ 8080 n Hlit Hlim))); [lia | reflexivity].
  - destruct Habc as (_ & Hmessage & _). exact (Hmessage eq_refl).
Defined.

Lemma port_default_and_override_witness :
  WasmServer.listening
    (WasmServer.main (H := Example.lib) Example.world ["wasm_server.py"] []) = Some 8000
  /\ WasmServer.listening
       (WasmServer.main (H := Example.lib) Example.world ["wasm_server.py"; "9999"] [])
     = Some 9999.
Proof.
  split.
  - apply (proj1 (port_default_and_override (H := Example.lib) Example.world "wasm_server.py" [])).
    reflexivity.
  - apply (proj2 (port_default_and_override (H := Example.lib) Example.world "wasm_server.py" [])
             "9999" [] 9999); [reflexivity | discriminate | reflexivity].
Defined.

(** C5 as stated fails for the argument [0]: it is a valid integer, the
    program serves, and the port it listens on is not port 0. *)
Lemma port_zero_counterexample :
  PyInt.int (int_max_str_digits Example.world) "0" = Ok 0
  /\ WasmServer.exit_status
       (WasmServer.main (H := Example.lib) Example.world ["wasm_server.py"; "0"] []) = None
  /\ WasmServer.listening
       (WasmServer.main (H := Example.lib) Example.world ["wasm_server.py"; "0"] [])
     = Some 49152
  /\ Some 49152 <> Some 0.
Proof. repeat split. discriminate. Qed.

Section PortArgument.
Import PyStr SocketServer WasmServer IntLiteralSpec.
Context `{PyLib}.

(** C9, as amended.  The port argument is read by [int]: [ValueError] is
    raised exactly for the arguments that are no valid integer literal or
    that have more digits than the interpreter's limit for integer texts
    (4300 unless configured otherwise); otherwise the port is the value of
    the literal.  White space around it, a sign and single underscores
    between digits are accepted, and so are the decimal digits of any
    script.  An integer outside 0..65535 passes the parsing and fails when
    the socket is bound, with [OverflowError]. *)
Theorem port_argument_is_parsed_by_int
    (w : World) (prog arg : Unicode.str) (rest : list Unicode.str) (events : list event) :
  (port_of_argv w (prog :: arg :: rest) = Raise ValueError
   <-> ~ exists z n, int_literal arg z n /\ PyInt.over_limit (int_max_str_digits w) n = false)
  /\ (forall z, port_of_argv w (prog :: arg :: rest) = Ok z
                <-> exists n, int_literal arg z n
                              /\ PyInt.over_limit (int_max_str_digits w) n = false)
  /\ port_of_argv w (prog :: " 8000 " :: rest) = Ok 8000
  /\ port_of_argv w (prog :: "+8000" :: rest) = Ok 8000
  /\ port_of_argv w (prog :: "8_000" :: rest) = Ok 8000
  /\ port_of_argv w (prog :: Example.arabic_8000 :: rest) = Ok 8000
  /\ (forall n, port_of_argv w (prog :: arg :: rest) = Ok n -> n < 0 \/ 65535 < n ->
        TCPServer w n = Raise OverflowError
        /\ main w (prog :: arg :: rest) events = uncaught w OverflowError).
Proof.
  rewrite port_of_argv_arg.
  refine (conj _ (conj _ (conj _ (conj _ (conj _ (conj _ _)))))).
  - split.
    + intros Hraise [z Hlit]. apply int_spec in Hlit. congruence.
    + intros Hnot. destruct (int_raises (int_max_str_digits w) arg) as [Hr | [z Hz]]; [exact Hr|].
      exfalso. apply Hnot. exists z. apply int_spec. exact Hz.
  - intros z. apply int_spec.
  - reflexivity.
  - reflexivity.
  - reflexivity.
  - reflexivity.
  - intros n Hn Hrange.
    assert (Hsrv : TCPServer w n = Raise OverflowError).
    { unfold TCPServer. now rewrite (socket_bind_out_of_range _ _ Hrange). }
    split; [exact Hsrv|]. apply main_failure. eapply bind_failure; eauto.
Qed.

End PortArgument.

(** The arguments [70000] and [-1] are read as integers and fail at the
    binding of the socket. *)
Lemma port_argument_is_parsed_by_int_witness :
  WasmServer.main (H := Example.lib) Example.world ["wasm_server.py"; "70000"] []
  = WasmServer.uncaught Example.world OverflowError
  /\ WasmServer.main (H := Example.lib) Example.world ["wasm_server.py"; "-1"] []
     = WasmServer.uncaught Example.world OverflowError.
Proof.
  split.
  - apply (proj2 (proj2 (proj2 (proj2 (proj2 (proj2
      (port_argument_is_parsed_by_int (H := Example.lib) Example.world
         "wasm_server.py" "70000" [] [])))))) 70000); [reflexivity | right; reflexivity].
  - apply (proj2 (proj2 (proj2 (proj2 (proj2 (proj2
      (port_argument_is_parsed_by_int (H := Example.lib) Example.world
         "wasm_server.py" "-1" [] [])))))) (-1)); [reflexivity | left; reflexivity].
Defined.

(** C9 as stated fails for a literal of 4301 digits: it is a valid integer
    literal, and [int] raises [ValueError] under the default limit. *)
Lemma long_literal_counterexample :
  IntLiteralSpec.valid (Example.ones 4301)
  /\ WasmServer.port_of_argv Example.world ["wasm_server.py"; Example.ones 4301]
     = Raise ValueError.
Proof.
  split.
  - assert (Hint : exists z, PyInt.int 0 (Example.ones 4301) = Ok z)
      by (vm_compute; eexists; reflexivity).
    destruct Hint as [z Hz]. apply int_spec in Hz as [n [Hlit _]]. exists z, n. exact Hlit.
  - vm_compute. reflexivity.
Qed.

Lemma bind_Ok {A B} (m : M A) (k : A -> M B) h a h' :
  m h = (Ok a, h') -> bind m k h = k a h'.
Proof. unfold bind. now intros ->. Qed.

Lemma bind_Raise {A B} (m : M A) (k : A -> M B) h e h' :
  m h = (Raise e, h') -> bind m k h = (Raise e, h').
Proof. unfold bind. now intros ->. Qed.

(** ** The handler: what every method leaves unchanged *)

Section Quiet.
Import PyStr HttpServer.

Lemma unchanged_refl h : unchanged h h.
Proof. repeat split; auto. Qed.

Lemma unchanged_trans h1 h2 h3 : unchanged h1 h2 -> unchanged h2 h3 -> unchanged h1 h3.
Proof. intros (?&?&?&?) (?&?&?&?). repeat split; [congruence | congruence | auto | auto]. Qed.

Lemma quiet_ret {A} (a : A) : quiet (ret a).
Proof. intros h. apply unchanged_refl. Qed.

Lemma quiet_raise {A} e : quiet (@raise A e).
Proof. intros h. apply unchanged_refl. Qed.

Lemma quiet_get {A} (f : handler -> A) : quiet (get f).
Proof. intros h. apply unchanged_refl. Qed.

Lemma quiet_lift {A} (r : result A) : quiet (lift r).
Proof. intros h. apply unchanged_refl. Qed.

Lemma quiet_modify f : (forall h, unchanged h (f h)) -> quiet (modify f).
Proof. intros Hf h. apply Hf. Qed.

Lemma quiet_bind {A B} (m : M A) (k : A -> M B) :
  quiet m -> (forall a, quiet (k a)) -> quiet (bind m k).
Proof.
  intros Hm Hk h. unfold bind. specialize (Hm h).
  destruct (m h) as [[a|e] h1]; simpl in *; [|exact Hm].
  eapply unchanged_trans; [exact Hm | apply Hk].
Qed.

Lemma quiet_when b m : quiet m -> quiet (when b m).
Proof. destruct b; [auto | intros _; apply quiet_ret]. Qed.

End Quiet.

Create HintDb quiet.
#[local] Hint Resolve quiet_ret quiet_raise quiet_get quiet_lift quiet_when : quiet.

(** Takes a method apart along its binds and its tests. *)
Ltac quiet_step :=
  match goal with
  | |- quiet (bind _ _) => apply quiet_bind; [|intros]
  | |- quiet (modify _) =>
      apply quiet_modify; intros []; repeat split; simpl; auto; discriminate
  | |- quiet (if ?test then _ else _) => destruct test
  | |- quiet (match ?x with _ => _ end) => destruct x
  | |- quiet _ => solve [eauto with quiet]
  end.

Ltac quiet_tac := repeat quiet_step.

Section QuietMethods.
Import PyStr HttpServer.
Context `{PyLib} (w : World) (db : Mimetypes.MimeTypes).

Lemma quiet_readline : quiet readline.
Proof.
  intros h. unfold readline. destruct (rfile h) as [|[raw hb| |] rest]; repeat split; auto.
Qed.

Lemma quiet_log_message message : quiet (log_message message).
Proof.
  intros h. unfold log_message.
  destruct (stderr_left h) as [[|n]|]; repeat split; simpl; auto;
    intros _; destruct (stderr h); discriminate.
Qed.

Lemma quiet_log_request code : quiet (log_request code).
Proof. unfold log_request. pose proof quiet_log_message. quiet_tac. Qed.

Lemma quiet_log_error message : quiet (log_error message).
Proof. apply quiet_log_message. Qed.

Lemma quiet_append_header_line line : quiet (append_header_line line).
Proof. unfold append_header_line. quiet_tac. Qed.

Lemma quiet_send_response_only code message : quiet (send_response_only code message).
Proof. unfold send_response_only. pose proof quiet_append_header_line. quiet_tac. Qed.

(** [send_header] is quiet unless it asks to keep the connection alive. *)
Lemma quiet_send_header keyword value :
  String.eqb (lower keyword) "connection" && String.eqb (lower value) "keep-alive" = false ->
  quiet (send_header keyword value).
Proof.
  intros Hkv. unfold send_header. pose proof quiet_append_header_line.
  destruct (String.eqb (lower keyword) "connection");
    destruct (String.eqb (lower value) "close") eqn:Hclose;
    destruct (String.eqb (lower value) "keep-alive"); try discriminate; quiet_tac.
Qed.

Lemma quiet_date_time_string timestamp : quiet (date_time_string w timestamp).
Proof. unfold date_time_string. quiet_tac. Qed.

Lemma quiet_send_response code message : quiet (send_response w code message).
Proof.
  unfold send_response.
  pose proof quiet_log_request. pose proof quiet_send_response_only.
  pose proof (quiet_send_header "Server" version_string eq_refl).
  pose proof quiet_date_time_string.
  pose proof (fun date => quiet_send_header "Date" date eq_refl).
  quiet_tac.
Qed.

Lemma quiet_os_path_isdir p : quiet (os_path_isdir p).
Proof. apply quiet_get. Qed.

Lemma quiet_os_path_isfile p : quiet (os_path_isfile p).
Proof. apply quiet_get. Qed.

Lemma quiet_os_path_islink p : quiet (os_path_islink p).
Proof. apply quiet_get. Qed.

Lemma quiet_os_open_rb p : quiet (os_open_rb p).
Proof. apply quiet_get. Qed.

Lemma quiet_os_listdir p : quiet (os_listdir p).
Proof. apply quiet_get. Qed.

Lemma quiet_list_entries path names : quiet (list_entries path names).
Proof.
  induction names as [|name names IH]; simpl.
  - apply quiet_ret.
  - pose proof quiet_os_path_isdir. pose proof quiet_os_path_islink. quiet_tac.
Qed.

End QuietMethods.

#[local] Hint Resolve quiet_readline quiet_log_message quiet_log_request quiet_log_error
  quiet_append_header_line quiet_send_response_only quiet_send_response
  quiet_date_time_string
  quiet_os_path_isdir quiet_os_path_isfile quiet_os_path_islink quiet_os_open_rb
  quiet_os_listdir quiet_list_entries : quiet.

(** ** The handler: the header block of every reply *)

Section Triples.
Import PyStr HttpServer SocketServer WasmServer.

Lemma tri_bind {A B} P (m : M A) (k : A -> M B) Q R E :
  tri P m Q E -> (forall a, tri (Q a) (k a) R E) -> tri P (bind m k) R E.
Proof.
  intros Hm Hk h HP. unfold bind. specialize (Hm h HP).
  destruct (m h) as [[a|e] h1]; [apply (Hk a h1 Hm) | exact Hm].
Qed.

Lemma tri_weaken {A} (P P' : handler -> Prop) (m : M A) (Q Q' : A -> handler -> Prop) E :
  tri P m Q E -> (forall h, P' h -> P h) -> (forall a h, Q a h -> Q' a h) -> tri P' m Q' E.
Proof.
  intros Hm HP HQ h HP'. specialize (Hm h (HP h HP')).
  destruct (m h) as [[a|e] h1]; auto.
Qed.

Lemma tri_ret {A} (P : handler -> Prop) (a : A) (Q : A -> handler -> Prop) E :
  (forall h, P h -> Q a h) -> tri P (ret a) Q E.
Proof. intros HPQ h HP. apply HPQ, HP. Qed.

Lemma tri_raise {A} (P : handler -> Prop) e (Q : A -> handler -> Prop) (E : handler -> Prop) :
  (forall h, P h -> E h) -> tri P (raise e) Q E.
Proof. intros HPE h HP. apply HPE, HP. Qed.

Lemma freshst_okst h : freshst h -> okst h.
Proof. intros [Hc Hw]. split; [exact Hc|]. right. now rewrite Hw. Qed.

Lemma freshst_unchanged h h' : unchanged h h' -> freshst h -> freshst h'.
Proof. intros (Hw & Hrv & Hc & _) [Hcc Hf]. split; [auto | congruence]. Qed.

Lemma sentst_okst h : sentst h -> okst h.
Proof.
  intros [Hc [Hrv|Hw]]; split; auto; [left; auto|].
  right. destruct (wfile h); [contradiction | exact Hw].
Qed.

Lemma okst_unchanged h h' : unchanged h h' -> okst h -> okst h'.
Proof. intros (Hw & Hrv & Hc & _) [Hcc Hok]. split; [auto|]. unfold headers_ok. now rewrite Hw, Hrv. Qed.

Lemma sentst_unchanged h h' : unchanged h h' -> sentst h -> sentst h'.
Proof.
  intros (Hw & Hrv & Hc & _) [Hcc Hok]. split; [auto|]. unfold headers_sent. now rewrite Hw, Hrv.
Qed.

Lemma tri_quiet_okst {A} (m : M A) : quiet m -> tri okst m (fun _ => okst) okst.
Proof.
  intros Hm h Hok. specialize (Hm h).
  destruct (m h) as [[a|e] h1]; simpl in Hm; eauto using okst_unchanged.
Qed.

Lemma tri_quiet_sentst {A} (m : M A) : quiet m -> tri sentst m (fun _ => sentst) okst.
Proof.
  intros Hm h Hok. specialize (Hm h).
  destruct (m h) as [[a|e] h1]; simpl in Hm; eauto using sentst_unchanged, okst_unchanged, sentst_okst.
Qed.

Lemma tri_quiet_fresh {A} (m : M A) : quiet m -> tri freshst m (fun _ => freshst) okst.
Proof.
  intros Hm h Hok. specialize (Hm h).
  destruct (m h) as [[a|e] h1]; simpl in Hm;
    eauto using freshst_unchanged, okst_unchanged, freshst_okst.
Qed.

Lemma endswith_refl s : endswith s s = true.
Proof. destruct s; simpl; now rewrite ?Ascii.eqb_refl, ?String.eqb_refl. Qed.

Lemma endswith_app a b : endswith (a +:+ b) b = true.
Proof.
  induction a as [|c a IH]; [apply endswith_refl|].
  change (endswith (String c a +:+ b) b)
    with (if String.eqb (String c (a +:+ b)) b then true else endswith (a +:+ b) b).
  rewrite IH. now destruct (String.eqb (String c (a +:+ b)) b).
Qed.

Lemma concat_app (xs ys : list string) :
  String.concat EmptyString (xs ++ ys)
  = String.concat EmptyString xs +:+ String.concat EmptyString ys.
Proof.
  induction xs as [|x xs IH]; [reflexivity|].
  destruct xs as [|x' xs].
  - simpl. destruct ys; [now rewrite sapp_nil_r | reflexivity].
  - change (String.concat EmptyString ((x :: x' :: xs) ++ ys))
      with (x +:+ String.concat EmptyString ((x' :: xs) ++ ys)).
    rewrite IH. change (String.concat EmptyString (x :: x' :: xs))
      with (x +:+ String.concat EmptyString (x' :: xs)).
    now rewrite sapp_assoc.
Qed.

(** A write after the header block keeps it in place. *)
Lemma write_sentst b : tri sentst (write b) (fun _ => sentst) okst.
Proof.
  intros h [Hc Hs]. unfold write.
  assert (Hkeep : forall h', close_connection h' = true ->
            request_version h' = request_version h -> wfile h' = wfile h ++ [b] -> sentst h').
  { intros h' Hc' Hrv' Hw'. split; [exact Hc'|]. unfold headers_sent. rewrite Hrv', Hw'.
    destruct Hs as [Hrv|Hw]; [left; exact Hrv | right].
    destruct (wfile h); [contradiction | exact Hw]. }
  destruct (writes_left h) as [[|n]|]; [apply sentst_okst; split; auto | |];
    apply Hkeep; simpl; auto.
Qed.

End Triples.

Section HeaderBlock.
Import PyStr HttpServer SocketServer WasmServer.

Lemma send_header_plain keyword value h :
  String.eqb (request_version h) "HTTP/0.9" = false ->
  String.eqb (lower keyword) "connection" = false ->
  send_header keyword value h = (Ok tt, buffered [keyword +:+ ": " +:+ value +:+ CRLF] h).
Proof.
  intros Hrv Hk. unfold send_header, bind, get, when, append_header_line, modify. simpl.
  rewrite Hrv, Hk. reflexivity.
Qed.

Lemma send_header_simple keyword value h :
  String.eqb (request_version h) "HTTP/0.9" = true ->
  String.eqb (lower keyword) "connection" = false ->
  send_header keyword value h = (Ok tt, h).
Proof.
  intros Hrv Hk. unfold send_header, bind, get, when, append_header_line, modify. simpl.
  rewrite Hrv, Hk. reflexivity.
Qed.

Lemma isolated_block (lines : list string) :
  isolated (String.concat EmptyString
              (((lines ++ ["Cross-Origin-Embedder-Policy" +:+ ": " +:+ "require-corp" +:+ CRLF])
                ++ ["Cross-Origin-Opener-Policy" +:+ ": " +:+ "same-origin" +:+ CRLF])
               ++ [CRLF])) = true.
Proof.
  rewrite <- !List.app_assoc. rewrite concat_app. apply endswith_app.
Qed.

(** [WASMHandler.end_headers]: when it returns, the header block is
    written (unless the reply is in the style of HTTP/0.9), and it ends
    with the two headers. *)
Lemma end_headers_sent :
  tri okst (end_headers (HandlerClass := WASMHandler)) (fun _ => sentst) okst.
Proof.
  intros h [Hc Hok]. unfold end_headers, WASMHandler.
  destruct (String.eqb (request_version h) "HTTP/0.9") eqn:Hrv.
  - rewrite (bind_Ok _ _ _ _ _
               (send_header_simple "Cross-Origin-Embedder-Policy" "require-corp" h Hrv eq_refl)).
    cbv beta.
    rewrite (bind_Ok _ _ _ _ _
               (send_header_simple "Cross-Origin-Opener-Policy" "same-origin" h Hrv eq_refl)).
    unfold Base_end_headers, bind, get. rewrite Hrv. simpl.
    split; [exact Hc | left; now apply String.eqb_eq].
  - rewrite (bind_Ok _ _ _ _ _
               (send_header_plain "Cross-Origin-Embedder-Policy" "require-corp" h Hrv eq_refl)).
    cbv beta.
    rewrite (bind_Ok _ _ _ _ _
               (send_header_plain "Cross-Origin-Opener-Policy" "same-origin"
                  (buffered ["Cross-Origin-Embedder-Policy" +:+ ": " +:+ "require-corp" +:+ CRLF] h)
                  Hrv eq_refl)).
    unfold Base_end_headers, flush_headers, bind, get, modify, write. simpl. rewrite Hrv. simpl.
    assert (Hfirst : forall block rest, wfile h ++ [block] = rest ->
              isolated block = true ->
              match rest with [] => False | first :: _ => isolated first = true end).
    { intros block rest <- Hblock. destruct Hok as [Hv|Hw].
      - apply String.eqb_neq in Hrv. contradiction.
      - destruct (wfile h); [exact Hblock | exact Hw]. }
    destruct (writes_left h) as [[|n]|]; simpl.
    + split; [exact Hc | exact Hok].
    + split; [exact Hc | right]. eapply Hfirst; [reflexivity | apply isolated_block].
    + split; [exact Hc | right]. eapply Hfirst; [reflexivity | apply isolated_block].
Qed.

End HeaderBlock.

#[local] Hint Extern 1 (quiet (HttpServer.send_header _ _)) =>
  apply quiet_send_header; reflexivity : quiet.

Ltac tri_quiet :=
  first [apply tri_quiet_okst | apply tri_quiet_sentst | apply tri_quiet_fresh]; quiet_tac.

Ltac tri_seq := eapply tri_bind; [tri_quiet | intros].

Section Replies.
Import PyStr HttpServer SocketServer WasmServer.
Context `{PyLib} (w : World) (db : Mimetypes.MimeTypes).

#[local] Existing Instance WASMHandler.

Lemma tri_when_write b body : tri sentst (when b (write body)) (fun _ => sentst) okst.
Proof. destruct b; [apply write_sentst | apply tri_ret; auto]. Qed.

Lemma send_error_ok code message explain :
  tri okst (send_error w code message explain) (fun _ => okst) okst.
Proof.
  unfold send_error. destruct (default ("???", "???") (responses code)) as [shortmsg longmsg].
  do 4 tri_seq.
  eapply tri_bind; [apply end_headers_sent | intros].
  tri_seq.
  eapply tri_weaken; [| intros h Hh; exact Hh | intros ? h Hh; apply sentst_okst, Hh].
  match goal with |- tri _ (match ?body with _ => _ end) _ _ => destruct body end;
    [apply tri_when_write | apply tri_ret; auto].
Qed.

Lemma tri_sent_ok {A} (m : M A) :
  tri sentst m (fun _ => sentst) okst -> tri sentst m (fun _ => okst) okst.
Proof. intros Hm. eapply tri_weaken; [exact Hm | auto | intros; now apply sentst_okst]. Qed.

Lemma copyfileobj_sent fuel : forall source,
  tri sentst (copyfileobj fuel source) (fun _ => sentst) okst.
Proof.
  induction fuel as [|fuel IH]; intros source; simpl.
  - apply tri_ret; auto.
  - destruct (is_empty (take COPY_BUFSIZE source)); [apply tri_ret; auto|].
    eapply tri_bind; [apply write_sentst | intros; apply IH].
Qed.

Lemma list_directory_ok path :
  tri okst (list_directory w path) file_post okst.
Proof.
  unfold list_directory. tri_seq.
  match goal with |- tri _ (match ?r with _ => _ end) _ _ => destruct r as [names|[]] end;
    try (apply tri_raise; auto).
  - do 6 tri_seq.
    eapply tri_bind; [apply end_headers_sent | intros]. apply tri_ret; auto.
  - eapply tri_bind; [apply send_error_ok | intros]. apply tri_ret; auto.
Qed.

Lemma send_head_file_ok path :
  tri okst (send_head_file w db path) file_post okst.
Proof.
  unfold send_head_file.
  destruct (endswith path "/").
  { eapply tri_bind; [apply send_error_ok | intros]. apply tri_ret; auto. }
  tri_seq.
  match goal with |- tri _ (match ?r with _ => _ end) _ _ => destruct r as [[content mtime]|[]] end;
    try (apply tri_raise; auto).
  - do 2 tri_seq. match goal with |- tri _ (if ?b then _ else _) _ _ => destruct b end.
    + tri_seq. eapply tri_bind; [apply end_headers_sent | intros].
      apply tri_ret. intros h Hh. apply sentst_okst, Hh.
    + do 5 tri_seq. eapply tri_bind; [apply end_headers_sent | intros]. apply tri_ret; auto.
  - eapply tri_bind; [apply send_error_ok | intros]. apply tri_ret; auto.
Qed.

Lemma send_head_ok : tri okst (send_head w db) file_post okst.
Proof.
  unfold send_head. do 2 tri_seq.
  match goal with |- tri _ (if ?b then _ else _) _ _ => destruct b end;
    [|apply send_head_file_ok].
  tri_seq. match goal with |- tri _ (let '(_, _) := ?p in _) _ _ =>
             destruct p as [[[[scheme netloc] url_path] query] fragment] end.
  match goal with |- tri _ (if ?b then _ else _) _ _ => destruct b end.
  - do 3 tri_seq. eapply tri_bind; [apply end_headers_sent | intros].
    apply tri_ret. intros h Hh. apply sentst_okst, Hh.
  - tri_seq. match goal with |- tri _ (if ?b then _ else _) _ _ => destruct b end;
      [apply send_head_file_ok|].
    tri_seq. match goal with |- tri _ (if ?b then _ else _) _ _ => destruct b end;
      [apply send_head_file_ok | apply list_directory_ok].
Qed.

Lemma do_GET_ok : tri okst (do_GET w db) (fun _ => okst) okst.
Proof.
  unfold do_GET. eapply tri_bind; [apply send_head_ok | intros f].
  destruct f as [source|]; [|apply tri_ret; auto].
  apply tri_sent_ok, copyfileobj_sent.
Qed.

Lemma do_HEAD_ok : tri okst (do_HEAD w db) (fun _ => okst) okst.
Proof.
  unfold do_HEAD. eapply tri_bind; [apply send_head_ok | intros f].
  apply tri_ret. intros h Hh. destruct f; [apply sentst_okst|]; exact Hh.
Qed.

Lemma set_request_version_fresh version :
  tri freshst (modify (set_request_version version)) (fun _ => freshst) okst.
Proof. intros h [Hc Hw]. split; simpl; assumption. Qed.

Lemma tri_fresh_ok {A} (m : M A) (Q : A -> handler -> Prop) :
  tri okst m Q okst -> tri freshst m Q okst.
Proof. intros Hm. eapply tri_weaken; [exact Hm | apply freshst_okst | auto]. Qed.

Lemma protocol_is_1_0 : str_ge protocol_version "HTTP/1.1" = false.
Proof. reflexivity. Qed.

Lemma parse_request_headers_ok :
  tri okst (parse_request_headers w) (fun _ => okst) okst.
Proof.
  unfold parse_request_headers. tri_seq.
  match goal with |- tri _ (match ?hb with _ => _ end) _ _ => destruct hb as [hs| | | |] end.
  - rewrite protocol_is_1_0, !andb_false_r. cbn [andb]. do 3 tri_seq. apply tri_ret; auto.
  - eapply tri_bind; [apply send_error_ok | intros]. apply tri_ret; auto.
  - eapply tri_bind; [apply send_error_ok | intros]. apply tri_ret; auto.
  - tri_quiet.
  - tri_quiet.
Qed.

Lemma parse_request_words_ok words :
  tri okst (parse_request_words w words) (fun _ => okst) okst.
Proof.
  unfold parse_request_words.
  match goal with |- tri _ (if ?b then _ else _) _ _ => destruct b end.
  { tri_seq. eapply tri_bind; [apply send_error_ok | intros]. apply tri_ret; auto. }
  destruct words as [|command [|path rest]]; try (apply tri_ret; auto).
  eapply tri_bind with (Q := fun _ => okst).
  - match goal with |- tri _ (if ?b then _ else _) _ _ => destruct b end;
      [|apply tri_ret; auto].
    tri_seq. match goal with |- tri _ (if ?b then _ else _) _ _ => destruct b end;
      [|apply tri_ret; auto].
    eapply tri_bind; [apply send_error_ok | intros]. apply tri_ret; auto.
  - intros ok. destruct ok; simpl; [|apply tri_ret; auto].
    do 3 tri_seq. apply parse_request_headers_ok.
Qed.

Lemma parse_request_ok : tri freshst (parse_request w) (fun _ => okst) okst.
Proof.
  unfold parse_request. tri_seq.
  eapply tri_bind; [apply set_request_version_fresh | intros].
  do 3 tri_seq.
  match goal with |- tri _ (if ?b then _ else _) _ _ => destruct b end;
    [apply tri_ret; intros; now apply freshst_okst|].
  eapply tri_bind with (Q := fun _ => okst).
  - match goal with |- tri _ (if ?b then _ else _) _ _ => destruct b end;
      [|apply tri_ret; intros; now apply freshst_okst].
    match goal with |- tri _ (match ?r with _ => _ end) _ _ =>
      destruct r as [[[major minor] base]|] end.
    + rewrite protocol_is_1_0, andb_false_r. tri_seq.
      match goal with |- tri _ (if ?b then _ else _) _ _ => destruct b end.
      * apply tri_fresh_ok. eapply tri_bind; [apply send_error_ok | intros]. apply tri_ret; auto.
      * eapply tri_bind; [apply set_request_version_fresh | intros].
        apply tri_ret; intros; now apply freshst_okst.
    + apply tri_fresh_ok. eapply tri_bind; [apply send_error_ok | intros]. apply tri_ret; auto.
  - intros ok. destruct ok; simpl; [apply parse_request_words_ok | apply tri_ret; auto].
Qed.

Lemma handle_one_request_ok :
  tri freshst (handle_one_request w db) (fun _ => okst) okst.
Proof.
  unfold handle_one_request. do 2 tri_seq.
  match goal with |- tri _ (if ?b then _ else _) _ _ => destruct b end.
  { do 1 tri_seq. eapply tri_bind; [apply set_request_version_fresh | intros].
    tri_seq. apply tri_fresh_ok, send_error_ok. }
  match goal with |- tri _ (if ?b then _ else _) _ _ => destruct b end.
  { apply tri_fresh_ok. tri_quiet. }
  eapply tri_bind; [apply parse_request_ok | intros ok].
  destruct ok; simpl; [|apply tri_ret; auto].
  tri_seq. unfold method.
  repeat match goal with |- tri _ (match (if ?b then _ else _) with _ => _ end) _ _ =>
           destruct b end.
  - apply do_GET_ok.
  - apply do_HEAD_ok.
  - apply send_error_ok.
Qed.

Lemma handle_loop_closed fuel h :
  close_connection h = true -> handle_loop w db fuel h = (Ok tt, h).
Proof. intros Hc. destruct fuel; [reflexivity|]. simpl. unfold bind, get. now rewrite Hc. Qed.

(** The whole of [handle()], from the state of a new handler. *)
Lemma handle_ok h : wfile h = [] -> okst (handle w db h).2.
Proof.
  intros Hw. unfold handle.
  assert (Hfresh : freshst (set_close_connection true h)) by (split; simpl; auto).
  unfold bind at 1. unfold modify at 1.
  pose proof (handle_one_request_ok _ Hfresh) as Hone.
  unfold bind at 1.
  destruct (handle_one_request w db (set_close_connection true h)) as [[[]|e] h1];
    [|exact Hone].
  unfold bind, get. rewrite (handle_loop_closed _ _ (proj1 Hone)). exact Hone.
Qed.

(** The handler serves one request per connection. *)
Lemma handle_once h :
  wfile h = [] ->
  handle w db h = handle_one_request w db (set_close_connection true h).
Proof.
  intros Hw. unfold handle.
  assert (Hfresh : freshst (set_close_connection true h)) by (split; simpl; auto).
  unfold bind at 1. unfold modify at 1.
  pose proof (handle_one_request_ok _ Hfresh) as Hone.
  unfold bind at 1.
  destruct (handle_one_request w db (set_close_connection true h)) as [[[]|e] h1];
    [|reflexivity].
  unfold bind, get. now rewrite (handle_loop_closed _ _ (proj1 Hone)).
Qed.

End Replies.

Section IsolationHeaders.
Import PyStr HttpServer SocketServer WasmServer.
Context `{PyLib}.

(** C1, as amended.  Whatever the request (path, method, status of the
    reply) and whatever the file system: unless the reply is made in the
    style of HTTP/0.9, which has neither status line nor headers, the first
    chunk the handler writes is a header block that ends with
    [Cross-Origin-Embedder-Policy: require-corp],
    [Cross-Origin-Opener-Policy: same-origin] and the blank line: the two
    headers are added last, before the block is finished. *)
Theorem isolation_headers_on_every_header_block
    (w : World) (d : filesystem) (c : connection) (block : string) (rest : list string) :
  request_version (serve w d c).2 <> "HTTP/0.9" ->
  reply w d c = block :: rest ->
  isolated block = true.
Proof.
  intros Hrv Hreply. unfold reply in Hreply.
  destruct (handle_ok w (mimetypes_db w) (new_handler d c) eq_refl) as [_ [Hv|Hw]].
  - contradiction.
  - unfold serve, WASMHandler_handle in Hreply. rewrite Hreply in Hw. exact Hw.
Qed.

End IsolationHeaders.

(** A request for a missing file, made with a full request line: the
    reply is a 404 whose header block carries the two headers. *)
Lemma isolation_headers_on_every_header_block_witness :
  exists block page,
    WasmServer.reply (H := Example.lib) Example.world (Example.files "root:x:0:0")
      (Example.request "GET /missing.bin HTTP/1.1" []) = [block; page]
    /\ PyStr.startswith block "HTTP/1.0 404 " = true
    /\ WasmServer.isolated block = true.
Proof.
  eexists _, _. split; [vm_compute; reflexivity|]. split; [reflexivity|].
  eapply (isolation_headers_on_every_header_block (H := Example.lib) Example.world
            (Example.files "root:x:0:0") (Example.request "GET /missing.bin HTTP/1.1" [])).
  - vm_compute. discriminate.
  - vm_compute. reflexivity.
Defined.

(** C1 as stated fails for a request in the style of HTTP/0.9 (a request
    line without a version): the reply is the error page alone, with no
    header at all. *)
Lemma isolation_headers_counterexample :
  WasmServer.reply (H := Example.lib) Example.world (Example.files "root:x:0:0")
    (Example.request "GET /missing.bin" []) = ["404 File not found"]
  /\ WasmServer.isolated "404 File not found" = false.
Proof. split; vm_compute; reflexivity. Qed.

(** ** Path translation never leaves the root directory *)

Section PathFacts.
Import PyStr HttpServer Confinement.
Context `{PyLib} (w : World).

Lemma find_split (s : string) (sep : ascii) :
  Forall (fun word => (find word sep <? 0) = true) (split s sep).
Proof.
  induction s as [|c s IH]; simpl.
  - repeat constructor.
  - destruct (Ascii.eqb c sep) eqn:Hc.
    + constructor; [reflexivity | exact IH].
    + destruct (split s sep) as [|word words]; simpl.
      * repeat constructor. simpl. now rewrite Hc.
      * inversion IH as [|? ? Hword Hwords]; subst. constructor; [|exact Hwords].
        simpl. rewrite Hc, Hword. reflexivity.
Qed.

Lemma translate_step_confined root p word :
  confined root p -> negb (is_empty word) = true -> (find word "/" <? 0) = true ->
  confined root (translate_step p word).
Proof.
  intros Hp Hne Hslash. unfold translate_step.
  destruct (negb (is_empty (PosixPath.dirname word))); [exact Hp|].
  destruct (String.eqb word ".") eqn:Hdot; [exact Hp|].
  destruct (String.eqb word "..") eqn:Hdotdot; [exact Hp|]. simpl.
  apply confined_join; [exact Hp|].
  unfold simple_name. now rewrite Hne, Hslash, Hdot, Hdotdot.
Qed.

Lemma fold_translate_confined root words : forall p,
  confined root p ->
  Forall (fun word => negb (is_empty word) = true /\ (find word "/" <? 0) = true) words ->
  confined root (fold_left translate_step words p).
Proof.
  induction words as [|word words IH]; intros p Hp Hwords; simpl; [exact Hp|].
  inversion Hwords as [|? ? [Hne Hslash] Hrest]; subst.
  apply IH; [|exact Hrest]. now apply translate_step_confined.
Qed.

(** Whatever the request path, and whatever [unquote] makes of its
    escapes, the translated path is confined to the root directory. *)
Lemma translate_path_confined (url : string) :
  confined (directory w) (translate_path w url).
Proof.
  unfold translate_path.
  set (words := split (PosixPath.normpath (unquote (before (before url "?") "#"))) "/").
  assert (Hwords : Forall (fun word => (find word "/" <? 0) = true) words) by apply find_split.
  assert (Hconf : confined (directory w)
            (fold_left translate_step
               (filter (fun word => negb (is_empty word) = true) words) (directory w))).
  { apply fold_translate_confined; [constructor|].
    clear -Hwords. induction Hwords as [|word words Hword _ IH]; [constructor|].
    rewrite filter_cons. destruct (decide (negb (is_empty word) = true)); [|exact IH].
    constructor; [split; assumption | exact IH]. }
  destruct (endswith _ "/"); [apply confined_slash|]; exact Hconf.
Qed.

End PathFacts.

(** ** The handler and the file system *)

Section Respects.
Import PyStr HttpServer Confinement.

Variable root : string.

Lemma respects_ret {A} (a : A) : respects root (ret a).
Proof. intros h d2 _. split; reflexivity. Qed.

Lemma respects_raise {A} e : respects root (@raise A e).
Proof. intros h d2 _. split; reflexivity. Qed.

Lemma respects_lift {A} (r : result A) : respects root (lift r).
Proof. intros h d2 _. split; reflexivity. Qed.

Lemma respects_get {A} (f : handler -> A) :
  (forall d h, f (with_disk d h) = f h) -> respects root (get f).
Proof. intros Hf h d2 _. unfold get. simpl. now rewrite Hf. Qed.

Lemma respects_modify f :
  (forall h, disk (f h) = disk h) ->
  (forall d h, f (with_disk d h) = with_disk d (f h)) ->
  respects root (modify f).
Proof. intros Hd Hf h d2 _. unfold modify. simpl. now rewrite Hf, Hd. Qed.

Lemma respects_bind {A B} (m : M A) (k : A -> M B) :
  respects root m -> (forall a, respects root (k a)) -> respects root (bind m k).
Proof.
  intros Hm Hk h d2 Hagree. unfold bind.
  destruct (Hm h d2 Hagree) as [Hd Heq]. rewrite Heq.
  destruct (m h) as [[a|e] h1]; simpl in *; [|split; [exact Hd | reflexivity]].
  rewrite <- Hd in Hagree. destruct (Hk a h1 d2 Hagree) as [Hd' Heq'].
  split; [congruence | exact Heq'].
Qed.

Lemma respects_when b m : respects root m -> respects root (when b m).
Proof. destruct b; [auto | intros _; apply respects_ret]. Qed.

Lemma respects_write b : respects root (write b).
Proof.
  intros h d2 _. unfold write. simpl.
  destruct (writes_left h) as [[|n]|]; split; reflexivity.
Qed.

Lemma respects_readline : respects root readline.
Proof.
  intros h d2 _. unfold readline. simpl.
  destruct (rfile h) as [|[raw hb| |] rest]; split; reflexivity.
Qed.

Lemma respects_isdir p : respects root (os_path_isdir p).
Proof.
  intros h d2 (_ & Hdir & _). unfold os_path_isdir, get. simpl. now rewrite Hdir.
Qed.

Lemma respects_islink p : respects root (os_path_islink p).
Proof.
  intros h d2 (_ & _ & Hlink). unfold os_path_islink, get. simpl. now rewrite Hlink.
Qed.

Lemma respects_isfile p : confined root p -> respects root (os_path_isfile p).
Proof.
  intros Hp h d2 (Hlookup & _). unfold os_path_isfile, get, isfile. simpl.
  now rewrite (Hlookup p Hp).
Qed.

Lemma respects_open_rb p : confined root p -> respects root (os_open_rb p).
Proof.
  intros Hp h d2 (Hlookup & _). unfold os_open_rb, get, open_rb. simpl.
  now rewrite (Hlookup p Hp).
Qed.

Lemma respects_listdir p : confined root p -> respects root (os_listdir p).
Proof.
  intros Hp h d2 (Hlookup & _). unfold os_listdir, get, listdir. simpl.
  now rewrite (Hlookup p Hp).
Qed.

End Respects.

Create HintDb respects.
#[local] Hint Resolve respects_ret respects_raise respects_lift respects_when respects_write
  respects_readline respects_isdir respects_islink respects_isfile respects_open_rb
  respects_listdir : respects.

Ltac respects_step :=
  match goal with
  | |- respects _ (bind _ _) => apply respects_bind; [|intros]
  | |- respects _ (when _ _) => apply respects_when
  | |- respects _ (modify _) =>
      apply respects_modify; [intros [] | intros ? []]; reflexivity
  | |- respects _ (get _) => apply respects_get; intros ? []; reflexivity
  | |- respects _ (match (if ?test then _ else _) with _ => _ end) => destruct test
  | |- respects _ (if ?test then _ else _) => destruct test
  | |- respects _ (match ?x with _ => _ end) => destruct x
  | |- respects _ _ => solve [eauto with respects]
  end.

Ltac respects_tac := repeat respects_step.

Section RespectsMethods.
Import PyStr HttpServer SocketServer WasmServer Confinement.
Context `{PyLib} (w : World) (db : Mimetypes.MimeTypes).

#[local] Existing Instance WASMHandler.

Abbreviation root := (directory w).

Lemma respects_log_message message : respects root (log_message message).
Proof.
  intros h d2 _. unfold log_message. simpl.
  destruct (stderr_left h) as [[|n]|]; split; reflexivity.
Qed.

Lemma respects_log_request code : respects root (log_request code).
Proof. unfold log_request. pose proof respects_log_message. respects_tac. Qed.

Lemma respects_append_header_line line : respects root (append_header_line line).
Proof. unfold append_header_line. respects_tac. Qed.

Lemma respects_send_response_only code message :
  respects root (send_response_only code message).
Proof. unfold send_response_only. pose proof respects_append_header_line. respects_tac. Qed.

Lemma respects_send_header keyword value : respects root (send_header keyword value).
Proof. unfold send_header. pose proof respects_append_header_line. respects_tac. Qed.

Lemma respects_date_time_string timestamp : respects root (date_time_string w timestamp).
Proof. unfold date_time_string. respects_tac. Qed.

Lemma respects_send_response code message : respects root (send_response w code message).
Proof.
  unfold send_response. pose proof respects_log_request. pose proof respects_date_time_string.
  pose proof respects_send_response_only. pose proof respects_send_header. respects_tac.
Qed.

Lemma respects_flush_headers : respects root flush_headers.
Proof. unfold flush_headers. respects_tac. Qed.

Lemma respects_Base_end_headers : respects root Base_end_headers.
Proof. unfold Base_end_headers. pose proof respects_flush_headers. respects_tac. Qed.

Lemma respects_end_headers : respects root end_headers.
Proof.
  unfold end_headers, WASMHandler. pose proof respects_send_header.
  pose proof respects_Base_end_headers. respects_tac.
Qed.

Lemma respects_send_error code message explain :
  respects root (send_error w code message explain).
Proof.
  unfold send_error. unfold log_error.
  pose proof respects_log_message. pose proof respects_send_response.
  pose proof respects_send_header. pose proof respects_end_headers. respects_tac.
Qed.

Lemma respects_handle_expect_100 : respects root handle_expect_100.
Proof.
  unfold handle_expect_100. pose proof respects_send_response_only.
  pose proof respects_end_headers. respects_tac.
Qed.

Lemma respects_parse_request_headers : respects root (parse_request_headers w).
Proof.
  unfold parse_request_headers. pose proof respects_send_error.
  pose proof respects_handle_expect_100. respects_tac.
Qed.

Lemma respects_parse_request_words words : respects root (parse_request_words w words).
Proof.
  unfold parse_request_words. pose proof respects_send_error.
  pose proof respects_parse_request_headers. respects_tac.
Qed.

Lemma respects_parse_request : respects root (parse_request w).
Proof.
  unfold parse_request. pose proof respects_send_error.
  pose proof respects_parse_request_words. respects_tac.
Qed.

Lemma respects_copyfileobj fuel : forall source, respects root (copyfileobj fuel source).
Proof.
  induction fuel as [|fuel IH]; intros source; simpl; respects_tac.
Qed.

Lemma respects_list_entries path names : respects root (list_entries path names).
Proof.
  induction names as [|name names IH]; simpl; respects_tac.
Qed.

Lemma respects_list_directory path :
  confined root path -> respects root (list_directory w path).
Proof.
  intros Hpath. unfold list_directory. pose proof respects_send_error.
  pose proof respects_list_entries. pose proof respects_send_response.
  pose proof respects_send_header. pose proof respects_end_headers. respects_tac.
Qed.

Lemma respects_send_head_file path :
  confined root path -> respects root (send_head_file w db path).
Proof.
  intros Hpath. unfold send_head_file. pose proof respects_send_error.
  pose proof respects_send_response. pose proof respects_send_header.
  pose proof respects_date_time_string. pose proof respects_end_headers. respects_tac.
Qed.

Lemma respects_send_head : respects root (send_head w db).
Proof.
  unfold send_head. apply respects_bind; [respects_tac | intros url].
  pose proof (translate_path_confined w url) as Hpath.
  assert (Hhtml : confined root (PosixPath.join (translate_path w url) "index.html"))
    by (apply confined_join; [exact Hpath | reflexivity]).
  assert (Hhtm : confined root (PosixPath.join (translate_path w url) "index.htm"))
    by (apply confined_join; [exact Hpath | reflexivity]).
  pose proof respects_send_response. pose proof respects_send_header.
  pose proof respects_end_headers.
  pose proof (respects_send_head_file _ Hpath).
  pose proof (respects_send_head_file _ Hhtml).
  pose proof (respects_send_head_file _ Hhtm).
  pose proof (respects_list_directory _ Hpath).
  respects_tac.
Qed.

Lemma respects_do_GET : respects root (do_GET w db).
Proof.
  unfold do_GET, copyfile. pose proof respects_send_head. pose proof respects_copyfileobj.
  respects_tac.
Qed.

Lemma respects_do_HEAD : respects root (do_HEAD w db).
Proof. unfold do_HEAD. pose proof respects_send_head. respects_tac. Qed.

Lemma respects_handle_one_request : respects root (handle_one_request w db).
Proof.
  unfold handle_one_request, method. pose proof respects_send_error.
  pose proof respects_parse_request. pose proof respects_do_GET. pose proof respects_do_HEAD.
  respects_tac.
Qed.

Lemma respects_handle_loop fuel : respects root (handle_loop w db fuel).
Proof.
  induction fuel as [|fuel IH]; simpl; pose proof respects_handle_one_request; respects_tac.
Qed.

Lemma respects_handle : respects root (handle w db).
Proof.
  unfold handle. pose proof respects_handle_one_request. pose proof respects_handle_loop.
  respects_tac.
Qed.

End RespectsMethods.

Section ConfinedFacts.
Import PyStr Confinement.

Lemma startswith_refl s : startswith s s = true.
Proof. induction s as [|c s IH]; simpl; [reflexivity|]. now rewrite Ascii.eqb_refl. Qed.

Lemma startswith_app s t prefix : startswith s prefix = true -> startswith (s +:+ t) prefix = true.
Proof.
  revert s. induction prefix as [|c prefix IH]; intros s; simpl; [reflexivity|].
  destruct s as [|d s]; simpl; [discriminate|].
  intros [Hd Hs]%andb_true_iff. now rewrite Hd, (IH _ Hs).
Qed.

Lemma simple_name_relative name : simple_name name = true -> startswith name "/" = false.
Proof.
  unfold simple_name. destruct name as [|c name]; [reflexivity|]. simpl.
  destruct (Ascii.eqb c "/"); [discriminate | reflexivity].
Qed.

(** A confined path starts with the root directory. *)
Lemma confined_startswith root p : confined root p -> startswith p root = true.
Proof.
  induction 1 as [|p name Hp IH Hname|p Hp IH].
  - apply startswith_refl.
  - unfold PosixPath.join. rewrite (simple_name_relative _ Hname).
    destruct (is_empty p || endswith p "/"); now apply startswith_app.
  - now apply startswith_app.
Qed.

End ConfinedFacts.

(** In the example, the file systems [files a] and [files b] differ in
    what [/etc/passwd] holds, outside the root directory [/srv/www]. *)
Lemma example_files_agree (a b : string) :
  Confinement.agree "/srv/www" (Example.files a) (Example.files b).
Proof.
  split; [|split].
  - intros p Hp%confined_startswith. unfold Example.files. simpl.
    destruct (String.eqb_spec p "/etc/passwd") as [->|]; [discriminate|].
    reflexivity.
  - intros p. unfold isdir, Example.files. simpl.
    repeat match goal with |- context [if ?test then _ else _] => destruct test end;
      reflexivity.
  - reflexivity.
Qed.

Section NonInterference.
Import PyStr HttpServer SocketServer WasmServer Confinement.
Context `{PyLib}.

Lemma new_handler_with_disk d1 d2 c : new_handler d2 c = with_disk d2 (new_handler d1 c).
Proof. reflexivity. Qed.

(** The handler leaves the file system as it found it. *)
Lemma serve_disk (w : World) (d : filesystem) (c : connection) : disk (serve w d c).2 = d.
Proof.
  assert (Hagree : agree (directory w) (disk (new_handler d c)) d).
  { split; [|split]; reflexivity. }
  exact (proj1 (respects_handle w (mimetypes_db w) (new_handler d c) d Hagree)).
Qed.


End NonInterference.


(** ** [splitext] *)

Section SplitextFacts.
Import PyStr.

Lemma rfind_bounds s c : -1 <= rfind s c < Z.of_nat (String.length s).
Proof.
  induction s as [|a s IH]; simpl String.length; simpl rfind; [lia|].
  destruct (0 <=? rfind s c) eqn:Hi; [lia|].
  destruct (Ascii.eqb a c); lia.
Qed.

Lemma rfind_absent s c : (find s c <? 0) = true -> rfind s c = -1.
Proof.
  induction s as [|a s IH]; simpl; [reflexivity|].
  destruct (Ascii.eqb a c); [discriminate|].
  destruct (find s c <? 0) eqn:Hf; [|intros ?; lia].
  intros _. rewrite (IH eq_refl). reflexivity.
Qed.

Lemma rfind_app_absent s t c : (find t c <? 0) = true -> rfind (s +:+ t) c = rfind s c.
Proof.
  intros Ht. induction s as [|a s IH]; simpl; [now apply rfind_absent|].
  now rewrite IH.
Qed.

Lemma rfind_app_last s t c :
  (find t c <? 0) = true -> rfind (s +:+ String c t) c = Z.of_nat (String.length s).
Proof.
  intros Ht. induction s as [|a s IH].
  - simpl. rewrite (rfind_absent _ _ Ht). simpl. now rewrite Ascii.eqb_refl.
  - simpl String.length. simpl rfind. rewrite IH.
    destruct (0 <=? Z.of_nat (String.length s)) eqn:Hle; lia.
Qed.

Lemma take_app_length s t : take (Z.of_nat (String.length s)) (s +:+ t) = s.
Proof.
  induction s as [|a s IH].
  - simpl. destruct t; reflexivity.
  - simpl String.length. simpl. destruct (Z.of_nat (S (String.length s)) <=? 0) eqn:Hle; [lia|].
    replace (Z.of_nat (S (String.length s)) - 1) with (Z.of_nat (String.length s)) by lia.
    now rewrite IH.
Qed.

Lemma drop_app_length s t : drop (Z.of_nat (String.length s)) (s +:+ t) = t.
Proof.
  induction s as [|a s IH].
  - simpl. destruct t; reflexivity.
  - simpl String.length. simpl. destruct (Z.of_nat (S (String.length s)) <=? 0) eqn:Hle; [lia|].
    replace (Z.of_nat (S (String.length s)) - 1) with (Z.of_nat (String.length s)) by lia.
    exact IH.
Qed.

Lemma take_drop s : forall i, take i s +:+ drop i s = s.
Proof.
  induction s as [|c s IH]; intros i; simpl; [reflexivity|].
  destruct (i <=? 0); [reflexivity|]. simpl. now rewrite IH.
Qed.

Lemma length_take s : forall i,
  0 <= i <= Z.of_nat (String.length s) -> Z.of_nat (String.length (take i s)) = i.
Proof.
  induction s as [|c s IH]; intros i Hi; simpl in *; [lia|].
  destruct (i <=? 0) eqn:Hi0; simpl; [lia|].
  rewrite Nat2Z.inj_succ, (IH (i - 1)); lia.
Qed.

Lemma take_one a t : take 1 (String a t) = String a EmptyString.
Proof. simpl. destruct t; reflexivity. Qed.

Lemma eqb_one_char a b :
  String.eqb (String a EmptyString) (String b EmptyString) = Ascii.eqb a b.
Proof. simpl. destruct (Ascii.eqb a b); reflexivity. Qed.

(** The loop over the leading dots stops at a character that is no dot,
    if there is one before the last dot. *)
Lemma splitext_loop_finds (a : ascii) (t : string) :
  Ascii.eqb a "." = false ->
  forall s2 s1 p dotIndex,
    p = s1 +:+ s2 +:+ String a t ->
    dotIndex = Z.of_nat (String.length s1) + Z.of_nat (String.length s2) + 1 ->
    PosixPath.splitext_loop p dotIndex (Z.of_nat (String.length s1)) (S (String.length s2))
    = (take dotIndex p, drop dotIndex p).
Proof.
  intros Ha. induction s2 as [|b s2 IH]; intros s1 p dotIndex Hp Hdot.
  - assert (Hchar : take 1 (drop (Z.of_nat (String.length s1)) p) = String a EmptyString)
      by (rewrite Hp; simpl; now rewrite drop_app_length, take_one).
    cbn [PosixPath.splitext_loop]. rewrite Hchar, eqb_one_char, Ha. reflexivity.
  - assert (Hchar : take 1 (drop (Z.of_nat (String.length s1)) p) = String b EmptyString)
      by (rewrite Hp, drop_app_length, sapp_cons; apply take_one).
    simpl String.length. cbn [PosixPath.splitext_loop]. rewrite Hchar.
    destruct (negb (String.eqb (String b EmptyString) ".")); [reflexivity|].
    replace (Z.of_nat (String.length s1) + 1)
      with (Z.of_nat (String.length (s1 +:+ String b EmptyString)))
      by (rewrite slength_app; simpl; lia).
    apply IH.
    + rewrite Hp, sapp_assoc. reflexivity.
    + rewrite Hdot, slength_app. simpl. lia.
Qed.

(** A file name with a character that is neither dot nor slash just
    before its last dot: the extension starts at that dot. *)
Lemma splitext_suffix (pre : string) (a : ascii) (e : string) :
  Ascii.eqb a "." = false -> Ascii.eqb a "/" = false ->
  (find e "." <? 0) = true -> (find e "/" <? 0) = true ->
  PosixPath.splitext (pre +:+ String a (String "." e))
  = (pre +:+ String a EmptyString, String "." e).
Proof.
  intros Hdot Hslash He_dot He_slash. unfold PosixPath.splitext.
  set (p := pre +:+ String a (String "." e)).
  assert (Hp : p = (pre +:+ String a EmptyString) +:+ String "." e)
    by (unfold p; now rewrite sapp_assoc).
  assert (Hdi : rfind p "." = Z.of_nat (String.length pre) + 1).
  { rewrite Hp, rfind_app_last by exact He_dot. rewrite slength_app. simpl. lia. }
  assert (Hsi : rfind p "/" = rfind pre "/").
  { unfold p. apply rfind_app_absent. simpl. rewrite Hslash. simpl.
    destruct (find e "/" <? 0); [reflexivity | discriminate]. }
  rewrite Hdi, Hsi. pose proof (rfind_bounds pre "/") as Hb.
  destruct (rfind pre "/" <? Z.of_nat (String.length pre) + 1) eqn:Hlt; [|lia].
  assert (Hresult : (take (Z.of_nat (String.length pre) + 1) p,
                     drop (Z.of_nat (String.length pre) + 1) p)
                    = (pre +:+ String a EmptyString, String "." e)).
  { replace (Z.of_nat (String.length pre) + 1)
      with (Z.of_nat (String.length (pre +:+ String a EmptyString)))
      by (rewrite slength_app; simpl; lia).
    now rewrite Hp, take_app_length, drop_app_length. }
  rewrite <- Hresult.
  (* the part of the name before the character [a] *)
  set (i := rfind pre "/" + 1) in *.
  assert (Hsplit : exists s1 s2, pre = s1 +:+ s2 /\ Z.of_nat (String.length s1) = i).
  { exists (take i pre), (drop i pre). split.
    - symmetry. apply take_drop.
    - apply length_take. lia. }
  destruct Hsplit as [s1 [s2 [Hpre Hi]]].
  replace (Z.to_nat (Z.of_nat (String.length pre) + 1 - i)) with (S (String.length s2))
    by (rewrite Hpre, slength_app in *; lia).
  rewrite <- Hi. apply (splitext_loop_finds a (String "." e) Hdot s2 s1).
  - unfold p. rewrite Hpre, sapp_assoc. reflexivity.
  - rewrite Hpre, slength_app. lia.
Qed.

End SplitextFacts.

Section GuessTypeTotal.
Import PyStr.

Lemma splitext_replaced base repl pre a e :
  repl = pre +:+ String a (String "." e) ->
  Ascii.eqb a "." = false -> Ascii.eqb a "/" = false ->
  (find e "." <? 0) = true -> (find e "/" <? 0) = true ->
  PosixPath.splitext (base +:+ repl)
  = ((base +:+ pre) +:+ String a EmptyString, String "." e).
Proof. intros ->. intros. rewrite <- sapp_assoc. now apply splitext_suffix. Qed.

(** The loop of [guess_type] over the suffix table ends within the fuel
    given: the replacement of a suffix ends in [.gz], [.bz2] or [.xz], which
    the table does not hold. *)
Lemma guess_type_total (db : Mimetypes.MimeTypes) (url : string) :
  Mimetypes.suffix_map db = Mimetypes._suffix_map_default ->
  is_Some (Mimetypes.guess_type_fuel 2 db url).
Proof.
  intros Hsuffix. unfold Mimetypes.guess_type_fuel.
  destruct (Mimetypes._splittype url) as [scheme rest].
  destruct (bool_decide (scheme = Some "data")).
  { destruct (find rest "," <? 0); eauto. }
  destruct (PosixPath.splitext rest) as [base ext].
  assert (Hloop : is_Some (Mimetypes.suffix_loop db 2 base ext)).
  { unfold Mimetypes.suffix_loop. rewrite Hsuffix.
    destruct (Mimetypes._suffix_map_default !! lower ext) as [repl|] eqn:Hrepl; [|eauto].
    apply elem_of_list_to_map_2 in Hrepl.
    repeat (apply elem_of_cons in Hrepl as [Hrepl|Hrepl]);
      try (apply elem_of_nil in Hrepl; contradiction);
      injection Hrepl as _ ->.
    - rewrite (splitext_replaced base ".svg.gz" ".sv" "g" "gz" eq_refl) by reflexivity. simpl. eauto.
    - rewrite (splitext_replaced base ".tar.gz" ".ta" "r" "gz" eq_refl) by reflexivity. simpl. eauto.
    - rewrite (splitext_replaced base ".tar.gz" ".ta" "r" "gz" eq_refl) by reflexivity. simpl. eauto.
    - rewrite (splitext_replaced base ".tar.gz" ".ta" "r" "gz" eq_refl) by reflexivity. simpl. eauto.
    - rewrite (splitext_replaced base ".tar.bz2" ".ta" "r" "bz2" eq_refl) by reflexivity. simpl. eauto.
    - rewrite (splitext_replaced base ".tar.xz" ".ta" "r" "xz" eq_refl) by reflexivity. simpl. eauto. }
  destruct Hloop as [[base' ext'] ->].
  destruct (Mimetypes.encodings_map db !! ext') as [enc|].
  - destruct (PosixPath.splitext base') as [base'' ext''].
    destruct (Mimetypes.types_map db !! lower ext''); eauto.
  - destruct (Mimetypes.types_map db !! lower ext'); eauto.
Qed.

(** A path with an extension does not end in a slash. *)
Lemma endswith_slash_rfind s :
  endswith s "/" = true -> rfind s "/" = Z.of_nat (String.length s) - 1.
Proof.
  induction s as [|a s IH]; [discriminate|].
  change (endswith (String a s) "/")
    with (if String.eqb (String a s) "/" then true else endswith s "/").
  destruct (String.eqb_spec (String a s) "/") as [Heq|Hne].
  - intros _. injection Heq as -> ->. reflexivity.
  - intros Hs. simpl String.length. simpl rfind. rewrite (IH Hs).
    destruct s as [|b s]; [discriminate|]. simpl String.length.
    destruct (0 <=? Z.of_nat (S (String.length s)) - 1) eqn:Hle; lia.
Qed.

Lemma splitext_extension_no_slash p :
  (PosixPath.splitext p).2 <> EmptyString -> endswith p "/" = false.
Proof.
  intros Hext. destruct (endswith p "/") eqn:Hslash; [|reflexivity].
  exfalso. apply Hext. unfold PosixPath.splitext.
  rewrite (endswith_slash_rfind _ Hslash). pose proof (rfind_bounds p ".").
  destruct (Z.of_nat (String.length p) - 1 <? rfind p ".") eqn:Hlt; [lia | reflexivity].
Qed.

End GuessTypeTotal.

(** ** The content type of a file *)

Section ContentType.
Import PyStr HttpServer WasmServer.
Context `{PyLib} (w : World).

Lemma lower_gz_not_wasm (m : gmap string string) ext (keys : list (string * string)) :
  m = list_to_map keys ->
  Forall (fun kv => String.eqb (lower kv.1) ".wasm" = false) keys ->
  lower ext = ".wasm" -> m !! ext = None.
Proof.
  intros -> Hkeys Hext. destruct (list_to_map keys !! ext) as [v|] eqn:Hlookup; [|reflexivity].
  apply elem_of_list_to_map_2 in Hlookup.
  rewrite Forall_forall in Hkeys. specialize (Hkeys _ Hlookup). simpl in Hkeys.
  rewrite Hext in Hkeys. discriminate.
Qed.

Lemma splittype_absolute rest :
  Mimetypes._splittype (String "/" rest) = (None, String "/" rest).
Proof. reflexivity. Qed.

(** The registry after the program's [add_type], asked for a path whose
    extension is [.wasm] in any letter case. *)
Lemma mimetypes_guess_wasm rest base ext :
  PosixPath.splitext (String "/" rest) = (base, ext) -> lower ext = ".wasm" ->
  Mimetypes.guess_type (mimetypes_db w) (String "/" rest) = (Some "application/wasm", None).
Proof.
  intros Hsplit Hext. unfold Mimetypes.guess_type, Mimetypes.guess_type_fuel.
  rewrite splittype_absolute. rewrite bool_decide_eq_false_2 by discriminate.
  rewrite Hsplit. unfold Mimetypes.suffix_loop. simpl Mimetypes.suffix_map. rewrite Hext.
  change (Mimetypes._suffix_map_default !! ".wasm") with (@None string).
  cbv beta iota. simpl Mimetypes.encodings_map.
  rewrite (lower_gz_not_wasm Mimetypes._encodings_map_default ext _ eq_refl); [|
    repeat constructor | exact Hext].
  rewrite Hext. unfold mimetypes_db, Mimetypes.add_type. simpl Mimetypes.types_map.
  rewrite lookup_insert_eq. reflexivity.
Qed.

Lemma guess_type_wasm rest base ext :
  PosixPath.splitext (String "/" rest) = (base, ext) -> lower ext = ".wasm" ->
  guess_type (mimetypes_db w) (String "/" rest) = "application/wasm".
Proof.
  intros Hsplit Hext. unfold guess_type. rewrite Hsplit.
  rewrite (lower_gz_not_wasm extensions_map ext _ eq_refl); [| repeat constructor | exact Hext].
  rewrite Hext. change (extensions_map !! ".wasm") with (@None string).
  rewrite (mimetypes_guess_wasm _ _ _ Hsplit Hext). reflexivity.
Qed.

End ContentType.

(** ** The reply to a well-formed request, byte for byte *)

(** Runs the first method of a sequence by the equation [lem] gives. *)
Ltac run_with lem := erewrite bind_Ok; [|lem]; cbv beta.

Ltac plain_header Hrv :=
  apply send_header_plain; [simpl request_version; exact Hrv | reflexivity].

(** Reduces the attributes of a state built by setters. *)
Ltac state_simpl :=
  cbn [disk rfile pending_headers writes_left wfile stderr stderr_left raw_requestline
       requestline command path request_version headers close_connection _headers_buffer
       set_rfile set_pending_headers set_writes_left set_wfile set_stderr set_stderr_left
       set_raw_requestline set_requestline set_command set_path set_request_version
       set_headers set_close_connection set_headers_buffer buffered logged wrote
       HttpServer.self_path].

Ltac run := erewrite bind_Ok; [|reflexivity]; cbv beta; state_simpl.

Ltac run_header Hrv :=
  erewrite bind_Ok; [|apply send_header_plain; [state_simpl; exact Hrv | reflexivity]];
  cbv beta.

Section ExactReplies.
Import PyStr HttpServer SocketServer WasmServer Confinement.
Context `{PyLib} (w : World).

#[local] Existing Instance WASMHandler.

Lemma buffered_buffered l1 l2 h : buffered l2 (buffered l1 h) = buffered (l1 ++ l2) h.
Proof. destruct h. unfold buffered. simpl. now rewrite <- List.app_assoc. Qed.

Lemma log_message_run message h :
  stderr_left h = None -> log_message message h = (Ok tt, logged [message] h).
Proof. intros Hs. unfold log_message. now rewrite Hs. Qed.

Lemma log_request_run code h :
  stderr_left h = None ->
  log_request code h
  = (Ok tt, logged [dquote +:+ requestline h +:+ dquote +:+ " " +:+ of_Z code +:+ " -"] h).
Proof. intros Hs. unfold log_request. run. now apply log_message_run. Qed.

Lemma date_time_string_now h : date_time_string w None h = (Ok (formatdate (clock w)), h).
Proof.
  unfold date_time_string, fromtimestamp. cbn [default from_option id].
  now rewrite (clock_holds w).
Qed.

Lemma date_time_string_of mtime h :
  datetime_holds mtime = true ->
  date_time_string w (Some mtime) h = (Ok (formatdate mtime), h).
Proof.
  intros Hholds. unfold date_time_string, fromtimestamp. cbn [default from_option id].
  now rewrite Hholds.
Qed.

Lemma send_response_only_run code message h :
  String.eqb (request_version h) "HTTP/0.9" = false ->
  send_response_only code (Some message) h = (Ok tt, buffered [status_line code message] h).
Proof.
  intros Hrv. unfold send_response_only, bind, get, append_header_line, modify. simpl.
  rewrite Hrv. reflexivity.
Qed.

Lemma send_response_run code message h :
  String.eqb (request_version h) "HTTP/0.9" = false ->
  stderr_left h = None ->
  send_response w code (Some message) h
  = (Ok tt, buffered [status_line code message;
                      header_line ("Server", version_string);
                      header_line ("Date", formatdate (clock w))]
              (logged [dquote +:+ requestline h +:+ dquote +:+ " " +:+ of_Z code +:+ " -"] h)).
Proof.
  intros Hrv Hs. unfold send_response.
  run_with ltac:(apply log_request_run; exact Hs).
  run_with ltac:(apply send_response_only_run; simpl request_version; exact Hrv).
  run_with ltac:(plain_header Hrv).
  run_with ltac:(apply date_time_string_now).
  erewrite send_header_plain; [|simpl request_version; exact Hrv | reflexivity].
  now rewrite !buffered_buffered.
Qed.

Lemma send_response_only_phrase code h :
  String.eqb (request_version h) "HTTP/0.9" = false ->
  send_response_only code None h
  = (Ok tt, buffered [status_line code
                        match responses code with Some (phrase, _) => phrase | None => EmptyString end]
              h).
Proof.
  intros Hrv. unfold send_response_only, bind, get, append_header_line, modify. simpl.
  rewrite Hrv. reflexivity.
Qed.

Lemma send_response_phrase code h :
  String.eqb (request_version h) "HTTP/0.9" = false ->
  stderr_left h = None ->
  send_response w code None h
  = (Ok tt, buffered [status_line code
                        match responses code with Some (phrase, _) => phrase | None => EmptyString end;
                      header_line ("Server", version_string);
                      header_line ("Date", formatdate (clock w))]
              (logged [dquote +:+ requestline h +:+ dquote +:+ " " +:+ of_Z code +:+ " -"] h)).
Proof.
  intros Hrv Hs. unfold send_response.
  run_with ltac:(apply log_request_run; exact Hs).
  run_with ltac:(apply send_response_only_phrase; simpl request_version; exact Hrv).
  run_with ltac:(plain_header Hrv).
  run_with ltac:(apply date_time_string_now).
  erewrite send_header_plain; [|simpl request_version; exact Hrv | reflexivity].
  now rewrite !buffered_buffered.
Qed.

(** [WASMHandler.end_headers] when the peer takes the block: the lines
    buffered so far, the two headers and the blank line go out as one
    chunk. *)
Lemma end_headers_run lines h :
  String.eqb (request_version h) "HTTP/0.9" = false ->
  _headers_buffer h = Some lines ->
  writes_left h = None ->
  end_headers h
  = (Ok tt,
     set_headers_buffer (Some [])
       (wrote [String.concat EmptyString
                 (lines ++ [header_line ("Cross-Origin-Embedder-Policy", "require-corp");
                            header_line ("Cross-Origin-Opener-Policy", "same-origin"); CRLF])] h)).
Proof.
  intros Hrv Hbuf Hw. unfold end_headers, WASMHandler.
  run_with ltac:(plain_header Hrv).
  run_with ltac:(plain_header Hrv).
  rewrite buffered_buffered.
  unfold Base_end_headers, flush_headers, bind, get, modify, write, buffered, wrote.
  destruct h. simpl in *. subst. rewrite Hrv. simpl. rewrite <- !List.app_assoc. reflexivity.
Qed.

Lemma wrote_nil h : wrote [] h = h.
Proof. destruct h. unfold wrote, set_wfile. simpl. now rewrite List.app_nil_r. Qed.

Lemma wrote_wrote l1 l2 h : wrote l2 (wrote l1 h) = wrote (l1 ++ l2) h.
Proof. destruct h. unfold wrote. simpl. now rewrite <- List.app_assoc. Qed.

Lemma write_run b h : writes_left h = None -> write b h = (Ok tt, wrote [b] h).
Proof. intros Hw. unfold write. now rewrite Hw. Qed.

Lemma take_empty s i : 0 < i -> take i s = EmptyString -> s = EmptyString.
Proof. destruct s as [|c s]; [reflexivity|]. simpl. destruct (i <=? 0) eqn:Hi; [lia | discriminate]. Qed.

Lemma length_drop s : forall i,
  0 < i -> s <> EmptyString -> (String.length (drop i s) < String.length s)%nat.
Proof.
  induction s as [|c s IH]; intros i Hi Hs; [contradiction|].
  simpl. destruct (i <=? 0) eqn:Hi0; [lia|].
  destruct s as [|c' s]; [simpl; lia|].
  destruct (Z.eq_dec i 1) as [->|Hne].
  - simpl. lia.
  - specialize (IH (i - 1)). assert (String.length (drop (i - 1) (String c' s))
                                     < String.length (String c' s))%nat by (apply IH; [lia | discriminate]).
    lia.
Qed.

(** [copyfileobj] with a peer that takes every write: the loop ends
    within the fuel, and the chunks it wrote make up the source. *)
Lemma copyfileobj_writes fuel : forall source h,
  writes_left h = None -> (String.length source < fuel)%nat ->
  exists chunks, copyfileobj fuel source h = (Ok tt, wrote chunks h)
                 /\ String.concat EmptyString chunks = source.
Proof.
  induction fuel as [|fuel IH]; intros source h Hw Hlen; [lia|].
  cbn [copyfileobj]. destruct (take COPY_BUFSIZE source) as [|c buf] eqn:Hbuf.
  - exists []. rewrite wrote_nil. split; [reflexivity|].
    symmetry. apply (take_empty _ COPY_BUFSIZE); [reflexivity | exact Hbuf].
  - cbn [is_empty]. rewrite (bind_Ok _ _ _ _ _ (write_run (String c buf) h Hw)).
    assert (Hsource : source <> EmptyString) by (intros ->; discriminate).
    destruct (IH (drop COPY_BUFSIZE source) (wrote [String c buf] h) Hw) as [chunks [Hrun Hcat]].
    { pose proof (length_drop source COPY_BUFSIZE eq_refl Hsource). lia. }
    exists (String c buf :: chunks). rewrite Hrun, wrote_wrote. split; [reflexivity|].
    change (String c buf :: chunks) with ([String c buf] ++ chunks).
    rewrite concat_app, Hcat, <- Hbuf. apply take_drop.
Qed.

Lemma copyfile_run source h :
  writes_left h = None ->
  exists chunks, copyfile source h = (Ok tt, wrote chunks h)
                 /\ String.concat EmptyString chunks = source.
Proof. intros Hw. apply copyfileobj_writes; [exact Hw | lia]. Qed.

Lemma send_head_file_found db f content mtime h :
  String.eqb (request_version h) "HTTP/0.9" = false ->
  default [] (_headers_buffer h) = [] ->
  writes_left h = None ->
  stderr_left h = None ->
  endswith f "/" = false ->
  open_rb (disk h) f = Ok (content, mtime) ->
  datetime_holds mtime = true ->
  not_modified (headers h) mtime = Ok false ->
  send_head_file w db f h
  = (Ok (Some content),
     set_headers_buffer (Some [])
       (wrote [header_block w 200 "OK"
                 [("Content-type", guess_type db f);
                  ("Content-Length", of_Z (Z.of_nat (String.length content)));
                  ("Last-Modified", formatdate mtime)]]
          (logged [dquote +:+ requestline h +:+ dquote +:+ " " +:+ of_Z 200 +:+ " -"] h))).
Proof.
  intros Hrv Hbuf Hw Hs Hslash Hopen Hholds Hnm. unfold send_head_file. rewrite Hslash.
  unfold os_open_rb. run. rewrite Hopen. run. rewrite Hnm. run.
  run_with ltac:(apply send_response_phrase; [exact Hrv | exact Hs]).
  run_header Hrv. run_header Hrv.
  run_with ltac:(apply date_time_string_of; exact Hholds).
  run_header Hrv.
  rewrite !buffered_buffered.
  erewrite bind_Ok; [|apply end_headers_run; state_simpl;
                      [exact Hrv | rewrite Hbuf; reflexivity | exact Hw]].
  unfold ret. f_equal.
Qed.

Lemma parse_request_run cmd url version major minor base hs h :
  pending_headers h = HeaderLines hs ->
  words (rstrip is_newline (raw_requestline h)) = [cmd; url; version] ->
  parse_version w version = Ok (major, minor, base) ->
  pair_ge (major, minor) (2, 0) = false ->
  parse_request w h = (Ok true, parsed cmd url version hs h).
Proof.
  intros Hpending Hwords Hversion Hlow. unfold parse_request.
  run. run. run. run. run. rewrite Hwords. cbn [length Nat.eqb Nat.leb last default from_option id].
  change (3 <=? 3)%nat with true. cbv iota.
  rewrite Hversion.
  replace (str_ge protocol_version "HTTP/1.1") with false by reflexivity.
  rewrite andb_false_r. cbn [when]. rewrite Hlow.
  run. cbn [negb]. unfold parse_request_words.
  cbn [length Z.of_nat].
  change (negb ((2 <=? Z.of_nat 3) && (Z.of_nat 3 <=? 3))) with false.
  change (Z.of_nat 3 =? 2) with false. cbv iota.
  run. cbn [negb]. run. run. run.
  unfold parse_request_headers. run. rewrite Hpending. run.
  replace (str_ge protocol_version "HTTP/1.1") with false by reflexivity.
  rewrite !andb_false_r. cbn [andb].
  destruct (String.eqb (lower (default EmptyString (header_get hs "Connection"))) "close");
    run; run; unfold ret, parsed; destruct h; reflexivity.
Qed.

(** [handle_one_request] up to the dispatch on the command. *)
Lemma handle_one_request_parsed db raw cmd url version hs more h :
  rfile h = Line raw (HeaderLines hs) :: more ->
  accepted_request w raw cmd url version ->
  handle_one_request w db h
  = match method w db cmd with
    | None => send_error w 501 (Some ("Unsupported method (" +:+ repr cmd +:+ ")")) None
    | Some m => m
    end (parsed cmd url version hs
           (set_raw_requestline raw (set_pending_headers (HeaderLines hs) (set_rfile more h)))).
Proof.
  intros Hrfile (Hlen & Hwords & (major & minor & base & Hversion & Hlow) & _).
  unfold handle_one_request.
  erewrite bind_Ok; [|unfold readline; rewrite Hrfile; reflexivity]. cbv beta.
  run. destruct (65536 <? Z.of_nat (String.length raw)) eqn:Hlong; [lia|].
  destruct raw as [|c raw]; [discriminate|]. cbn [is_empty].
  erewrite bind_Ok; [|eapply parse_request_run; state_simpl; eauto]. cbv beta.
  cbn [negb]. run. reflexivity.
Qed.

Lemma send_head_of_file db h :
  isdir (disk h) (translate_path w (path h)) = false ->
  send_head w db h = send_head_file w db (translate_path w (path h)) h.
Proof.
  intros Hdir. unfold send_head. run. unfold os_path_isdir. run. unfold self_path.
  now rewrite Hdir.
Qed.

(** What [open] opens is a file that can be read, at a path without a
    null character. *)
Lemma open_rb_Ok d f content mtime :
  open_rb d f = Ok (content, mtime)
  <-> has_nul f = false /\ lookup d f = Some (File (Some content) mtime).
Proof.
  unfold open_rb.
  destruct (lookup d f) as [[[bytes|] mtime'|entries|]|]; destruct (has_nul f); split;
    try discriminate; try (intros [[=] _]; fail); try (intros [_ [=]]; fail).
  - intros [= -> ->]. split; reflexivity.
  - intros [_ [= -> ->]]. reflexivity.
Qed.

Lemma open_rb_isdir d f content mtime : open_rb d f = Ok (content, mtime) -> isdir d f = false.
Proof. intros [_ Hfile]%open_rb_Ok. unfold isdir. rewrite Hfile. apply andb_false_r. Qed.

Lemma open_rb_isfile d f content mtime : open_rb d f = Ok (content, mtime) -> isfile d f = true.
Proof. intros [Hnul Hfile]%open_rb_Ok. unfold isfile. now rewrite Hnul, Hfile. Qed.

(** The reply to a [GET] for a readable file, to a client that reads all
    of it: the header block of a 200, then the bytes of the file. *)
Lemma get_file_reply raw url version hs more d f content mtime :
  accepted_request w raw "GET" url version ->
  translate_path w (reduce_slashes url) = f ->
  endswith f "/" = false ->
  open_rb d f = Ok (content, mtime) ->
  datetime_holds mtime = true ->
  not_modified hs mtime = Ok false ->
  exists chunks,
    reply w d {| arrivals := Line raw (HeaderLines hs) :: more; peer_takes := None |}
    = header_block w 200 "OK"
        [("Content-type", guess_type (mimetypes_db w) f);
         ("Content-Length", of_Z (Z.of_nat (String.length content)));
         ("Last-Modified", formatdate mtime)] :: chunks
    /\ String.concat EmptyString chunks = content.
Proof.
  intros Hreq <- Hslash Hfile Hholds Hnm. unfold reply, serve, WASMHandler_handle.
  rewrite handle_once by reflexivity.
  erewrite handle_one_request_parsed; [|reflexivity | exact Hreq].
  destruct Hreq as (_ & _ & _ & Hversion%String.eqb_neq).
  change (method w (mimetypes_db w) "GET") with (Some (do_GET w (mimetypes_db w))).
  cbv iota. unfold do_GET.
  erewrite bind_Ok; [|rewrite send_head_of_file;
    [apply send_head_file_found; unfold parsed; state_simpl;
       [exact Hversion | reflexivity | reflexivity | reflexivity | exact Hslash
       | exact Hfile | exact Hholds | exact Hnm]
    | apply (open_rb_isdir _ _ _ _ Hfile)]].
  cbv beta iota.
  edestruct copyfile_run as [chunks [Hcopy Hcat]]; [|rewrite Hcopy]; [reflexivity|].
  exists chunks. split; [reflexivity | exact Hcat].
Qed.

Lemma send_header_close h :
  String.eqb (request_version h) "HTTP/0.9" = false ->
  send_header "Connection" "close" h
  = (Ok tt, set_close_connection true (buffered [header_line ("Connection", "close")] h)).
Proof.
  intros Hrv. unfold send_header, bind, get, when, append_header_line, modify. simpl.
  rewrite Hrv. reflexivity.
Qed.

(** [send_error] for a status that has a page, to a client that reads all
    of the reply. *)
Lemma send_error_run code message short long h :
  String.eqb (request_version h) "HTTP/0.9" = false ->
  default [] (_headers_buffer h) = [] ->
  writes_left h = None ->
  stderr_left h = None ->
  responses code = Some (short, long) ->
  (200 <=? code) && negb ((code =? 204) || (code =? 205) || (code =? 304)) = true ->
  send_error w code (Some message) None h
  = (Ok tt,
     set_headers_buffer (Some [])
       (wrote (header_block w code message
                 [("Connection", "close");
                  ("Content-Type", error_content_type);
                  ("Content-Length",
                   of_Z (Z.of_nat (String.length (error_page code message long))))]
               :: error_body (command h) (error_page code message long))
          (set_close_connection true
             (logged ["code " +:+ of_Z code +:+ ", message " +:+ message;
                      dquote +:+ requestline h +:+ dquote +:+ " " +:+ of_Z code +:+ " -"] h)))).
Proof.
  intros Hrv Hbuf Hw Hs Hresp Hpage. unfold send_error. rewrite Hresp.
  cbn [default from_option id]. unfold log_error.
  run_with ltac:(apply log_message_run; exact Hs).
  run_with ltac:(apply send_response_run; state_simpl; [exact Hrv | exact Hs]).
  erewrite bind_Ok; [|apply send_header_close; state_simpl; exact Hrv]. cbv beta.
  rewrite Hpage.
  erewrite bind_Ok; [|run_header Hrv; run_header Hrv; reflexivity]. cbv beta.
  rewrite !buffered_buffered.
  erewrite bind_Ok; [|apply end_headers_run; state_simpl;
                      [exact Hrv | rewrite Hbuf; reflexivity | exact Hw]]. cbv beta.
  run. unfold error_body.
  destruct (negb (bool_decide (command h = Some "HEAD"))
            && negb (is_empty (error_page code message long))); cbn [when].
  - rewrite write_run by exact Hw. destruct h. cbn in *. subst. f_equal.
    unfold wrote, logged. cbn. rewrite <- !List.app_assoc. reflexivity.
  - destruct h. cbn in *. subst. unfold ret, wrote, logged. cbn.
    rewrite <- !List.app_assoc. reflexivity.
Qed.

Lemma missing_isdir d f : missing d f -> isdir d f = false.
Proof. unfold isdir. intros [_ [-> | [mtime ->]]]; apply andb_false_r. Qed.

Lemma missing_open_rb d f : missing d f -> open_rb d f = Raise OSError.
Proof. unfold open_rb. now intros [-> [-> | [mtime ->]]]. Qed.

Lemma send_head_file_missing db f h :
  String.eqb (request_version h) "HTTP/0.9" = false ->
  default [] (_headers_buffer h) = [] ->
  writes_left h = None ->
  stderr_left h = None ->
  missing (disk h) f ->
  exists h',
    send_head_file w db f h = (Ok None, h')
    /\ wfile h'
       = wfile h
         ++ header_block w 404 "File not found"
              [("Connection", "close");
               ("Content-Type", error_content_type);
               ("Content-Length",
                of_Z (Z.of_nat (String.length
                                  (error_page 404 "File not found"
                                              "Nothing matches the given URI"))))]
            :: error_body (command h)
                 (error_page 404 "File not found" "Nothing matches the given URI").
Proof.
  intros Hrv Hbuf Hw Hs Hmissing. unfold send_head_file, os_open_rb.
  pose proof (send_error_run 404 "File not found" _ _ h Hrv Hbuf Hw Hs eq_refl eq_refl)
    as Herror.
  eexists. destruct (endswith f "/").
  - rewrite (bind_Ok _ _ _ _ _ Herror). split; reflexivity.
  - run. rewrite (missing_open_rb _ _ Hmissing).
    rewrite (bind_Ok _ _ _ _ _ Herror). split; reflexivity.
Qed.

Lemma send_head_file_not_modified db f content mtime h :
  String.eqb (request_version h) "HTTP/0.9" = false ->
  default [] (_headers_buffer h) = [] ->
  writes_left h = None ->
  stderr_left h = None ->
  endswith f "/" = false ->
  open_rb (disk h) f = Ok (content, mtime) ->
  not_modified (headers h) mtime = Ok true ->
  send_head_file w db f h
  = (Ok None,
     set_headers_buffer (Some [])
       (wrote [header_block w 304 "Not Modified" []]
          (logged [dquote +:+ requestline h +:+ dquote +:+ " " +:+ of_Z 304 +:+ " -"] h))).
Proof.
  intros Hrv Hbuf Hw Hs Hslash Hopen Hnm. unfold send_head_file. rewrite Hslash.
  unfold os_open_rb. run. rewrite Hopen. run. rewrite Hnm. run.
  run_with ltac:(apply send_response_phrase; [exact Hrv | exact Hs]).
  erewrite bind_Ok; [|apply end_headers_run; state_simpl;
                      [exact Hrv | rewrite Hbuf; reflexivity | exact Hw]].
  unfold ret. f_equal.
Qed.

(** A conditional [GET] for a file that was not modified since: the
    header block of a 304, and no body. *)
Lemma get_file_not_modified_reply raw url version hs more d f content mtime :
  accepted_request w raw "GET" url version ->
  translate_path w (reduce_slashes url) = f ->
  endswith f "/" = false ->
  open_rb d f = Ok (content, mtime) ->
  not_modified hs mtime = Ok true ->
  reply w d {| arrivals := Line raw (HeaderLines hs) :: more; peer_takes := None |}
  = [header_block w 304 "Not Modified" []].
Proof.
  intros Hreq <- Hslash Hfile Hnm. unfold reply, serve, WASMHandler_handle.
  rewrite handle_once by reflexivity.
  erewrite handle_one_request_parsed; [|reflexivity | exact Hreq].
  destruct Hreq as (_ & _ & _ & Hversion%String.eqb_neq).
  change (method w (mimetypes_db w) "GET") with (Some (do_GET w (mimetypes_db w))).
  cbv iota. unfold do_GET.
  erewrite bind_Ok; [|rewrite send_head_of_file;
    [apply (send_head_file_not_modified _ _ content mtime); unfold parsed; state_simpl;
       [exact Hversion | reflexivity | reflexivity | reflexivity | exact Hslash
       | exact Hfile | exact Hnm]
    | apply (open_rb_isdir _ _ _ _ Hfile)]].
  reflexivity.
Qed.

(** The reply to a [GET] or [HEAD] for a path with nothing to open: the
    header block of a 404 and, for a [GET], the error page. *)
Lemma missing_file_reply raw cmd url version hs more d f :
  accepted_request w raw cmd url version ->
  cmd = "GET" \/ cmd = "HEAD" ->
  translate_path w (reduce_slashes url) = f ->
  missing d f ->
  reply w d {| arrivals := Line raw (HeaderLines hs) :: more; peer_takes := None |}
  = header_block w 404 "File not found"
      [("Connection", "close");
       ("Content-Type", error_content_type);
       ("Content-Length",
        of_Z (Z.of_nat (String.length
                          (error_page 404 "File not found" "Nothing matches the given URI"))))]
    :: error_body (Some cmd) (error_page 404 "File not found" "Nothing matches the given URI").
Proof.
  intros Hreq Hcmd <- Hmissing. unfold reply, serve, WASMHandler_handle.
  rewrite handle_once by reflexivity.
  erewrite handle_one_request_parsed; [|reflexivity | exact Hreq].
  destruct Hreq as (_ & _ & _ & Hversion%String.eqb_neq).
  set (h := parsed cmd url version hs _).
  destruct (send_head_file_missing (mimetypes_db w) (translate_path w (reduce_slashes url)) h)
    as [h' [Hrun Hwfile]];
    [exact Hversion | reflexivity | reflexivity | reflexivity | exact Hmissing |].
  assert (Hhead : send_head w (mimetypes_db w) h = (Ok None, h')).
  { rewrite send_head_of_file; [exact Hrun | apply (missing_isdir _ _ Hmissing)]. }
  destruct Hcmd as [-> | ->].
  - change (method w (mimetypes_db w) "GET") with (Some (do_GET w (mimetypes_db w))).
    cbv iota. unfold do_GET. rewrite (bind_Ok _ _ _ _ _ Hhead). exact Hwfile.
  - change (method w (mimetypes_db w) "HEAD") with (Some (do_HEAD w (mimetypes_db w))).
    cbv iota. unfold do_HEAD. rewrite (bind_Ok _ _ _ _ _ Hhead). exact Hwfile.
Qed.

(** The path a request is translated to is absolute. *)
Lemma translate_path_absolute url : exists rest, translate_path w url = String "/" rest.
Proof.
  pose proof (confined_startswith _ _ (translate_path_confined w url)) as Hstart.
  unfold directory, getcwd in Hstart.
  destruct (translate_path w url) as [|c rest]; [discriminate|].
  cbn [startswith] in Hstart. apply andb_true_iff in Hstart as [Hc _].
  apply Ascii.eqb_eq in Hc as ->. now exists rest.
Qed.

End ExactReplies.

(** ** Files with the extension [.wasm], and paths with nothing to open *)

Section ServedFiles.
Import PyStr HttpServer SocketServer WasmServer Confinement.
Context `{PyLib} (w : World).

(** The reply to a [GET] for a readable file whose extension is [.wasm]
    in any letter case. *)
Lemma wasm_reply d raw url version hs more f content mtime :
  accepted_request w raw "GET" url version ->
  translate_path w (reduce_slashes url) = f ->
  lower (PosixPath.splitext f).2 = ".wasm" ->
  open_rb d f = Ok (content, mtime) ->
  guess_type (mimetypes_db w) f = "application/wasm"
  /\ (datetime_holds mtime = true -> not_modified hs mtime = Ok false ->
      exists chunks,
        reply w d {| arrivals := Line raw (HeaderLines hs) :: more; peer_takes := None |}
        = header_block w 200 "OK"
            [("Content-type", "application/wasm");
             ("Content-Length", of_Z (Z.of_nat (String.length content)));
             ("Last-Modified", formatdate mtime)] :: chunks
        /\ String.concat EmptyString chunks = content)
  /\ (not_modified hs mtime = Ok true ->
      reply w d {| arrivals := Line raw (HeaderLines hs) :: more; peer_takes := None |}
      = [header_block w 304 "Not Modified" []]).
Proof.
  intros Hreq Hf Hext Hfile.
  assert (Hslash : endswith f "/" = false).
  { apply splitext_extension_no_slash. intros Hnone. rewrite Hnone in Hext. discriminate. }
  assert (Htype : guess_type (mimetypes_db w) f = "application/wasm").
  { destruct (translate_path_absolute w (reduce_slashes url)) as [rest Hrest].
    rewrite Hf in Hrest. rewrite Hrest in Hext |- *.
    destruct (PosixPath.splitext (String "/" rest)) as [base ext] eqn:Hsplit.
    exact (guess_type_wasm w rest base ext Hsplit Hext). }
  split; [exact Htype|]. split.
  - intros Hholds Hnm. rewrite <- Htype.
    now apply (get_file_reply w raw url version hs more d f content mtime).
  - intros Hnm.
    now apply (get_file_not_modified_reply w raw url version hs more d f content mtime).
Qed.


(** C10, as amended.  The type of a file is looked up by its extension in
    lower case: a path the handler translates a request to, whose extension
    is [.wasm] in any letter case ([.WASM], [.Wasm]), has the type
    [application/wasm]; and a [GET] that is answered with the file has that
    type as its [Content-type].  The extension is what [posixpath.splitext]
    splits off: the end of the name from its last dot, when a character
    other than a dot comes before that dot in the name. *)
Theorem wasm_extension_in_any_letter_case (url f : string) :
  translate_path w (reduce_slashes url) = f ->
  lower (PosixPath.splitext f).2 = ".wasm" ->
  guess_type (mimetypes_db w) f = "application/wasm"
  /\ forall d raw version hs more content mtime,
       accepted_request w raw "GET" url version ->
       open_rb d f = Ok (content, mtime) ->
       datetime_holds mtime = true ->
       not_modified hs mtime = Ok false ->
       exists length_and_date chunks,
         reply w d {| arrivals := Line raw (HeaderLines hs) :: more; peer_takes := None |}
         = header_block w 200 "OK" (("Content-type", "application/wasm") :: length_and_date)
           :: chunks.
Proof.
  intros Hf Hext. split.
  - destruct (translate_path_absolute w (reduce_slashes url)) as [rest Hrest].
    rewrite Hf in Hrest. rewrite Hrest in Hext |- *.
    destruct (PosixPath.splitext (String "/" rest)) as [base ext] eqn:Hsplit.
    exact (guess_type_wasm w rest base ext Hsplit Hext).
  - intros d raw version hs more content mtime Hreq Hfile Hholds Hnm.
    destruct (wasm_reply d raw url version hs more f content mtime Hreq Hf Hext Hfile)
      as [_ [Hsent _]].
    destruct (Hsent Hholds Hnm) as [chunks [Hreply _]]. eexists _, chunks. exact Hreply.
Qed.


End ServedFiles.

(** The request lines of the examples are ones the server takes. *)
Lemma example_request_accepted (cmd url : string) :
  Z.of_nat (String.length (cmd +:+ " " +:+ url +:+ " HTTP/1.1" +:+ HttpServer.CRLF)) <= 65536 ->
  PyStr.words (PyStr.rstrip HttpServer.is_newline
                 (cmd +:+ " " +:+ url +:+ " HTTP/1.1" +:+ HttpServer.CRLF))
  = [cmd; url; "HTTP/1.1"] ->
  accepted_request Example.world (cmd +:+ " " +:+ url +:+ " HTTP/1.1" +:+ HttpServer.CRLF)
    cmd url "HTTP/1.1".
Proof.
  intros Hlen Hwords. split; [exact Hlen|]. split; [exact Hwords|]. split; [|discriminate].
  exists 1, 1, "1.1". split; reflexivity.
Qed.



(** [GET /APP.WASM HTTP/1.1]: the type is [application/wasm]. *)
Lemma wasm_extension_in_any_letter_case_witness :
  HttpServer.guess_type (WasmServer.mimetypes_db Example.world) "/srv/www/APP.WASM"
  = "application/wasm"
  /\ exists length_and_date chunks,
       WasmServer.reply (H := Example.lib) Example.world (Example.files "root:x:0:0")
         (Example.request "GET /APP.WASM HTTP/1.1" [])
       = WasmServer.header_block (H := Example.lib) Example.world 200 "OK"
           (("Content-type", "application/wasm") :: length_and_date) :: chunks.
Proof.
  destruct (wasm_extension_in_any_letter_case (H := Example.lib) Example.world
              "/APP.WASM" "/srv/www/APP.WASM" eq_refl eq_refl) as [Htype Hsent].
  split; [exact Htype|].
  apply (Hsent (Example.files "root:x:0:0") ("GET /APP.WASM HTTP/1.1" +:+ HttpServer.CRLF)
           "HTTP/1.1" [] [] "more-bytes" 1700000000
           (example_request_accepted "GET" "/APP.WASM" ltac:(vm_compute; discriminate) eq_refl)
           eq_refl eq_refl eq_refl).
Defined.

(** C10 as stated fails for the file [.WASM] of the example: its name
    ends in [.WASM], it has no extension, since the name begins with its
    only dot, and it is served as [application/octet-stream]. *)
Lemma dot_file_counterexample :
  PyStr.endswith "/srv/www/.WASM" ".WASM" = true
  /\ HttpServer.translate_path (H := Example.lib) Example.world "/.WASM" = "/srv/www/.WASM"
  /\ open_rb (Example.files "root:x:0:0") "/srv/www/.WASM" = Ok ("dot-bytes", 1700000000)
  /\ PosixPath.splitext "/srv/www/.WASM" = ("/srv/www/.WASM", EmptyString)
  /\ HttpServer.guess_type (WasmServer.mimetypes_db Example.world) "/srv/www/.WASM"
     = "application/octet-stream"
  /\ WasmServer.reply (H := Example.lib) Example.world (Example.files "root:x:0:0")
       (Example.request "GET /.WASM HTTP/1.1" [])
     = [WasmServer.header_block (H := Example.lib) Example.world 200 "OK"
          [("Content-type", "application/octet-stream"); ("Content-Length", "9");
           ("Last-Modified", "t=1700000000")];
        "dot-bytes"]
  /\ "application/octet-stream" <> "application/wasm".
Proof.
  split; [reflexivity|]. split; [reflexivity|]. split; [reflexivity|].
  split; [reflexivity|]. split; [reflexivity|]. split; [vm_compute; reflexivity|].
  discriminate.
Qed.



(** ** The server loop *)

(** *** What holds a handler up *)

Section Proceeds.
Import PyStr HttpServer.

Lemma proceeds_ret {A} (a : A) : proceeds (ret a).
Proof. intros h Hh. split; [exact Hh | discriminate]. Qed.

Lemma proceeds_raise {A} e : e <> Blocked -> proceeds (@raise A e).
Proof. intros He h Hh. split; [exact Hh|]. intros [= Heq]. contradiction. Qed.

Lemma proceeds_get {A} (f : handler -> A) : proceeds (get f).
Proof. intros h Hh. split; [exact Hh | discriminate]. Qed.

Lemma proceeds_lift {A} (r : result A) : r <> Raise Blocked -> proceeds (lift r).
Proof. intros Hr h Hh. split; [exact Hh | exact Hr]. Qed.

Lemma proceeds_modify f : (forall h, unhindered h -> unhindered (f h)) -> proceeds (modify f).
Proof. intros Hf h Hh. split; [apply Hf, Hh | discriminate]. Qed.

Lemma proceeds_bind {A B} (m : M A) (k : A -> M B) :
  proceeds m -> (forall a, proceeds (k a)) -> proceeds (bind m k).
Proof.
  intros Hm Hk h Hh. unfold bind. destruct (Hm h Hh) as [Hh1 Hr].
  destruct (m h) as [[a|e] h1]; cbn [fst snd] in *; [apply Hk, Hh1|].
  split; [exact Hh1|]. intros [= ->]. now apply Hr.
Qed.

(** A value read from the state, with what the state says of it. *)
Lemma proceeds_bind_get {A B} (f : handler -> A) (k : A -> M B) :
  (forall h, unhindered h -> proceeds (k (f h))) -> proceeds (bind (get f) k).
Proof. intros Hk h Hh. exact (Hk h Hh h Hh). Qed.

Lemma proceeds_when b m : proceeds m -> proceeds (when b m).
Proof. destruct b; [auto | intros _; apply proceeds_ret]. Qed.

Lemma proceeds_write b : proceeds (write b).
Proof.
  intros h Hh. unfold write.
  destruct (writes_left h) as [[|n]|]; (split; [exact Hh | discriminate]).
Qed.

Lemma proceeds_readline : proceeds readline.
Proof.
  intros h Hh. pose proof Hh as (Hrfile & Hpending & Hroom). unfold readline.
  destruct (rfile h) as [|[raw hb| |] rest]; cbn [forallb prompt_arrival] in Hrfile.
  - split; [exact Hh | discriminate].
  - apply andb_true_iff in Hrfile as [Hhb Hrest].
    split; [split; [exact Hrest | split; [exact Hhb | exact Hroom]] | discriminate].
  - split; [split; [exact Hrfile | split; [exact Hpending | exact Hroom]] | discriminate].
  - discriminate.
Qed.

Lemma proceeds_log_message message : proceeds (log_message message).
Proof.
  intros h Hh. pose proof Hh as (Hrfile & Hpending & Hroom). unfold log_message.
  rewrite Hroom. split; [split; [exact Hrfile | split; [exact Hpending | exact Hroom]]|].
  discriminate.
Qed.

End Proceeds.

Create HintDb proceeds.
#[local] Hint Resolve proceeds_ret proceeds_get proceeds_when proceeds_write
  proceeds_readline proceeds_log_message : proceeds.

Ltac proceeds_step :=
  match goal with
  | |- proceeds (bind _ _) => apply proceeds_bind; [|intros]
  | |- proceeds (when _ _) => apply proceeds_when
  | |- proceeds (modify _) => apply proceeds_modify; intros [] ?; assumption
  | |- proceeds (raise _) => apply proceeds_raise; discriminate
  | |- proceeds (match (if ?test then _ else _) with _ => _ end) => destruct test
  | |- proceeds (if ?test then _ else _) => destruct test
  | |- proceeds (match ?x with _ => _ end) => destruct x
  | |- proceeds _ => solve [eauto with proceeds]
  end.

Ltac proceeds_tac := repeat proceeds_step.

Section ProceedsMethods.
Import PyStr HttpServer SocketServer WasmServer.
Context `{PyLib} (w : World) (db : Mimetypes.MimeTypes).

#[local] Existing Instance WASMHandler.

Lemma fromtimestamp_returns t : fromtimestamp t <> Raise Blocked.
Proof.
  unfold fromtimestamp.
  destruct (datetime_holds t); [discriminate|].
  destruct (time_t_overflows t); [discriminate|].
  destruct (gmtime_overflows t); discriminate.
Qed.

Lemma not_modified_returns hs mtime : not_modified hs mtime <> Raise Blocked.
Proof.
  unfold not_modified. pose proof (fromtimestamp_returns mtime) as Hdate.
  destruct (_ && _); [|discriminate].
  destruct (parsedate_utc _); [|discriminate].
  destruct (fromtimestamp mtime) as [date|e]; [discriminate|].
  intros [= ->]. now apply Hdate.
Qed.

Lemma open_rb_returns d p : open_rb d p <> Raise Blocked.
Proof.
  unfold open_rb.
  destruct (lookup d p) as [[[content|] mtime|entries|]|]; destruct (has_nul p); discriminate.
Qed.

Lemma listdir_returns d p : listdir d p <> Raise Blocked.
Proof.
  unfold listdir.
  destruct (lookup d p) as [[content mtime|[entries|]|]|]; destruct (has_nul p); discriminate.
Qed.

Lemma proceeds_log_request code : proceeds (log_request code).
Proof. unfold log_request. proceeds_tac. Qed.

Lemma proceeds_append_header_line line : proceeds (append_header_line line).
Proof. unfold append_header_line. proceeds_tac. Qed.

Lemma proceeds_send_response_only code message : proceeds (send_response_only code message).
Proof. unfold send_response_only. pose proof proceeds_append_header_line. proceeds_tac. Qed.

Lemma proceeds_send_header keyword value : proceeds (send_header keyword value).
Proof. unfold send_header. pose proof proceeds_append_header_line. proceeds_tac. Qed.

Lemma proceeds_date_time_string timestamp : proceeds (date_time_string w timestamp).
Proof.
  unfold date_time_string. apply proceeds_bind; [|intros; apply proceeds_ret].
  apply proceeds_lift, fromtimestamp_returns.
Qed.

Lemma proceeds_send_response code message : proceeds (send_response w code message).
Proof.
  unfold send_response. pose proof proceeds_log_request. pose proof proceeds_date_time_string.
  pose proof proceeds_send_response_only. pose proof proceeds_send_header. proceeds_tac.
Qed.

Lemma proceeds_flush_headers : proceeds flush_headers.
Proof. unfold flush_headers. proceeds_tac. Qed.

Lemma proceeds_Base_end_headers : proceeds Base_end_headers.
Proof. unfold Base_end_headers. pose proof proceeds_flush_headers. proceeds_tac. Qed.

Lemma proceeds_end_headers : proceeds end_headers.
Proof.
  unfold end_headers, WASMHandler. pose proof proceeds_send_header.
  pose proof proceeds_Base_end_headers. proceeds_tac.
Qed.

Lemma proceeds_send_error code message explain : proceeds (send_error w code message explain).
Proof.
  unfold send_error. unfold log_error.
  pose proof proceeds_send_response. pose proof proceeds_send_header.
  pose proof proceeds_end_headers. proceeds_tac.
Qed.

Lemma proceeds_handle_expect_100 : proceeds handle_expect_100.
Proof.
  unfold handle_expect_100. pose proof proceeds_send_response_only.
  pose proof proceeds_end_headers. proceeds_tac.
Qed.

Lemma proceeds_parse_request_headers : proceeds (parse_request_headers w).
Proof.
  unfold parse_request_headers. apply proceeds_bind_get. intros h (_ & Hpending & _).
  pose proof proceeds_send_error. pose proof proceeds_handle_expect_100.
  destruct (pending_headers h) as [hs| | | |]; [| | | |discriminate]; proceeds_tac.
Qed.

Lemma proceeds_parse_request_words words : proceeds (parse_request_words w words).
Proof.
  unfold parse_request_words. pose proof proceeds_send_error.
  pose proof proceeds_parse_request_headers. proceeds_tac.
Qed.

Lemma proceeds_parse_request : proceeds (parse_request w).
Proof.
  unfold parse_request. pose proof proceeds_send_error.
  pose proof proceeds_parse_request_words. proceeds_tac.
Qed.

Lemma proceeds_copyfileobj fuel : forall source, proceeds (copyfileobj fuel source).
Proof. induction fuel as [|fuel IH]; intros source; simpl; proceeds_tac. Qed.

Lemma proceeds_list_entries path names : proceeds (list_entries path names).
Proof.
  induction names as [|name names IH]; simpl; unfold os_path_isdir, os_path_islink;
    proceeds_tac.
Qed.

Lemma proceeds_list_directory path : proceeds (list_directory w path).
Proof.
  unfold list_directory, os_listdir. apply proceeds_bind_get. intros h _.
  pose proof (listdir_returns (disk h) path) as Hlist.
  pose proof proceeds_send_error. pose proof proceeds_list_entries.
  pose proof proceeds_send_response. pose proof proceeds_send_header.
  pose proof proceeds_end_headers.
  destruct (listdir (disk h) path) as [names|[]]; try (now contradiction Hlist);
    try (apply proceeds_raise; discriminate).
  - apply proceeds_bind; [proceeds_tac | intros url].
    apply proceeds_bind; [proceeds_tac | intros entries].
    apply proceeds_bind; [|intros; proceeds_tac].
    apply proceeds_lift. destruct (listing_page url path entries); discriminate.
  - proceeds_tac.
Qed.

Lemma proceeds_send_head_file path : proceeds (send_head_file w db path).
Proof.
  unfold send_head_file, os_open_rb.
  pose proof proceeds_send_error. pose proof proceeds_send_response.
  pose proof proceeds_send_header. pose proof proceeds_date_time_string.
  pose proof proceeds_end_headers.
  destruct (endswith path "/"); [proceeds_tac|].
  apply proceeds_bind_get. intros h _.
  pose proof (open_rb_returns (disk h) path) as Hopen.
  destruct (open_rb (disk h) path) as [[content mtime]|[]]; try (now contradiction Hopen);
    try (apply proceeds_raise; discriminate).
  - apply proceeds_bind; [proceeds_tac | intros hs].
    apply proceeds_bind; [apply proceeds_lift, not_modified_returns | intros cached].
    proceeds_tac.
  - proceeds_tac.
Qed.

Lemma proceeds_send_head : proceeds (send_head w db).
Proof.
  unfold send_head, os_path_isdir, os_path_isfile.
  pose proof proceeds_send_response. pose proof proceeds_send_header.
  pose proof proceeds_end_headers. pose proof proceeds_send_head_file.
  pose proof proceeds_list_directory.
  apply proceeds_bind; [proceeds_tac | intros url].
  apply proceeds_bind; [proceeds_tac | intros is_dir].
  destruct is_dir; [|proceeds_tac].
  apply proceeds_bind; [apply proceeds_lift, urlsplit_returns | intros parts].
  destruct parts as [[[[scheme netloc] url_path] query] fragment]. proceeds_tac.
Qed.

Lemma proceeds_do_GET : proceeds (do_GET w db).
Proof.
  unfold do_GET, copyfile. pose proof proceeds_send_head. pose proof proceeds_copyfileobj.
  proceeds_tac.
Qed.

Lemma proceeds_do_HEAD : proceeds (do_HEAD w db).
Proof. unfold do_HEAD. pose proof proceeds_send_head. proceeds_tac. Qed.

Lemma proceeds_handle_one_request : proceeds (handle_one_request w db).
Proof.
  unfold handle_one_request, method. pose proof proceeds_send_error.
  pose proof proceeds_parse_request. pose proof proceeds_do_GET. pose proof proceeds_do_HEAD.
  proceeds_tac.
Qed.

Lemma proceeds_handle_loop fuel : proceeds (handle_loop w db fuel).
Proof.
  induction fuel as [|fuel IH]; simpl; pose proof proceeds_handle_one_request; proceeds_tac.
Qed.

Lemma proceeds_handle : proceeds (handle w db).
Proof.
  unfold handle. pose proof proceeds_handle_one_request. pose proof proceeds_handle_loop.
  proceeds_tac.
Qed.

End ProceedsMethods.

(** *** Every reply is logged *)

Section Noted.
Import PyStr HttpServer.

Lemma noted_weaken h : noted h -> noted_if_written h.
Proof. intros Hh. right. exact Hh. Qed.

Lemma noted_unchanged h h' : unchanged h h' -> noted h -> noted h'.
Proof. intros (_ & _ & _ & Hlog) Hh. apply Hlog, Hh. Qed.

Lemma noted_if_written_unchanged h h' :
  unchanged h h' -> noted_if_written h -> noted_if_written h'.
Proof.
  intros (Hw & _ & _ & Hlog) [Hh|Hh]; [left; congruence | right; apply Hlog, Hh].
Qed.

Lemma tri_quiet_noted {A} (m : M A) :
  quiet m -> tri noted m (fun _ => noted) noted_if_written.
Proof.
  intros Hm h Hh. specialize (Hm h).
  destruct (m h) as [[a|e] h1]; simpl in Hm;
    eauto using noted_unchanged, noted_weaken.
Qed.

Lemma tri_quiet_written {A} (m : M A) :
  quiet m -> tri noted_if_written m (fun _ => noted_if_written) noted_if_written.
Proof.
  intros Hm h Hh. specialize (Hm h).
  destruct (m h) as [[a|e] h1]; simpl in Hm; eauto using noted_if_written_unchanged.
Qed.

(** What is noted may be taken as noted if written. *)
Lemma tri_noted_pre {A} (m : M A) (Q : A -> handler -> Prop) E :
  tri noted_if_written m Q E -> tri noted m Q E.
Proof. intros Hm. eapply tri_weaken; [exact Hm | apply noted_weaken | auto]. Qed.

Lemma tri_noted_post {A} (m : M A) P E :
  tri P m (fun _ => noted) E -> tri P m (fun _ => noted_if_written) E.
Proof. intros Hm. eapply tri_weaken; [exact Hm | auto | intros; now apply noted_weaken]. Qed.

Lemma log_message_noted message :
  tri noted_if_written (log_message message) (fun _ => noted) noted_if_written.
Proof.
  intros h Hh. unfold log_message.
  destruct (stderr_left h) as [[|n]|]; [exact Hh | |]; unfold noted; simpl;
    destruct (stderr h); discriminate.
Qed.

Lemma write_noted b : tri noted (write b) (fun _ => noted) noted_if_written.
Proof.
  intros h Hh. unfold write.
  destruct (writes_left h) as [[|n]|]; [apply noted_weaken, Hh | |]; exact Hh.
Qed.

End Noted.

Ltac note_quiet :=
  first [apply tri_quiet_noted | apply tri_quiet_written]; quiet_tac.

Ltac note_seq := eapply tri_bind; [note_quiet | intros].

Ltac note_case :=
  match goal with
  | |- tri _ (if ?b then _ else _) _ _ => destruct b
  end.

Section NotedMethods.
Import PyStr HttpServer SocketServer WasmServer.
Context `{PyLib} (w : World) (db : Mimetypes.MimeTypes).

#[local] Existing Instance WASMHandler.

Lemma send_response_noted code message :
  tri noted_if_written (send_response w code message) (fun _ => noted) noted_if_written.
Proof.
  unfold send_response.
  eapply tri_bind; [unfold log_request; note_seq; apply log_message_noted | intros].
  do 3 note_seq. note_quiet.
Qed.

Lemma end_headers_noted : tri noted end_headers (fun _ => noted) noted_if_written.
Proof.
  unfold end_headers, WASMHandler. do 2 note_seq.
  unfold Base_end_headers. note_seq. note_case; [|apply tri_ret; auto].
  note_seq.
  match goal with |- tri _ (match ?buf with _ => _ end) _ _ => destruct buf as [lines|] end;
    [|apply tri_raise; apply noted_weaken].
  note_seq. unfold flush_headers. note_seq.
  match goal with |- tri _ (match ?buf with _ => _ end) _ _ => destruct buf as [buffer|] end;
    [|apply tri_ret; auto].
  eapply tri_bind; [apply write_noted | intros; note_quiet].
Qed.

Lemma send_error_noted code message explain :
  tri noted_if_written (send_error w code message explain) (fun _ => noted) noted_if_written.
Proof.
  unfold send_error. destruct (default ("???", "???") (responses code)) as [shortmsg longmsg].
  eapply tri_bind; [unfold log_error; apply log_message_noted | intros].
  do 3 note_seq.
  eapply tri_bind; [apply end_headers_noted | intros].
  note_seq.
  match goal with |- tri _ (match ?body with _ => _ end) _ _ => destruct body end;
    [|apply tri_ret; auto].
  match goal with |- tri _ (when ?b _) _ _ => destruct b end;
    [apply write_noted | apply tri_ret; auto].
Qed.

(** An error reply, and the answer that the request is done with. *)
Lemma send_error_done {A} code message explain (a : A) :
  tri noted_if_written (send_error w code message explain;; ret a)
    (fun _ => noted_if_written) noted_if_written.
Proof.
  eapply tri_bind; [apply send_error_noted | intros].
  apply tri_ret. apply noted_weaken.
Qed.

Lemma send_error_none code message explain :
  tri noted_if_written (send_error w code message explain;; ret (@None string))
    file_noted noted_if_written.
Proof.
  eapply tri_bind; [apply send_error_noted | intros].
  apply tri_ret. apply noted_weaken.
Qed.

Lemma copyfileobj_noted fuel : forall source,
  tri noted (copyfileobj fuel source) (fun _ => noted) noted_if_written.
Proof.
  induction fuel as [|fuel IH]; intros source; simpl.
  - apply tri_ret; auto.
  - note_case; [apply tri_ret; auto|].
    eapply tri_bind; [apply write_noted | intros; apply IH].
Qed.

Lemma list_directory_noted path :
  tri noted_if_written (list_directory w path) file_noted noted_if_written.
Proof.
  unfold list_directory. note_seq.
  match goal with |- tri _ (match ?r with _ => _ end) _ _ => destruct r as [names|[]] end;
    try (apply tri_raise; auto).
  - do 3 note_seq.
    eapply tri_bind; [apply send_response_noted | intros]. do 2 note_seq.
    eapply tri_bind; [apply end_headers_noted | intros]. apply tri_ret; auto.
  - apply send_error_none.
Qed.

Lemma send_head_file_noted path :
  tri noted_if_written (send_head_file w db path) file_noted noted_if_written.
Proof.
  unfold send_head_file.
  note_case; [apply send_error_none|].
  note_seq.
  match goal with |- tri _ (match ?r with _ => _ end) _ _ => destruct r as [[content mtime]|[]] end;
    try (apply tri_raise; auto).
  - do 2 note_seq. note_case.
    + eapply tri_bind; [apply send_response_noted | intros].
      eapply tri_bind; [apply end_headers_noted | intros].
      apply tri_ret. apply noted_weaken.
    + eapply tri_bind; [apply send_response_noted | intros]. do 4 note_seq.
      eapply tri_bind; [apply end_headers_noted | intros]. apply tri_ret; auto.
  - apply send_error_none.
Qed.

Lemma send_head_noted : tri noted_if_written (send_head w db) file_noted noted_if_written.
Proof.
  unfold send_head. do 2 note_seq. note_case; [|apply send_head_file_noted].
  note_seq. match goal with |- tri _ (let '(_, _) := ?p in _) _ _ =>
              destruct p as [[[[scheme netloc] url_path] query] fragment] end.
  note_case.
  - eapply tri_bind; [apply send_response_noted | intros]. do 2 note_seq.
    eapply tri_bind; [apply end_headers_noted | intros].
    apply tri_ret. apply noted_weaken.
  - note_seq. note_case; [apply send_head_file_noted|].
    note_seq. note_case; [apply send_head_file_noted | apply list_directory_noted].
Qed.

Lemma do_GET_noted :
  tri noted_if_written (do_GET w db) (fun _ => noted_if_written) noted_if_written.
Proof.
  unfold do_GET. eapply tri_bind; [apply send_head_noted | intros f].
  destruct f as [source|]; [|apply tri_ret; auto].
  apply tri_noted_post, copyfileobj_noted.
Qed.

Lemma do_HEAD_noted :
  tri noted_if_written (do_HEAD w db) (fun _ => noted_if_written) noted_if_written.
Proof.
  unfold do_HEAD. eapply tri_bind; [apply send_head_noted | intros f].
  apply tri_ret. intros h Hh. destruct f; [apply noted_weaken|]; exact Hh.
Qed.

Lemma parse_request_headers_noted :
  tri noted_if_written (parse_request_headers w) (fun _ => noted_if_written) noted_if_written.
Proof.
  unfold parse_request_headers. note_seq.
  match goal with |- tri _ (match ?hb with _ => _ end) _ _ => destruct hb as [hs| | | |] end.
  - rewrite protocol_is_1_0, !andb_false_r. cbn [andb]. do 3 note_seq. apply tri_ret; auto.
  - apply send_error_done.
  - apply send_error_done.
  - note_quiet.
  - note_quiet.
Qed.

Lemma parse_request_words_noted words :
  tri noted_if_written (parse_request_words w words) (fun _ => noted_if_written)
    noted_if_written.
Proof.
  unfold parse_request_words.
  note_case; [note_seq; apply send_error_done|].
  destruct words as [|command [|path rest]]; try (apply tri_ret; auto).
  eapply tri_bind with (Q := fun _ => noted_if_written).
  - note_case; [|apply tri_ret; auto].
    note_seq. note_case; [apply send_error_done | apply tri_ret; auto].
  - intros ok. destruct ok; simpl; [|apply tri_ret; auto].
    do 3 note_seq. apply parse_request_headers_noted.
Qed.

Lemma set_request_version_noted version :
  tri noted_if_written (modify (set_request_version version)) (fun _ => noted_if_written)
    noted_if_written.
Proof. intros h Hh. exact Hh. Qed.

Lemma parse_request_noted :
  tri noted_if_written (parse_request w) (fun _ => noted_if_written) noted_if_written.
Proof.
  unfold parse_request. note_seq.
  eapply tri_bind; [apply set_request_version_noted | intros]. do 3 note_seq.
  note_case; [apply tri_ret; auto|].
  eapply tri_bind with (Q := fun _ => noted_if_written).
  - note_case; [|apply tri_ret; auto].
    match goal with |- tri _ (match ?r with _ => _ end) _ _ =>
      destruct r as [[[major minor] base]|] end; [|apply send_error_done].
    rewrite protocol_is_1_0, andb_false_r. note_seq.
    note_case; [apply send_error_done|].
    eapply tri_bind; [apply set_request_version_noted | intros]. apply tri_ret; auto.
  - intros ok. destruct ok; simpl; [apply parse_request_words_noted | apply tri_ret; auto].
Qed.

Lemma handle_one_request_noted :
  tri noted_if_written (handle_one_request w db) (fun _ => noted_if_written) noted_if_written.
Proof.
  unfold handle_one_request. do 2 note_seq.
  note_case.
  { note_seq. eapply tri_bind; [apply set_request_version_noted | intros].
    note_seq. apply tri_noted_post, send_error_noted. }
  note_case; [note_quiet|].
  eapply tri_bind; [apply parse_request_noted | intros ok].
  destruct ok; simpl; [|apply tri_ret; auto].
  note_seq. unfold method.
  repeat match goal with |- tri _ (match (if ?b then _ else _) with _ => _ end) _ _ =>
           destruct b end.
  - apply do_GET_noted.
  - apply do_HEAD_noted.
  - apply tri_noted_post, send_error_noted.
Qed.

(** What the handler writes to a connection, it notes in its log
    first. *)
Lemma handle_noted h : wfile h = [] -> noted_if_written (handle w db h).2.
Proof.
  intros Hw. rewrite (handle_once w db h Hw).
  assert (Hstart : noted_if_written (set_close_connection true h)) by (left; exact Hw).
  pose proof (handle_one_request_noted _ Hstart) as Hone.
  destruct (handle_one_request w db (set_close_connection true h)) as [[[]|e] h1]; exact Hone.
Qed.

End NotedMethods.

Section ServerLoop.
Import PyStr HttpServer SocketServer WasmServer Confinement.
Context `{PyLib} (w : World).

(** A handler leaves the file system as it found it, whatever the state
    it starts in. *)
Lemma handle_disk h : disk (WASMHandler_handle w h).2 = disk h.
Proof.
  assert (Hagree : agree (directory w) (disk h) (disk h)) by (split; [|split]; reflexivity).
  exact (proj1 (respects_handle w (mimetypes_db w) h (disk h) Hagree)).
Qed.

Lemma fs_print_stderr lines : forall srv, fs (print_stderr lines srv).2 = fs srv.
Proof.
  induction lines as [|line lines IH]; intros srv; [reflexivity|]. cbn [print_stderr].
  destruct (stderr_room srv) as [[|n]|]; [reflexivity | |]; now rewrite IH.
Qed.

Lemma fs_step ev srv : fs (_handle_request_noblock (WASMHandler_handle w) ev srv).2 = fs srv.
Proof.
  destruct ev as [|c]; [reflexivity|]. unfold _handle_request_noblock.
  pose proof (handle_disk (set_stderr_left (stderr_room srv) (new_handler (fs srv) c))) as Hdisk.
  destruct (WASMHandler_handle w _) as [[[]|e] h]; cbn [snd] in Hdisk; [exact Hdisk|].
  destruct e; rewrite ?fs_print_stderr; exact Hdisk.
Qed.

Lemma fs_serve_forever events : forall srv,
  fs (serve_forever (WASMHandler_handle w) events srv).2 = fs srv.
Proof.
  induction events as [|ev events IH]; intros srv; [reflexivity|]. cbn [serve_forever].
  pose proof (fs_step ev srv) as Hstep.
  destruct (_handle_request_noblock (WASMHandler_handle w) ev srv) as [[[]|e] srv'];
    cbn [snd] in *; [now rewrite IH | exact Hstep].
Qed.

(** A standard error stream that takes any number of lines takes the
    report of [handle_error]. *)
Lemma print_stderr_open lines : forall srv,
  stderr_room srv = None ->
  print_stderr lines srv
  = (Ok tt, {| server_address := server_address srv;
               fs := fs srv;
               errors := errors srv ++ lines;
               sent := sent srv;
               stderr_room := None |}).
Proof.
  induction lines as [|line lines IH]; intros [address d errs chunks room] Hroom;
    simpl in Hroom; subst room.
  - simpl. now rewrite List.app_nil_r.
  - cbn [print_stderr stderr_room]. rewrite IH by reflexivity. simpl.
    now rewrite <- List.app_assoc.
Qed.

(** A handler that nothing holds up, for a prompt client. *)
Lemma new_handler_unhindered d c : prompt c = true -> unhindered (new_handler d c).
Proof. intros Hc. split; [exact Hc | split; reflexivity]. Qed.

Lemma handle_request_prompt c srv :
  stderr_room srv = None -> prompt c = true ->
  _handle_request_noblock (WASMHandler_handle w) (Connection c) srv = (Ok tt, handled w srv c).
Proof.
  intros Hroom Hc. unfold _handle_request_noblock, handled, connection_log, reply, serve.
  rewrite Hroom.
  change (set_stderr_left None (new_handler (fs srv) c)) with (new_handler (fs srv) c).
  destruct (proceeds_handle w (mimetypes_db w) _ (new_handler_unhindered (fs srv) c Hc))
    as [(_ & _ & Hleft) Hreturns].
  pose proof (handle_disk (new_handler (fs srv) c)) as Hdisk.
  unfold WASMHandler_handle in *.
  destruct (handle w (mimetypes_db w) (new_handler (fs srv) c)) as [[[]|e] h];
    cbn [fst snd] in *; unfold finished.
  - rewrite Hdisk, Hleft, List.app_nil_r. reflexivity.
  - destruct e; try (now contradiction Hreturns);
      (rewrite print_stderr_open by exact Hleft); cbn; rewrite Hdisk, <- List.app_assoc;
      reflexivity.
Qed.

(** The server loop over prompt clients, with a standard error stream
    that takes every line: each connection is handled by itself, and the
    loop goes on. *)
Lemma serve_forever_prompt events : forall srv,
  stderr_room srv = None -> forallb prompt_event events = true ->
  serve_forever (WASMHandler_handle w) events srv
  = (Ok tt, {| server_address := server_address srv;
               fs := fs srv;
               errors := errors srv ++ concat (connection_log w (fs srv) <$> accepted events);
               sent := sent srv ++ (reply w (fs srv) <$> accepted events);
               stderr_room := None |}).
Proof.
  induction events as [|ev events IH]; intros srv Hroom Hevents.
  - destruct srv as [address d errs chunks room]. simpl in *. subst room.
    now rewrite !List.app_nil_r.
  - cbn [forallb] in Hevents. apply andb_true_iff in Hevents as [Hev Hevents].
    cbn [serve_forever]. destruct ev as [|c].
    + cbn [_handle_request_noblock accepted]. apply IH; assumption.
    + rewrite (handle_request_prompt c srv Hroom Hev),
        (IH (handled w srv c) eq_refl Hevents).
      unfold handled. cbn [accepted fmap list_fmap concat server_address fs errors sent].
      now rewrite <- !List.app_assoc.
Qed.

Lemma TCPServer_fresh port httpd :
  TCPServer w port = Ok httpd ->
  fs httpd = filesystem0 w /\ errors httpd = [] /\ sent httpd = []
  /\ stderr_room httpd = stderr_takes w.
Proof.
  unfold TCPServer. destruct (socket_bind w port); [|discriminate].
  intros [= <-]. repeat split.
Qed.

Lemma main_started argv :
  exit_status (main w argv []) = None ->
  exists port httpd,
    port_of_argv w argv = Ok port /\ TCPServer w port = Ok httpd /\ stdout_ok w = true.
Proof.
  intros Hrun. destruct (main_cases w argv) as [[e Hfail] | Hserving]; [|exact Hserving].
  rewrite (main_failure _ _ _ _ Hfail) in Hrun. discriminate.
Qed.

Lemma outcome_disk port run : disk_after (outcome port run) = fs run.2.
Proof. destruct run as [[[]|e] httpd]; [reflexivity|]. destruct e; reflexivity. Qed.

Lemma outcome_stdout port run : stdout (outcome port run) = startup_lines port.
Proof. destruct run as [[[]|e] httpd]; [reflexivity|]. destruct e; reflexivity. Qed.

Lemma main_disk_after argv events : disk_after (main w argv events) = filesystem0 w.
Proof.
  destruct (main_cases w argv) as [[e Hfail] | [port [httpd [Hport [Hsrv Hout]]]]].
  - now rewrite (main_failure _ _ _ _ Hfail).
  - rewrite (main_serving _ _ _ _ _ Hport Hsrv Hout), outcome_disk, fs_serve_forever.
    apply (TCPServer_fresh _ _ Hsrv).
Qed.

Lemma main_stdout argv events :
  stdout (main w argv events) = []
  \/ exists port, port_of_argv w argv = Ok port /\ stdout (main w argv events) = startup_lines port.
Proof.
  destruct (main_cases w argv) as [[e Hfail] | [port [httpd [Hport [Hsrv Hout]]]]].
  - left. now rewrite (main_failure _ _ _ _ Hfail).
  - right. exists port. now rewrite (main_serving _ _ _ _ _ Hport Hsrv Hout), outcome_stdout.
Qed.

(** A run over prompt clients, with a standard error stream that takes
    every line. *)
Lemma main_prompt argv events port httpd :
  port_of_argv w argv = Ok port -> TCPServer w port = Ok httpd -> stdout_ok w = true ->
  stderr_takes w = None ->
  forallb prompt_event events = true ->
  main w argv events
  = serving port
      {| server_address := server_address httpd;
         fs := filesystem0 w;
         errors := concat (connection_log w (filesystem0 w) <$> accepted events);
         sent := reply w (filesystem0 w) <$> accepted events;
         stderr_room := None |}.
Proof.
  intros Hport Hsrv Hout Herr Hevents.
  rewrite (main_serving _ _ _ _ _ Hport Hsrv Hout).
  destruct (TCPServer_fresh _ _ Hsrv) as (Hfs & Herrors & Hsent & Hroom).
  rewrite Herr in Hroom.
  rewrite (serve_forever_prompt events httpd Hroom Hevents), Hfs, Herrors, Hsent.
  reflexivity.
Qed.



End ServerLoop.





(** * Further properties of the code *)

(** ** Files of any type, and the other methods *)

Section OtherReplies.
Import PyStr HttpServer SocketServer WasmServer Confinement.
Context `{PyLib} (w : World).

#[local] Existing Instance WASMHandler.

(** The reply to a [HEAD] for a readable file: the header block of the
    [GET], and nothing else. *)
Lemma head_file_reply raw url version hs more d f content mtime :
  accepted_request w raw "HEAD" url version ->
  translate_path w (reduce_slashes url) = f ->
  endswith f "/" = false ->
  open_rb d f = Ok (content, mtime) ->
  datetime_holds mtime = true ->
  not_modified hs mtime = Ok false ->
  reply w d {| arrivals := Line raw (HeaderLines hs) :: more; peer_takes := None |}
  = [header_block w 200 "OK"
       [("Content-type", guess_type (mimetypes_db w) f);
        ("Content-Length", of_Z (Z.of_nat (String.length content)));
        ("Last-Modified", formatdate mtime)]].
Proof.
  intros Hreq <- Hslash Hfile Hholds Hnm. unfold reply, serve, WASMHandler_handle.
  rewrite handle_once by reflexivity.
  erewrite handle_one_request_parsed; [|reflexivity | exact Hreq].
  destruct Hreq as (_ & _ & _ & Hversion%String.eqb_neq).
  change (method w (mimetypes_db w) "HEAD") with (Some (do_HEAD w (mimetypes_db w))).
  cbv iota. unfold do_HEAD.
  erewrite bind_Ok; [|rewrite send_head_of_file;
    [apply send_head_file_found; unfold parsed; state_simpl;
       [exact Hversion | reflexivity | reflexivity | reflexivity | exact Hslash
       | exact Hfile | exact Hholds | exact Hnm]
    | apply (open_rb_isdir _ _ _ _ Hfile)]].
  reflexivity.
Qed.

(** X1.  A readable file of any type, last modified at a date of the
    years 1 to 9999, is sent whole: the reply to a [GET] is the header block
    of a 200, with the type [guess_type] gives, the length and the date of
    modification of the file, followed by chunks that make up its bytes; the
    reply to a [HEAD] is the same header block alone. *)
Theorem file_is_sent_whole
    (d : filesystem) (raw_get raw_head url version : string)
    (hs : list (string * string)) (more : list arrival) (f content : string) (mtime : Z) :
  accepted_request w raw_get "GET" url version ->
  accepted_request w raw_head "HEAD" url version ->
  translate_path w (reduce_slashes url) = f ->
  endswith f "/" = false ->
  open_rb d f = Ok (content, mtime) ->
  datetime_holds mtime = true ->
  not_modified hs mtime = Ok false ->
  exists block chunks,
    block = header_block w 200 "OK"
              [("Content-type", guess_type (mimetypes_db w) f);
               ("Content-Length", of_Z (Z.of_nat (String.length content)));
               ("Last-Modified", formatdate mtime)]
    /\ reply w d {| arrivals := Line raw_get (HeaderLines hs) :: more; peer_takes := None |}
       = block :: chunks
    /\ String.concat EmptyString chunks = content
    /\ reply w d {| arrivals := Line raw_head (HeaderLines hs) :: more; peer_takes := None |}
       = [block].
Proof.
  intros Hget Hhead Hf Hslash Hfile Hholds Hnm.
  destruct (get_file_reply w raw_get url version hs more d f content mtime
              Hget Hf Hslash Hfile Hholds Hnm) as [chunks [Hreply Hcat]].
  eexists _, chunks. split; [reflexivity|]. split; [exact Hreply|]. split; [exact Hcat|].
  now apply (head_file_reply raw_head url version hs more d f content mtime).
Qed.

Lemma method_other cmd db :
  cmd <> "GET" -> cmd <> "HEAD" -> method w db cmd = None.
Proof.
  intros Hget Hhead. unfold method.
  destruct (String.eqb_spec cmd "GET"); [contradiction|].
  destruct (String.eqb_spec cmd "HEAD"); [contradiction | reflexivity].
Qed.

(** X2.  The handler has the methods [do_GET] and [do_HEAD] only: a request
    with any other command is answered with a 501 and its error page,
    whatever the path and whatever the file system holds. *)
Theorem other_commands_get_501
    (d : filesystem) (raw cmd url version : string)
    (hs : list (string * string)) (more : list arrival) :
  accepted_request w raw cmd url version ->
  cmd <> "GET" -> cmd <> "HEAD" ->
  reply w d {| arrivals := Line raw (HeaderLines hs) :: more; peer_takes := None |}
  = header_block w 501 (unsupported cmd)
      [("Connection", "close");
       ("Content-Type", error_content_type);
       ("Content-Length", of_Z (Z.of_nat (String.length (unsupported_page cmd))))]
    :: (if is_empty (unsupported_page cmd) then [] else [unsupported_page cmd]).
Proof.
  intros Hreq Hget Hhead. unfold reply, serve, WASMHandler_handle.
  rewrite handle_once by reflexivity.
  erewrite handle_one_request_parsed; [|reflexivity | exact Hreq].
  destruct Hreq as (_ & _ & _ & Hversion%String.eqb_neq).
  rewrite (method_other cmd _ Hget Hhead).
  erewrite send_error_run;
    [|exact Hversion | reflexivity | reflexivity | reflexivity | reflexivity | reflexivity].
  unfold parsed. state_simpl. unfold error_body.
  rewrite bool_decide_eq_false_2 by (intros [= ->]; now apply Hhead).
  fold (unsupported cmd). fold (unsupported_page cmd).
  destruct (is_empty (unsupported_page cmd)); reflexivity.
Qed.

End OtherReplies.

(** ** [WASMHandler.end_headers] by itself *)

Section EndHeaders.
Import PyStr HttpServer SocketServer WasmServer.

(** X3.  What [WASMHandler.end_headers] does in each state.  In the style
    of HTTP/0.9 it does nothing.  Otherwise it writes one chunk: the lines
    buffered so far, the two cross-origin headers in the order of the
    source, and the blank line; and it empties the buffer.  It raises only
    when the peer is gone, and then [OSError], with nothing written.  It
    never raises [AttributeError], which the method of the base class does
    when no header line was buffered before. *)
Theorem end_headers_cases (h : handler) :
  (request_version h = "HTTP/0.9" ->
   end_headers (HandlerClass := WASMHandler) h = (Ok tt, h))
  /\ (request_version h <> "HTTP/0.9" -> writes_left h <> Some O ->
      exists h',
        end_headers (HandlerClass := WASMHandler) h = (Ok tt, h')
        /\ wfile h'
           = wfile h
             ++ [String.concat EmptyString
                   (default [] (_headers_buffer h)
                    ++ ["Cross-Origin-Embedder-Policy: require-corp" +:+ CRLF;
                        "Cross-Origin-Opener-Policy: same-origin" +:+ CRLF;
                        CRLF])]
        /\ _headers_buffer h' = Some []
        /\ close_connection h' = close_connection h)
  /\ (request_version h <> "HTTP/0.9" -> writes_left h = Some O ->
      exists h',
        end_headers (HandlerClass := WASMHandler) h = (Raise OSError, h')
        /\ wfile h' = wfile h)
  /\ (request_version h <> "HTTP/0.9" -> _headers_buffer h = None ->
      end_headers (HandlerClass := SimpleHTTPRequestHandler) h = (Raise AttributeError, h)).
Proof.
  unfold end_headers, WASMHandler, SimpleHTTPRequestHandler.
  split; [|split; [|split]].
  - intros Hrv%String.eqb_eq.
    erewrite bind_Ok; [|apply send_header_simple; [exact Hrv | reflexivity]].
    erewrite bind_Ok; [|apply send_header_simple; [exact Hrv | reflexivity]].
    unfold Base_end_headers, bind, get. now rewrite Hrv.
  - intros Hrv%String.eqb_neq Hpeer.
    erewrite bind_Ok; [|apply send_header_plain; [exact Hrv | reflexivity]].
    erewrite bind_Ok; [|apply send_header_plain; [exact Hrv | reflexivity]].
    unfold Base_end_headers, flush_headers, bind, get, modify, write, buffered.
    destruct h as [? ? ? peer ? ? ? ? ? ? ? ? ? buf]. simpl in *. rewrite Hrv. simpl.
    destruct peer as [[|n]|]; [contradiction | |]; simpl; eexists;
      (split; [reflexivity|]); simpl; rewrite <- !List.app_assoc; repeat split.
  - intros Hrv%String.eqb_neq Hpeer.
    erewrite bind_Ok; [|apply send_header_plain; [exact Hrv | reflexivity]].
    erewrite bind_Ok; [|apply send_header_plain; [exact Hrv | reflexivity]].
    unfold Base_end_headers, flush_headers, bind, get, modify, write, buffered.
    destruct h as [? ? ? peer ? ? ? ? ? ? ? ? ? buf]. simpl in *. rewrite Hrv. simpl.
    subst peer. eexists. split; reflexivity.
  - intros Hrv%String.eqb_neq Hbuf. unfold Base_end_headers, bind, get, raise.
    rewrite Hrv. cbn [negb]. now rewrite Hbuf.
Qed.

End EndHeaders.

(** ** [mimetypes.add_type] and the other types *)

Section AddType.
Import PyStr HttpServer WasmServer.

Lemma add_type_suffix_loop (w : World) fuel : forall base ext,
  Mimetypes.suffix_loop (mimetypes_db w) fuel base ext
  = Mimetypes.suffix_loop (Mimetypes.init (platform_types w)) fuel base ext.
Proof.
  induction fuel as [|fuel IH]; intros base ext; simpl; [reflexivity|].
  destruct (Mimetypes._suffix_map_default !! lower ext); [|reflexivity].
  destruct (PosixPath.splitext (base +:+ s)). apply IH.
Qed.

Lemma add_type_lookup (w : World) (ext : string) :
  Mimetypes.types_map (mimetypes_db w) !! ext
  = if String.eqb ext ".wasm" then Some "application/wasm" else platform_types w !! ext.
Proof.
  unfold mimetypes_db, Mimetypes.add_type. simpl.
  destruct (String.eqb_spec ext ".wasm") as [->|Hne].
  - apply lookup_insert_eq.
  - apply lookup_insert_ne. congruence.
Qed.

(** The type the registry gives is the entry of the type table for the
    extension looked up. *)
Lemma guess_type_looked_up (db : Mimetypes.MimeTypes) (url ext : string) :
  extension_looked_up db url = Some ext ->
  (Mimetypes.guess_type db url).1 = Mimetypes.types_map db !! ext.
Proof.
  unfold extension_looked_up, Mimetypes.guess_type, Mimetypes.guess_type_fuel.
  destruct (Mimetypes._splittype url) as [scheme rest].
  destruct (bool_decide (scheme = Some "data")); [discriminate|].
  destruct (PosixPath.splitext rest) as [base e].
  destruct (Mimetypes.suffix_loop db 2 base e) as [[base' e']|]; [|discriminate].
  destruct (Mimetypes.encodings_map db !! e') as [enc|].
  - destruct (PosixPath.splitext base') as [base'' e'']. cbn [snd]. intros [= <-].
    destruct (Mimetypes.types_map db !! lower e''); reflexivity.
  - intros [= <-]. destruct (Mimetypes.types_map db !! lower e'); reflexivity.
Qed.

(** The registry: a path has the type it had before the program's
    [add_type], unless the extension looked up is [.wasm]. *)
Lemma add_type_registry (w : World) (url : string) :
  Mimetypes.guess_type (mimetypes_db w) url
  = Mimetypes.guess_type (Mimetypes.init (platform_types w)) url
  \/ extension_looked_up (mimetypes_db w) url = Some ".wasm".
Proof.
  unfold extension_looked_up, Mimetypes.guess_type, Mimetypes.guess_type_fuel.
  destruct (Mimetypes._splittype url) as [scheme rest].
  destruct (bool_decide (scheme = Some "data")); [left; reflexivity|].
  destruct (PosixPath.splitext rest) as [base ext].
  rewrite add_type_suffix_loop.
  destruct (Mimetypes.suffix_loop _ 2 base ext) as [[base' ext']|]; [|left; reflexivity].
  change (Mimetypes.encodings_map (mimetypes_db w))
    with (Mimetypes.encodings_map (Mimetypes.init (platform_types w))).
  destruct (Mimetypes.encodings_map (Mimetypes.init (platform_types w)) !! ext') as [enc|].
  - destruct (PosixPath.splitext base') as [base'' ext'']. cbn [snd].
    rewrite add_type_lookup. simpl Mimetypes.types_map.
    destruct (String.eqb_spec (lower ext'') ".wasm") as [->|Hother];
      [right; reflexivity | left; reflexivity].
  - rewrite add_type_lookup. simpl Mimetypes.types_map.
    destruct (String.eqb_spec (lower ext') ".wasm") as [->|Hother];
      [right; reflexivity | left; reflexivity].
Qed.

(** X4.  The program's [add_type] changes the type of no other file.
    The type the registry gives a path is the entry of its type table for the
    extension it looks up.  The [Content-type] the handler gives a path is
    the one it would give without the call, unless the extension looked up is
    [.wasm], and then it is [application/wasm]; and it is
    [application/wasm] whenever that extension is looked up and the
    extension of the path is none of the handler's own table. *)
Theorem add_type_changes_no_other_type (w : World) (path : string) :
  (forall ext, extension_looked_up (mimetypes_db w) path = Some ext ->
     (Mimetypes.guess_type (mimetypes_db w) path).1
     = (if String.eqb ext ".wasm" then Some "application/wasm" else platform_types w !! ext)
     /\ (Mimetypes.guess_type (Mimetypes.init (platform_types w)) path).1
        = platform_types w !! ext)
  /\ (guess_type (mimetypes_db w) path = guess_type (Mimetypes.init (platform_types w)) path
      \/ (extension_looked_up (mimetypes_db w) path = Some ".wasm"
          /\ guess_type (mimetypes_db w) path = "application/wasm"))
  /\ (extension_looked_up (mimetypes_db w) path = Some ".wasm" ->
      extensions_map !! (PosixPath.splitext path).2 = None ->
      extensions_map !! lower (PosixPath.splitext path).2 = None ->
      guess_type (mimetypes_db w) path = "application/wasm").
Proof.
  assert (Hwasm : extension_looked_up (mimetypes_db w) path = Some ".wasm" ->
                  (Mimetypes.guess_type (mimetypes_db w) path).1 = Some "application/wasm").
  { intros Hkey. rewrite (guess_type_looked_up _ _ _ Hkey). now rewrite add_type_lookup. }
  split; [|split].
  - intros ext Hkey. split.
    + rewrite (guess_type_looked_up _ _ _ Hkey). apply add_type_lookup.
    + apply (guess_type_looked_up (Mimetypes.init (platform_types w))).
      rewrite <- Hkey. unfold extension_looked_up.
      destruct (Mimetypes._splittype path) as [scheme rest].
      destruct (bool_decide (scheme = Some "data")); [reflexivity|].
      destruct (PosixPath.splitext rest) as [base e]. now rewrite add_type_suffix_loop.
  - unfold guess_type. destruct (PosixPath.splitext path) as [base ext].
    destruct (extensions_map !! ext); [left; reflexivity|].
    destruct (extensions_map !! lower ext); [left; reflexivity|].
    destruct (add_type_registry w path) as [-> | Hkey]; [left; reflexivity|].
    right. split; [exact Hkey|]. specialize (Hwasm Hkey).
    destruct (Mimetypes.guess_type (mimetypes_db w) path) as [[guess|] enc];
      simpl in Hwasm; [|discriminate].
    injection Hwasm as ->. reflexivity.
  - intros Hkey Hext Hlower. specialize (Hwasm Hkey). unfold guess_type.
    destruct (PosixPath.splitext path) as [base ext]. cbn [snd] in Hext, Hlower.
    rewrite Hext, Hlower.
    destruct (Mimetypes.guess_type (mimetypes_db w) path) as [[guess|] enc];
      simpl in Hwasm; [|discriminate].
    injection Hwasm as ->. reflexivity.
Qed.

End AddType.

(** ** The query and the fragment of a request path *)

Section QueryAndFragment.
Import PyStr HttpServer.
Context `{PyLib} (w : World).

Lemma before_app_sep (sep : ascii) (rest : string) : forall a,
  before (a +:+ String sep rest) sep = before a sep.
Proof.
  induction a as [|c a IH]; simpl.
  - now rewrite Ascii.eqb_refl.
  - destruct (Ascii.eqb c sep); [reflexivity | now rewrite IH].
Qed.

Lemma before_fragment (rest : string) : forall a,
  before (before (a +:+ String "#" rest) "?") "#" = before (before a "?") "#".
Proof.
  induction a as [|c a IH]; [reflexivity|].
  rewrite sapp_cons. cbn [before].
  destruct (Ascii.eqb c "?"); [reflexivity|]. cbn [before].
  destruct (Ascii.eqb c "#"); [reflexivity | now rewrite IH].
Qed.

(** [translate_path] reads its argument up to the first question mark or
    hash. *)
Lemma translate_path_before (p q : string) :
  before (before p "?") "#" = before (before q "?") "#" ->
  translate_path w p = translate_path w q.
Proof. intros Heq. unfold translate_path. now rewrite Heq. Qed.

Lemma lstrip_app (c : ascii) (rest : string) :
  Ascii.eqb c "/" = false ->
  forall a, lstrip (fun c => Ascii.eqb c "/") (a +:+ String c rest)
            = lstrip (fun c => Ascii.eqb c "/") a +:+ String c rest.
Proof.
  intros Hc. induction a as [|d a IH]; simpl; [now rewrite Hc|].
  destruct (Ascii.eqb d "/"); [exact IH | reflexivity].
Qed.

Lemma reduce_slashes_app (c : ascii) (rest a : string) :
  Ascii.eqb c "/" = false ->
  reduce_slashes (a +:+ String c rest) = reduce_slashes a +:+ String c rest.
Proof.
  intros Hc. unfold reduce_slashes.
  assert (Hstart : startswith (a +:+ String c rest) "//" = startswith a "//").
  { destruct a as [|d [|e a]]; simpl; rewrite ?Hc, ?andb_false_r; reflexivity. }
  rewrite Hstart. destruct (startswith a "//"); [|reflexivity].
  now rewrite (lstrip_app c rest Hc).
Qed.

(** X5.  The query string and the fragment of a request path never
    select the file: the path with [?query] or [#fragment] added is
    translated to the same file system path. *)
Theorem query_and_fragment_select_nothing (url extra : string) :
  translate_path w (reduce_slashes (url +:+ "?" +:+ extra))
  = translate_path w (reduce_slashes url)
  /\ translate_path w (reduce_slashes (url +:+ "#" +:+ extra))
     = translate_path w (reduce_slashes url).
Proof.
  split; apply translate_path_before.
  - change (url +:+ "?" +:+ extra) with (url +:+ String "?" extra).
    rewrite reduce_slashes_app by reflexivity. now rewrite before_app_sep.
  - change (url +:+ "#" +:+ extra) with (url +:+ String "#" extra).
    rewrite reduce_slashes_app by reflexivity. apply before_fragment.
Qed.

End QueryAndFragment.

(** ** Two runs of the handler, side by side *)

Section Simulation.
Context {P Q Q' E : handler -> handler -> Prop}.

Lemma sim_bind {A B} (m1 m2 : M A) (k1 k2 : A -> M B) :
  sim P Q E m1 m2 -> (forall a, sim Q Q' E (k1 a) (k2 a)) ->
  sim P Q' E (bind m1 k1) (bind m2 k2).
Proof.
  intros Hm Hk h1 h2 HP. unfold bind. specialize (Hm h1 h2 HP).
  destruct (m1 h1) as [[a1|e1] h1'], (m2 h2) as [[a2|e2] h2']; try contradiction.
  - destruct Hm as [<- HQ]. apply (Hk a1 h1' h2' HQ).
  - exact Hm.
Qed.

Lemma sim_ret {A} (a : A) : (forall h1 h2, P h1 h2 -> Q h1 h2) -> sim P Q E (ret a) (ret a).
Proof. intros HPQ h1 h2 HP. split; [reflexivity | now apply HPQ]. Qed.

Lemma sim_raise {A} (e : exn) :
  (forall h1 h2, P h1 h2 -> E h1 h2) -> sim P Q E (@raise A e) (raise e).
Proof. intros HPE h1 h2 HP. split; [reflexivity | now apply HPE]. Qed.

Lemma sim_lift {A} (r : result A) :
  (forall h1 h2, P h1 h2 -> Q h1 h2) -> (forall h1 h2, P h1 h2 -> E h1 h2) ->
  sim P Q E (lift r) (lift r).
Proof. intros HPQ HPE h1 h2 HP. destruct r; (split; [reflexivity | auto]). Qed.

Lemma sim_get {A} (f : handler -> A) :
  (forall h1 h2, P h1 h2 -> Q h1 h2) -> (forall h1 h2, P h1 h2 -> f h1 = f h2) ->
  sim P Q E (get f) (get f).
Proof. intros HPQ Hf h1 h2 HP. split; [now apply Hf | now apply HPQ]. Qed.

Lemma sim_modify (f : handler -> handler) :
  (forall h1 h2, P h1 h2 -> Q (f h1) (f h2)) -> sim P Q E (modify f) (modify f).
Proof. intros Hf h1 h2 HP. split; [reflexivity | now apply Hf]. Qed.

End Simulation.

(** A [get] whose value the rest of the method may rely on. *)
Lemma sim_bind_get {A B} {P Q E : handler -> handler -> Prop} (f : handler -> A)
    (k1 k2 : A -> M B) :
  (forall h1 h2, P h1 h2 -> f h1 = f h2) ->
  (forall a, sim (fun h1 h2 => P h1 h2 /\ f h1 = a) Q E (k1 a) (k2 a)) ->
  sim P Q E (bind (get f) k1) (bind (get f) k2).
Proof.
  intros Hf Hk h1 h2 HP. unfold bind, get. rewrite <- (Hf h1 h2 HP).
  apply (Hk (f h1) h1 h2). split; [exact HP | reflexivity].
Qed.

Lemma sim_when {P E : handler -> handler -> Prop} b (m1 m2 : M unit) :
  sim P P E m1 m2 -> sim P P E (when b m1) (when b m2).
Proof. destruct b; [auto | intros _; now apply sim_ret]. Qed.

Lemma sim_weaken {A} (P P' Q Q' E : handler -> handler -> Prop) (m1 m2 : M A) :
  sim P Q E m1 m2 ->
  (forall h1 h2, P' h1 h2 -> P h1 h2) -> (forall h1 h2, Q h1 h2 -> Q' h1 h2) ->
  sim P' Q' E m1 m2.
Proof.
  intros Hm HP HQ h1 h2 HP'. specialize (Hm h1 h2 (HP _ _ HP')).
  destruct (m1 h1) as [[a1|e1] h1'], (m2 h2) as [[a2|e2] h2']; try contradiction.
  - destruct Hm. auto.
  - exact Hm.
Qed.

(** ** One request per connection *)

Ltac deaf_leaf :=
  let HR := fresh "HR" in
  intros [] [] HR; unfold same_but_rfile in *; cbn in HR |- *;
  injection HR; intros; subst; reflexivity.

Ltac deaf_step :=
  match goal with
  | |- deaf _ => unfold deaf
  | |- sim _ _ _ (bind _ _) (bind _ _) => apply (sim_bind (Q := same_but_rfile)); [|intros]
  | |- sim _ _ _ (when _ _) (when _ _) => apply sim_when
  | |- sim _ _ _ (ret _) (ret _) => apply sim_ret; auto
  | |- sim _ _ _ (raise _) (raise _) => apply sim_raise; auto
  | |- sim _ _ _ (lift _) (lift _) => apply sim_lift; auto
  | |- sim _ _ _ (modify _) (modify _) => apply sim_modify; deaf_leaf
  | |- sim _ _ _ (get _) (get _) => apply sim_get; [auto | deaf_leaf]
  | |- sim _ _ _ (match (if ?test then _ else _) with _ => _ end) _ => destruct test
  | |- sim _ _ _ (if ?test then _ else _) _ => destruct test
  | |- sim _ _ _ (match ?x with _ => _ end) _ => destruct x
  | |- sim _ _ _ ?m ?m => solve [change (deaf m); eauto]
  end.

Ltac deaf_tac := repeat deaf_step.

Section OneRequest.
Import PyStr HttpServer SocketServer WasmServer.
Context `{PyLib} (w : World) (db : Mimetypes.MimeTypes).

#[local] Existing Instance WASMHandler.

Lemma deaf_write b : deaf (write b).
Proof.
  intros h1 h2 HR. unfold same_but_rfile in HR.
  assert (Hpeer : writes_left h1 = writes_left h2) by exact (f_equal writes_left HR).
  unfold write. rewrite <- Hpeer.
  destruct (writes_left h1) as [[|n]|]; (split; [reflexivity|]);
    destruct h1, h2; cbn in HR |- *; injection HR; intros; subst; reflexivity.
Qed.

Lemma deaf_log_message message : deaf (log_message message).
Proof.
  intros h1 h2 HR. unfold same_but_rfile in HR.
  assert (Hroom : stderr_left h1 = stderr_left h2) by exact (f_equal stderr_left HR).
  unfold log_message. rewrite <- Hroom.
  destruct (stderr_left h1) as [[|n]|]; (split; [reflexivity|]);
    destruct h1, h2; cbn in HR |- *; injection HR; intros; subst; reflexivity.
Qed.

Lemma deaf_date_time_string timestamp : deaf (date_time_string w timestamp).
Proof. unfold date_time_string. deaf_tac. Qed.

Lemma deaf_log_request code : deaf (log_request code).
Proof. unfold log_request. pose proof deaf_log_message. deaf_tac. Qed.

Lemma deaf_append_header_line line : deaf (append_header_line line).
Proof. unfold append_header_line. deaf_tac. Qed.

Lemma deaf_send_response_only code message : deaf (send_response_only code message).
Proof. unfold send_response_only. pose proof deaf_append_header_line. deaf_tac. Qed.

Lemma deaf_send_header keyword value : deaf (send_header keyword value).
Proof. unfold send_header. pose proof deaf_append_header_line. deaf_tac. Qed.

Lemma deaf_send_response code message : deaf (send_response w code message).
Proof.
  unfold send_response. pose proof deaf_log_request. pose proof deaf_date_time_string.
  pose proof deaf_send_response_only. pose proof deaf_send_header. deaf_tac.
Qed.

Lemma deaf_flush_headers : deaf flush_headers.
Proof. unfold flush_headers. pose proof deaf_write. deaf_tac. Qed.

Lemma deaf_Base_end_headers : deaf Base_end_headers.
Proof. unfold Base_end_headers. pose proof deaf_flush_headers. deaf_tac. Qed.

Lemma deaf_end_headers : deaf end_headers.
Proof.
  unfold end_headers, WASMHandler. pose proof deaf_send_header.
  pose proof deaf_Base_end_headers. deaf_tac.
Qed.

Lemma deaf_send_error code message explain : deaf (send_error w code message explain).
Proof.
  unfold send_error. unfold log_error.
  pose proof deaf_log_message. pose proof deaf_send_response.
  pose proof deaf_send_header. pose proof deaf_end_headers. pose proof deaf_write. deaf_tac.
Qed.

Lemma deaf_handle_expect_100 : deaf handle_expect_100.
Proof.
  unfold handle_expect_100. pose proof deaf_send_response_only.
  pose proof deaf_end_headers. deaf_tac.
Qed.

Lemma deaf_parse_request_headers : deaf (parse_request_headers w).
Proof.
  unfold parse_request_headers. pose proof deaf_send_error.
  pose proof deaf_handle_expect_100. deaf_tac.
Qed.

Lemma deaf_parse_request_words words : deaf (parse_request_words w words).
Proof.
  unfold parse_request_words. pose proof deaf_send_error.
  pose proof deaf_parse_request_headers. deaf_tac.
Qed.

Lemma deaf_parse_request : deaf (parse_request w).
Proof.
  unfold parse_request. pose proof deaf_send_error.
  pose proof deaf_parse_request_words. deaf_tac.
Qed.

Lemma deaf_copyfileobj fuel : forall source, deaf (copyfileobj fuel source).
Proof.
  induction fuel as [|fuel IH]; intros source; simpl; pose proof deaf_write; deaf_tac.
Qed.

Lemma deaf_list_entries path names : deaf (list_entries path names).
Proof.
  induction names as [|name names IH]; simpl; unfold os_path_isdir, os_path_islink; deaf_tac.
Qed.

Lemma deaf_list_directory path : deaf (list_directory w path).
Proof.
  unfold list_directory, os_listdir. pose proof deaf_send_error.
  pose proof deaf_list_entries. pose proof deaf_send_response.
  pose proof deaf_send_header. pose proof deaf_end_headers. deaf_tac.
Qed.

Lemma deaf_send_head_file path : deaf (send_head_file w db path).
Proof.
  unfold send_head_file, os_open_rb. pose proof deaf_send_error.
  pose proof deaf_send_response. pose proof deaf_send_header.
  pose proof deaf_date_time_string. pose proof deaf_end_headers. deaf_tac.
Qed.

Lemma deaf_send_head : deaf (send_head w db).
Proof.
  unfold send_head, os_path_isdir, os_path_isfile.
  pose proof deaf_send_response. pose proof deaf_send_header.
  pose proof deaf_end_headers. pose proof deaf_send_head_file.
  pose proof deaf_list_directory. deaf_tac.
Qed.

Lemma deaf_do_GET : deaf (do_GET w db).
Proof.
  unfold do_GET, copyfile. pose proof deaf_send_head. pose proof deaf_copyfileobj. deaf_tac.
Qed.

Lemma deaf_do_HEAD : deaf (do_HEAD w db).
Proof. unfold do_HEAD. pose proof deaf_send_head. deaf_tac. Qed.

(** What [handle_one_request] does with the line it has read. *)
Lemma deaf_after_readline (raw : string) :
  deaf (modify (set_raw_requestline raw);;
        if 65536 <? Z.of_nat (String.length raw) then
          modify (set_requestline EmptyString);;
          modify (set_request_version EmptyString);;
          modify (set_command (Some EmptyString));;
          send_error w 414 None None
        else if is_empty raw then modify (set_close_connection true)
        else
          ok ← parse_request w;
          if negb ok then ret tt
          else
            cmd ← get command;
            match method w db (default EmptyString cmd) with
            | None =>
                send_error w 501
                  (Some ("Unsupported method (" +:+ repr (default EmptyString cmd) +:+ ")"))
                  None
            | Some m => m
            end).
Proof.
  unfold method. pose proof deaf_send_error. pose proof deaf_parse_request.
  pose proof deaf_do_GET. pose proof deaf_do_HEAD. deaf_tac.
Qed.

(** A method that reads a line and goes on without reading does the
    same whatever follows the line on the connection. *)
Lemma readline_then {A : Type} (k : string -> M A) (a : arrival) (more : list arrival)
    (h : handler) :
  (forall raw, deaf (k raw)) ->
  (bind readline k (set_rfile (a :: more) h)).1 = (bind readline k (set_rfile [a] h)).1
  /\ same_but_rfile (bind readline k (set_rfile (a :: more) h)).2
                    (bind readline k (set_rfile [a] h)).2.
Proof.
  intros Hk. unfold bind, readline. cbn [rfile set_rfile].
  destruct a as [raw hb| |]; [|split; destruct h; reflexivity..].
  assert (HR : same_but_rfile
                 (set_pending_headers hb (set_rfile more (set_rfile (Line raw hb :: more) h)))
                 (set_pending_headers hb (set_rfile [] (set_rfile [Line raw hb] h))))
    by (destruct h; reflexivity).
  specialize (Hk raw _ _ HR).
  destruct (k raw (set_pending_headers hb (set_rfile more (set_rfile (Line raw hb :: more) h))))
    as [[a1|e1] h1];
    destruct (k raw (set_pending_headers hb (set_rfile [] (set_rfile [Line raw hb] h))))
      as [[a2|e2] h2]; try contradiction; destruct Hk as [-> HR']; split; auto.
Qed.

(** [handle_one_request] reads one arrival, and nothing after it. *)
Lemma handle_one_request_first (a : arrival) (more : list arrival) (h : handler) :
  (handle_one_request w db (set_rfile (a :: more) h)).1
  = (handle_one_request w db (set_rfile [a] h)).1
  /\ same_but_rfile (handle_one_request w db (set_rfile (a :: more) h)).2
                    (handle_one_request w db (set_rfile [a] h)).2.
Proof.
  unfold handle_one_request. apply readline_then. intros raw. apply deaf_after_readline.
Qed.

End OneRequest.

Section OneRequestPerConnection.
Import PyStr HttpServer SocketServer WasmServer.
Context `{PyLib} (w : World).

(** X6.  The handler answers one request per connection: what the client
    sends after the first request line and its headers is never read, so the
    reply and the outcome are those to the first request alone; and the
    handler always ends with the connection to be closed. *)
Theorem one_request_per_connection
    (d : filesystem) (a : arrival) (more : list arrival) (peer : option nat) :
  reply w d {| arrivals := a :: more; peer_takes := peer |}
  = reply w d {| arrivals := [a]; peer_takes := peer |}
  /\ (serve w d {| arrivals := a :: more; peer_takes := peer |}).1
     = (serve w d {| arrivals := [a]; peer_takes := peer |}).1
  /\ close_connection (serve w d {| arrivals := a :: more; peer_takes := peer |}).2 = true.
Proof.
  unfold reply, serve, WASMHandler_handle.
  rewrite !handle_once by reflexivity.
  pose proof (handle_one_request_first w (mimetypes_db w) a more
                (new_handler d {| arrivals := []; peer_takes := peer |})) as [Hout Hsame].
  pose proof (handle_ok w (mimetypes_db w)
                (new_handler d {| arrivals := a :: more; peer_takes := peer |}) eq_refl)
    as [Hclosed _].
  rewrite handle_once in Hclosed by reflexivity.
  split; [|split; [exact Hout | exact Hclosed]].
  unfold same_but_rfile in Hsame. apply (f_equal wfile) in Hsame. exact Hsame.
Qed.

End OneRequestPerConnection.

(** ** The handler beside the handler of the base class *)

Lemma beside_weaken b h1 h2 : beside b h1 h2 -> beside false h1 h2.
Proof. intros (Heq & Hw & _). repeat split; auto. discriminate. Qed.

Lemma beside_beside_raised b h1 h2 : beside b h1 h2 -> beside_raised h1 h2.
Proof.
  intros (Heq & Hw & _). split; [|exact Hw].
  destruct h1, h2. cbn in *. injection Heq. intros. subst. reflexivity.
Qed.

#[local] Hint Resolve beside_weaken beside_beside_raised : core.

Ltac beside_leaf :=
  let HR := fresh "HR" in let Hw := fresh "Hw" in let Hb := fresh "Hb" in
  intros [] [] (HR & Hw & Hb); cbn in HR; injection HR; intros; subst;
  first [reflexivity
        | split; [reflexivity | split; [exact Hw | first [exact Hb | discriminate]]]].

Ltac beside_step :=
  match goal with
  | |- sim ?P _ _ (bind (get _) _) (bind (get _) _) => apply (sim_bind (Q := P)); [|intros]
  | |- sim ?P _ _ (bind (modify _) _) (bind (modify _) _) =>
      apply (sim_bind (Q := P)); [|intros]
  | |- sim ?P _ _ (bind (when _ (modify _)) _) (bind (when _ (modify _)) _) =>
      apply (sim_bind (Q := P)); [|intros]
  | |- sim ?P _ _ (bind (lift _) _) (bind (lift _) _) => apply (sim_bind (Q := P)); [|intros]
  | |- sim ?P _ _ (bind (if _ then _ else _) _) (bind (if _ then _ else _) _) =>
      apply (sim_bind (Q := P)); [|intros]
  | |- sim ?P _ _ (bind (match _ with _ => _ end) _) (bind (match _ with _ => _ end) _) =>
      apply (sim_bind (Q := P)); [|intros]
  | |- sim _ _ _ (bind _ _) (bind _ _) => eapply sim_bind; [solve [eauto] | intros]
  | |- sim _ _ _ (when _ _) (when _ _) => apply sim_when
  | |- sim _ _ _ (ret _) (ret _) => apply sim_ret; eauto
  | |- sim _ _ _ (raise _) (raise _) => apply sim_raise; eauto
  | |- sim _ _ _ (lift _) (lift _) => apply sim_lift; eauto
  | |- sim _ _ _ (modify _) (modify _) => apply sim_modify; beside_leaf
  | |- sim _ _ _ (get _) (get _) => apply sim_get; [eauto | beside_leaf]
  | |- sim _ _ _ (match (if ?test then _ else _) with _ => _ end) _ => destruct test
  | |- sim _ _ _ (if ?test then _ else _) _ => destruct test
  | |- sim _ _ _ (match ?x with _ => _ end) _ => destruct x
  | |- sim _ _ _ _ _ => solve [eauto | eapply sim_weaken; eauto]
  end.

Ltac beside_tac := repeat beside_step.

Section BesideTheBaseClass.
Import PyStr HttpServer SocketServer WasmServer.
Context `{PyLib} (w : World) (db : Mimetypes.MimeTypes).

Lemma beside_write b chunk :
  sim (beside b) (beside b) beside_raised (write chunk) (write chunk).
Proof.
  intros h1 h2 (HR & Hw & Hb).
  assert (Hpeer : writes_left h1 = writes_left h2) by exact (f_equal writes_left HR).
  unfold write. rewrite <- Hpeer.
  destruct (writes_left h1) as [[|n]|]; (split; [reflexivity|]).
  - apply (beside_beside_raised b). repeat split; assumption.
  - split; [|split; [|exact Hb]].
    + destruct h1, h2; cbn in HR |- *; injection HR; intros; subst; reflexivity.
    + cbn. apply Forall2_app; [exact Hw | repeat constructor].
  - split; [|split; [|exact Hb]].
    + destruct h1, h2; cbn in HR |- *; injection HR; intros; subst; reflexivity.
    + cbn. apply Forall2_app; [exact Hw | repeat constructor].
Qed.

Lemma beside_readline b : sim (beside b) (beside b) beside_raised readline readline.
Proof.
  intros h1 h2 (HR & Hw & Hb).
  assert (Hrfile : rfile h1 = rfile h2) by exact (f_equal rfile HR).
  unfold readline. rewrite <- Hrfile.
  destruct (rfile h1) as [|[raw hb| |] rest]; (split; [reflexivity|]).
  - repeat split; assumption.
  - split; [|split; [exact Hw | exact Hb]].
    destruct h1, h2; cbn in HR |- *; injection HR; intros; subst; reflexivity.
  - split; [|exact Hw].
    destruct h1, h2; cbn in HR |- *; injection HR; intros; subst; reflexivity.
  - apply (beside_beside_raised b). repeat split; assumption.
Qed.

Lemma beside_log_message b message :
  sim (beside b) (beside b) beside_raised (log_message message) (log_message message).
Proof.
  intros h1 h2 (HR & Hw & Hb).
  assert (Hroom : stderr_left h1 = stderr_left h2) by exact (f_equal stderr_left HR).
  unfold log_message. rewrite <- Hroom.
  destruct (stderr_left h1) as [[|n]|]; (split; [reflexivity|]).
  - apply (beside_beside_raised b). repeat split; assumption.
  - split; [|split; [exact Hw | exact Hb]].
    destruct h1, h2; cbn in HR |- *; injection HR; intros; subst; reflexivity.
  - split; [|split; [exact Hw | exact Hb]].
    destruct h1, h2; cbn in HR |- *; injection HR; intros; subst; reflexivity.
Qed.

Lemma beside_date_time_string b timestamp :
  sim (beside b) (beside b) beside_raised
    (date_time_string w timestamp) (date_time_string w timestamp).
Proof. unfold date_time_string. beside_tac. Qed.

Lemma beside_log_request b code :
  sim (beside b) (beside b) beside_raised (log_request code) (log_request code).
Proof. unfold log_request. pose proof beside_log_message. beside_tac. Qed.

Lemma beside_append_header_line b line :
  sim (beside b) (beside true) beside_raised (append_header_line line) (append_header_line line).
Proof.
  unfold append_header_line. apply sim_modify.
  intros [] [] (HR & Hw & Hb). unfold beside in *. cbn in HR, Hw, Hb |- *.
  injection HR. intros. subst. repeat split; eauto.
Qed.

Lemma beside_old_style b h1 h2 :
  beside b h1 h2 /\ request_version h1 = "HTTP/0.9" -> beside true h1 h2.
Proof. intros [(Heq & Hw & _) Hrv]. repeat split; auto. Qed.

Lemma beside_request_version b h1 h2 :
  beside b h1 h2 -> request_version h1 = request_version h2.
Proof. intros [Heq _]. apply (f_equal request_version) in Heq. exact Heq. Qed.

Lemma beside_send_response_only b code message :
  sim (beside b) (beside true) beside_raised
    (send_response_only code message) (send_response_only code message).
Proof.
  unfold send_response_only. apply sim_bind_get; [apply beside_request_version|].
  intros rv. destruct (String.eqb_spec rv "HTTP/0.9") as [->|Hnew]; cbn [negb].
  - apply sim_ret. apply beside_old_style.
  - eapply sim_weaken; [apply (beside_append_header_line b) | now intros ? ? [] | auto].
Qed.

Lemma beside_send_header b keyword value :
  sim (beside b) (beside true) beside_raised
    (send_header keyword value) (send_header keyword value).
Proof.
  unfold send_header. apply sim_bind_get; [apply beside_request_version|].
  intros rv. apply (sim_bind (Q := beside true)); [|intros; beside_tac].
  destruct (String.eqb_spec rv "HTTP/0.9") as [->|Hnew]; cbn [negb when].
  - apply sim_ret. apply beside_old_style.
  - eapply sim_weaken; [apply (beside_append_header_line b) | now intros ? ? [] | auto].
Qed.

Lemma beside_send_response b code message :
  sim (beside b) (beside true) beside_raised
    (send_response w code message) (send_response w code message).
Proof.
  unfold send_response. pose proof beside_log_request. pose proof beside_date_time_string.
  pose proof beside_send_response_only. pose proof beside_send_header. beside_tac.
Qed.

(** The one place where the classes differ. *)
Lemma beside_end_headers :
  sim (beside true) (beside false) beside_raised
    (end_headers (HandlerClass := WASMHandler))
    (end_headers (HandlerClass := SimpleHTTPRequestHandler)).
Proof.
  intros h1 h2 (Heq & Hw & Hbuf). specialize (Hbuf eq_refl).
  unfold end_headers, WASMHandler, SimpleHTTPRequestHandler.
  assert (Hrv : request_version h2 = request_version h1)
    by (apply (f_equal request_version) in Heq; symmetry; exact Heq).
  destruct (String.eqb (request_version h1) "HTTP/0.9") eqn:Hold.
  - erewrite bind_Ok; [|apply send_header_simple; [exact Hold | reflexivity]].
    erewrite bind_Ok; [|apply send_header_simple; [exact Hold | reflexivity]].
    unfold Base_end_headers, bind, get. rewrite Hrv, Hold. cbn.
    repeat split; auto.
  - destruct Hbuf as [Hbuf|[lines Hlines]]; [apply String.eqb_neq in Hold; contradiction|].
    erewrite bind_Ok; [|apply send_header_plain; [exact Hold | reflexivity]].
    erewrite bind_Ok; [|apply send_header_plain; [exact Hold | reflexivity]].
    unfold Base_end_headers, flush_headers, bind, get, modify, write, buffered.
    destruct h1, h2. cbn in Heq, Hw, Hold, Hlines, Hrv |- *. injection Heq. intros. subst.
    rewrite Hold. cbn.
    match goal with
    | |- context [match ?peer with Some _ => _ | None => _ end] =>
        destruct peer as [[|n]|]
    end; cbn.
    + split; [reflexivity|]. split; [reflexivity | exact Hw].
    + split; [reflexivity|]. split; [reflexivity|]. split; [|discriminate].
      apply Forall2_app; [exact Hw|]. constructor; [|constructor].
      right. exists lines. rewrite <- !List.app_assoc. split; reflexivity.
    + split; [reflexivity|]. split; [reflexivity|]. split; [|discriminate].
      apply Forall2_app; [exact Hw|]. constructor; [|constructor].
      right. exists lines. rewrite <- !List.app_assoc. split; reflexivity.
Qed.

Lemma beside_send_error code message explain :
  alike (fun cls => send_error (cls := cls) w code message explain).
Proof.
  unfold alike, send_error, log_error.
  pose proof beside_log_message. pose proof beside_send_response.
  pose proof beside_send_header. pose proof beside_end_headers. pose proof beside_write.
  destruct (default ("???", "???") (responses code)) as [shortmsg longmsg].
  beside_tac.
Qed.

Lemma beside_handle_expect_100 : alike (fun cls => handle_expect_100 (cls := cls)).
Proof.
  unfold alike, handle_expect_100. pose proof beside_send_response_only.
  pose proof beside_end_headers. beside_tac.
Qed.

Lemma beside_parse_request_headers :
  alike (fun cls => parse_request_headers (cls := cls) w).
Proof.
  unfold alike, parse_request_headers. pose proof beside_send_error.
  pose proof beside_handle_expect_100. unfold alike in *. beside_tac.
Qed.

Lemma beside_parse_request_words words :
  alike (fun cls => parse_request_words (cls := cls) w words).
Proof.
  unfold alike, parse_request_words. pose proof beside_send_error.
  pose proof beside_parse_request_headers. unfold alike in *. beside_tac.
Qed.

Lemma beside_parse_request : alike (fun cls => parse_request (cls := cls) w).
Proof.
  unfold alike, parse_request. pose proof beside_send_error.
  pose proof beside_parse_request_words. unfold alike in *. beside_tac.
Qed.

Lemma beside_copyfileobj fuel : forall source,
  sim (beside false) (beside false) beside_raised
    (copyfileobj fuel source) (copyfileobj fuel source).
Proof.
  induction fuel as [|fuel IH]; intros source; simpl; pose proof beside_write; beside_tac.
Qed.

Lemma beside_list_entries path names :
  sim (beside false) (beside false) beside_raised
    (list_entries path names) (list_entries path names).
Proof.
  induction names as [|name names IH]; simpl; unfold os_path_isdir, os_path_islink;
    beside_tac.
Qed.

Lemma beside_list_directory path :
  alike (fun cls => list_directory (cls := cls) w path).
Proof.
  unfold alike, list_directory, os_listdir. pose proof beside_send_error.
  pose proof beside_list_entries. pose proof beside_send_response.
  pose proof beside_send_header. pose proof beside_end_headers. unfold alike in *. beside_tac.
Qed.

Lemma beside_send_head_file path :
  alike (fun cls => send_head_file (cls := cls) w db path).
Proof.
  unfold alike, send_head_file, os_open_rb. pose proof beside_send_error.
  pose proof beside_send_response. pose proof beside_send_header.
  pose proof beside_date_time_string. pose proof beside_end_headers.
  unfold alike in *. beside_tac.
Qed.

Lemma beside_send_head : alike (fun cls => send_head (cls := cls) w db).
Proof.
  unfold alike, send_head, os_path_isdir, os_path_isfile.
  pose proof beside_send_response. pose proof beside_send_header.
  pose proof beside_end_headers. pose proof beside_send_head_file.
  pose proof beside_list_directory. unfold alike in *. beside_tac.
Qed.

Lemma beside_do_GET : alike (fun cls => do_GET (cls := cls) w db).
Proof.
  unfold alike, do_GET, copyfile. pose proof beside_send_head. pose proof beside_copyfileobj.
  unfold alike in *. beside_tac.
Qed.

Lemma beside_do_HEAD : alike (fun cls => do_HEAD (cls := cls) w db).
Proof. unfold alike, do_HEAD. pose proof beside_send_head. unfold alike in *. beside_tac. Qed.

Lemma beside_handle_one_request : alike (fun cls => handle_one_request (cls := cls) w db).
Proof.
  unfold alike, handle_one_request, method. pose proof beside_readline.
  pose proof beside_send_error. pose proof beside_parse_request.
  pose proof beside_do_GET. pose proof beside_do_HEAD. unfold alike in *. beside_tac.
Qed.

Lemma beside_handle_loop fuel : alike (fun cls => handle_loop (cls := cls) w db fuel).
Proof.
  unfold alike. induction fuel as [|fuel IH]; simpl; pose proof beside_handle_one_request;
    unfold alike in *; beside_tac.
Qed.

Lemma beside_handle : alike (fun cls => handle (cls := cls) w db).
Proof.
  unfold alike, handle. pose proof beside_handle_one_request.
  pose proof beside_handle_loop. unfold alike in *. beside_tac.
Qed.

End BesideTheBaseClass.

Section OverrideAndBaseClass.
Import PyStr HttpServer SocketServer WasmServer.
Context `{PyLib} (w : World).

(** X7.  The override changes the header blocks and nothing else.  On
    every connection and file system the handler ends as the handler of the
    base class does (it returns, or raises the same exception), writes the
    same messages to the log and leaves the connection to be closed or not as
    the base class does; and it writes the same number of chunks, each the
    chunk the base class writes or, for a header block, that block with the
    two cross-origin headers before its blank line. *)
Theorem override_adds_only_the_headers (d : filesystem) (c : connection) :
  (serve w d c).1 = (base_serve w d c).1
  /\ Forall2 adds_headers (reply w d c) (wfile (base_serve w d c).2)
  /\ stderr (serve w d c).2 = stderr (base_serve w d c).2
  /\ close_connection (serve w d c).2 = close_connection (base_serve w d c).2.
Proof.
  unfold reply, serve, base_serve, WASMHandler_handle.
  assert (Hstart : beside false (new_handler d c) (new_handler d c))
    by (repeat split; [constructor | discriminate]).
  pose proof (beside_handle w (mimetypes_db w) _ _ Hstart) as Hsim. cbv beta in Hsim.
  destruct (handle (cls := WASMHandler) w (mimetypes_db w) (new_handler d c)) as [[[]|e1] h1],
    (handle (cls := SimpleHTTPRequestHandler) w (mimetypes_db w) (new_handler d c))
      as [[[]|e2] h2]; try contradiction; cbn [fst snd].
  - destruct Hsim as [_ (Heq & Hw & _)]. split; [reflexivity|]. split; [exact Hw|].
    split; [exact (f_equal stderr Heq) | exact (f_equal close_connection Heq)].
  - destruct Hsim as [-> (Heq & Hw)]. split; [reflexivity|]. split; [exact Hw|].
    split; [exact (f_equal stderr Heq) | exact (f_equal close_connection Heq)].
Qed.

End OverrideAndBaseClass.

(** ** Directories *)

Section Directories.
Import PyStr HttpServer SocketServer WasmServer Confinement.
Context `{PyLib} (w : World).

#[local] Existing Instance WASMHandler.

Lemma endswith_char (c : ascii) : forall a,
  endswith (a +:+ String c EmptyString) "/" = Ascii.eqb c "/".
Proof.
  induction a as [|d a IH].
  - cbn. destruct (Ascii.eqb c "/"); reflexivity.
  - rewrite sapp_cons.
    change (endswith (String d (a +:+ String c EmptyString)) "/")
      with (if String.eqb (String d (a +:+ String c EmptyString)) "/" then true
            else endswith (a +:+ String c EmptyString) "/").
    rewrite IH. destruct a; cbn; destruct (Ascii.eqb d "/"); destruct (Ascii.eqb c "/");
      reflexivity.
Qed.

Lemma join_index_no_slash dir : endswith (PosixPath.join dir "index.html") "/" = false.
Proof.
  unfold PosixPath.join. cbn [startswith Ascii.eqb]. cbv iota.
  destruct (is_empty dir || endswith dir "/").
  - change (dir +:+ "index.html") with (dir +:+ ("index.htm" +:+ "l")).
    rewrite <- (sapp_assoc dir "index.htm" "l"). apply (endswith_char "l").
  - change (dir +:+ "/" +:+ "index.html") with (dir +:+ ("/index.htm" +:+ "l")).
    rewrite <- (sapp_assoc dir "/index.htm" "l"). apply (endswith_char "l").
Qed.

(** [send_head] for a directory whose request path has no slash at its
    end. *)
Lemma send_head_redirect db scheme netloc url_path query fragment h :
  String.eqb (request_version h) "HTTP/0.9" = false ->
  default [] (_headers_buffer h) = [] ->
  writes_left h = None ->
  stderr_left h = None ->
  isdir (disk h) (translate_path w (path h)) = true ->
  urlsplit (path h) = Ok (scheme, netloc, url_path, query, fragment) ->
  endswith url_path "/" = false ->
  exists h',
    send_head w db h = (Ok None, h')
    /\ writes_left h' = None
    /\ wfile h'
       = wfile h
         ++ [header_block w 301 "Moved Permanently"
               [("Location", urlunsplit (scheme, netloc, url_path +:+ "/", query, fragment));
                ("Content-Length", "0")]].
Proof.
  intros Hrv Hbuf Hw Hs Hdir Hsplit Hslash. unfold send_head. run. unfold os_path_isdir. run.
  unfold self_path. rewrite Hdir, Hsplit. run. rewrite Hslash. cbn [negb].
  run_with ltac:(apply send_response_phrase; [exact Hrv | exact Hs]).
  run_header Hrv. run_header Hrv. rewrite !buffered_buffered.
  erewrite bind_Ok; [|apply end_headers_run; state_simpl;
                      [exact Hrv | rewrite Hbuf; reflexivity | exact Hw]].
  eexists. split; [reflexivity|]. split; [exact Hw | reflexivity].
Qed.

(** [send_head] for a directory with an [index.html]. *)
Lemma send_head_index db scheme netloc url_path query fragment h :
  isdir (disk h) (translate_path w (path h)) = true ->
  urlsplit (path h) = Ok (scheme, netloc, url_path, query, fragment) ->
  endswith url_path "/" = true ->
  isfile (disk h) (PosixPath.join (translate_path w (path h)) "index.html") = true ->
  send_head w db h
  = send_head_file w db (PosixPath.join (translate_path w (path h)) "index.html") h.
Proof.
  intros Hdir Hsplit Hslash Hindex. unfold send_head. run. unfold os_path_isdir. run.
  unfold self_path. rewrite Hdir, Hsplit. run. rewrite Hslash. cbn [negb].
  unfold os_path_isfile. run. now rewrite Hindex.
Qed.

Lemma list_entries_run dir names h :
  list_entries dir names h = (Ok (entries_of (disk h) dir names), h).
Proof.
  induction names as [|name names IH]; [reflexivity|].
  cbn [list_entries]. unfold os_path_isdir, os_path_islink. run. run.
  rewrite (bind_Ok _ _ _ _ _ IH). reflexivity.
Qed.

(** [send_head] for a directory without index file: the listing. *)
Lemma send_head_listing db scheme netloc url_path query fragment names page h :
  String.eqb (request_version h) "HTTP/0.9" = false ->
  default [] (_headers_buffer h) = [] ->
  writes_left h = None ->
  stderr_left h = None ->
  isdir (disk h) (translate_path w (path h)) = true ->
  urlsplit (path h) = Ok (scheme, netloc, url_path, query, fragment) ->
  endswith url_path "/" = true ->
  isfile (disk h) (PosixPath.join (translate_path w (path h)) "index.html") = false ->
  isfile (disk h) (PosixPath.join (translate_path w (path h)) "index.htm") = false ->
  listdir (disk h) (translate_path w (path h)) = Ok names ->
  listing_page (path h) (translate_path w (path h))
    (entries_of (disk h) (translate_path w (path h)) names) = Some page ->
  exists h',
    send_head w db h = (Ok (Some page), h')
    /\ writes_left h' = None
    /\ wfile h'
       = wfile h
         ++ [header_block w 200 "OK"
               [("Content-type", "text/html; charset=" +:+ filesystem_encoding);
                ("Content-Length", of_Z (Z.of_nat (String.length page)))]].
Proof.
  intros Hrv Hbuf Hw Hs Hdir Hsplit Hslash Hhtml Hhtm Hlist Hpage.
  unfold send_head. run. unfold os_path_isdir. run.
  unfold self_path. rewrite Hdir, Hsplit. run. rewrite Hslash. cbn [negb].
  unfold os_path_isfile. run. rewrite Hhtml. run. rewrite Hhtm.
  unfold list_directory, os_listdir. run. rewrite Hlist. run. unfold self_path.
  rewrite (bind_Ok _ _ _ _ _ (list_entries_run _ names h)). rewrite Hpage. run.
  run_with ltac:(apply send_response_phrase; [exact Hrv | exact Hs]).
  run_header Hrv. run_header Hrv. rewrite !buffered_buffered.
  erewrite bind_Ok; [|apply end_headers_run; state_simpl;
                      [exact Hrv | rewrite Hbuf; reflexivity | exact Hw]].
  eexists. split; [reflexivity|]. split; [exact Hw | reflexivity].
Qed.

(** The reply to a [GET] or [HEAD], from what [send_head] does. *)
Lemma reply_of_send_head raw cmd url version hs more d source h' :
  accepted_request w raw cmd url version ->
  cmd = "GET" \/ cmd = "HEAD" ->
  send_head w (mimetypes_db w) (request_state d raw cmd url version hs more) = (Ok source, h') ->
  writes_left h' = None ->
  exists chunks,
    reply w d {| arrivals := Line raw (HeaderLines hs) :: more; peer_takes := None |}
    = wfile h' ++ chunks
    /\ String.concat EmptyString chunks
       = (if String.eqb cmd "GET" then default EmptyString source else EmptyString)
    /\ (cmd = "HEAD" \/ source = None -> chunks = []).
Proof.
  intros Hreq Hcmd Hhead Hw. unfold reply, serve, WASMHandler_handle.
  rewrite handle_once by reflexivity.
  erewrite handle_one_request_parsed; [|reflexivity | exact Hreq].
  fold (request_state d raw cmd url version hs more).
  destruct Hcmd as [-> | ->].
  - change (method w (mimetypes_db w) "GET") with (Some (do_GET w (mimetypes_db w))).
    cbv iota. unfold do_GET. rewrite (bind_Ok _ _ _ _ _ Hhead).
    destruct source as [source|].
    + destruct (copyfile_run source h' Hw) as [chunks [-> Hcat]].
      exists chunks. split; [reflexivity|]. split; [exact Hcat|].
      intros [|]; discriminate.
    + exists []. split; [now rewrite List.app_nil_r|]. split; reflexivity.
  - change (method w (mimetypes_db w) "HEAD") with (Some (do_HEAD w (mimetypes_db w))).
    cbv iota. unfold do_HEAD. rewrite (bind_Ok _ _ _ _ _ Hhead).
    exists []. split; [now rewrite List.app_nil_r|]. split; reflexivity.
Qed.

Lemma accepted_not_old_style raw cmd url version :
  accepted_request w raw cmd url version -> String.eqb version "HTTP/0.9" = false.
Proof. intros (_ & _ & _ & Hversion). now apply String.eqb_neq. Qed.

(** X8.  A [GET] or [HEAD] for a directory, with a request path that
    does not end in a slash, is answered with a 301 to the path with the
    slash added, and no body. *)
Theorem directory_without_slash_is_redirected
    (d : filesystem) (raw cmd url version : string) (hs : list (string * string))
    (more : list arrival) (dir scheme netloc url_path query fragment : string) :
  accepted_request w raw cmd url version ->
  cmd = "GET" \/ cmd = "HEAD" ->
  translate_path w (reduce_slashes url) = dir ->
  isdir d dir = true ->
  urlsplit (reduce_slashes url) = Ok (scheme, netloc, url_path, query, fragment) ->
  endswith url_path "/" = false ->
  reply w d {| arrivals := Line raw (HeaderLines hs) :: more; peer_takes := None |}
  = [header_block w 301 "Moved Permanently"
       [("Location", urlunsplit (scheme, netloc, url_path +:+ "/", query, fragment));
        ("Content-Length", "0")]].
Proof.
  intros Hreq Hcmd <- Hdir Hsplit Hslash.
  destruct (send_head_redirect (mimetypes_db w) scheme netloc url_path query fragment
              (request_state d raw cmd url version hs more))
    as [h' [Hhead [Hpeer Hwfile]]];
    [exact (accepted_not_old_style _ _ _ _ Hreq) | reflexivity | reflexivity | reflexivity
    | exact Hdir | exact Hsplit | exact Hslash |].
  destruct (reply_of_send_head raw cmd url version hs more d None h' Hreq Hcmd Hhead Hpeer)
    as [chunks [Hreply [_ Hnone]]].
  rewrite Hreply, Hwfile, (Hnone (or_intror eq_refl)). reflexivity.
Qed.

(** X9.  A [GET] for a directory that has a readable [index.html] last
    modified at a date of the years 1 to 9999, with a request path that ends
    in a slash, is answered with that file: the header block of a 200 with
    the type, length and date of the file, and its bytes. *)
Theorem directory_index_is_served
    (d : filesystem) (raw url version : string) (hs : list (string * string))
    (more : list arrival) (dir scheme netloc url_path query fragment content : string)
    (mtime : Z) :
  accepted_request w raw "GET" url version ->
  translate_path w (reduce_slashes url) = dir ->
  isdir d dir = true ->
  urlsplit (reduce_slashes url) = Ok (scheme, netloc, url_path, query, fragment) ->
  endswith url_path "/" = true ->
  open_rb d (PosixPath.join dir "index.html") = Ok (content, mtime) ->
  datetime_holds mtime = true ->
  not_modified hs mtime = Ok false ->
  exists chunks,
    reply w d {| arrivals := Line raw (HeaderLines hs) :: more; peer_takes := None |}
    = header_block w 200 "OK"
        [("Content-type", guess_type (mimetypes_db w) (PosixPath.join dir "index.html"));
         ("Content-Length", of_Z (Z.of_nat (String.length content)));
         ("Last-Modified", formatdate mtime)] :: chunks
    /\ String.concat EmptyString chunks = content.
Proof.
  intros Hreq <- Hdir Hsplit Hslash Hfile Hholds Hnm.
  assert (Hhead : send_head w (mimetypes_db w) (request_state d raw "GET" url version hs more)
                  = send_head_file w (mimetypes_db w)
                      (PosixPath.join (translate_path w (reduce_slashes url)) "index.html")
                      (request_state d raw "GET" url version hs more)).
  { apply (send_head_index _ scheme netloc url_path query fragment);
      [exact Hdir | exact Hsplit | exact Hslash |].
    change (isfile d (PosixPath.join (translate_path w (reduce_slashes url)) "index.html")
            = true).
    apply (open_rb_isfile _ _ _ _ Hfile). }
  rewrite (send_head_file_found w (mimetypes_db w) _ content mtime) in Hhead;
    [| exact (accepted_not_old_style _ _ _ _ Hreq) | reflexivity | reflexivity | reflexivity
     | apply join_index_no_slash | exact Hfile | exact Hholds | exact Hnm].
  destruct (reply_of_send_head raw "GET" url version hs more d _ _ Hreq (or_introl eq_refl)
              Hhead eq_refl) as [chunks [Hreply [Hcat _]]].
  exists chunks. split; [exact Hreply | exact Hcat].
Qed.

(** X10.  A [GET] or [HEAD] for a directory that can be listed and has
    neither [index.html] nor [index.htm], with a request path that ends in a
    slash, whose listing can be encoded in the encoding of the file system,
    is answered with the listing: the header block of a 200 for an HTML page
    in that encoding, and for a [GET] the page made from the request path,
    the directory and its entries. *)
Theorem directory_is_listed
    (d : filesystem) (raw cmd url version : string) (hs : list (string * string))
    (more : list arrival) (dir scheme netloc url_path query fragment : string)
    (names : list string) (page : string) :
  accepted_request w raw cmd url version ->
  cmd = "GET" \/ cmd = "HEAD" ->
  translate_path w (reduce_slashes url) = dir ->
  isdir d dir = true ->
  urlsplit (reduce_slashes url) = Ok (scheme, netloc, url_path, query, fragment) ->
  endswith url_path "/" = true ->
  isfile d (PosixPath.join dir "index.html") = false ->
  isfile d (PosixPath.join dir "index.htm") = false ->
  listdir d dir = Ok names ->
  listing_page (reduce_slashes url) dir (entries_of d dir names) = Some page ->
  exists chunks,
    reply w d {| arrivals := Line raw (HeaderLines hs) :: more; peer_takes := None |}
    = header_block w 200 "OK"
        [("Content-type", "text/html; charset=" +:+ filesystem_encoding);
         ("Content-Length", of_Z (Z.of_nat (String.length page)))]
      :: chunks
    /\ String.concat EmptyString chunks
       = (if String.eqb cmd "GET" then page else EmptyString)
    /\ (cmd = "HEAD" -> chunks = []).
Proof.
  intros Hreq Hcmd <- Hdir Hsplit Hslash Hhtml Hhtm Hlist Hpage.
  destruct (send_head_listing (mimetypes_db w) scheme netloc url_path query fragment names page
              (request_state d raw cmd url version hs more))
    as [h' [Hhead [Hpeer Hwfile]]];
    [exact (accepted_not_old_style _ _ _ _ Hreq) | reflexivity | reflexivity | reflexivity
    | exact Hdir | exact Hsplit | exact Hslash | exact Hhtml | exact Hhtm | exact Hlist
    | exact Hpage |].
  destruct (reply_of_send_head raw cmd url version hs more d _ h' Hreq Hcmd Hhead Hpeer)
    as [chunks [Hreply [Hcat Hnone]]].
  exists chunks. rewrite Hreply, Hwfile. split; [reflexivity|]. split; [exact Hcat|].
  intros Hhd. apply Hnone. now left.
Qed.

End Directories.

(** ** The port as text *)

Section PortAsText.
Import PyStr PyInt.

Lemma read_uint_acc d : forall p, read_uint d (Z.pos p) = Z.pos (Pos.of_uint_acc d p).
Proof.
  induction d; intros p; cbn [read_uint Pos.of_uint_acc]; [reflexivity|..];
    rewrite <- IHd; f_equal; lia.
Qed.

Lemma read_uint_value d : read_uint d 0 = Z.of_N (Pos.of_uint d).
Proof.
  induction d; cbn [read_uint Pos.of_uint]; [reflexivity | exact IHd |..];
    cbn [Z.mul Z.add Z.of_N]; apply read_uint_acc.
Qed.

Lemma scan_uint d : forall z k,
  scan_digits false z k (NilEmpty.string_of_uint d)
  = Some (read_uint d z, (k + Decimal.nb_digits d)%nat, EmptyString).
Proof.
  induction d; intros z k; cbn [NilEmpty.string_of_uint Decimal.nb_digits read_uint];
    [cbn; now rewrite Nat.add_0_r|..];
    cbn [scan_digits]; change (digit_value _) with (Some 0) || idtac;
    rewrite Nat.add_succ_r; apply (IHd _ (S k)).
Qed.

Lemma uint_ascii d :
  CLiteral.all_chars (fun c => code c <? 127) (NilEmpty.string_of_uint d) = true.
Proof. induction d; cbn [NilEmpty.string_of_uint]; [reflexivity|..]; exact IHd. Qed.

Lemma transform_uint d : transform (NilEmpty.string_of_uint d) = NilEmpty.string_of_uint d.
Proof. apply transform_ascii, uint_ascii. Qed.

Lemma length_uint d : String.length (NilEmpty.string_of_uint d) = Decimal.nb_digits d.
Proof. induction d; cbn; [reflexivity|..]; now rewrite IHd. Qed.

Lemma skip_spaces_uint d :
  skip_spaces (NilEmpty.string_of_uint d) = NilEmpty.string_of_uint d.
Proof. destruct d; reflexivity. Qed.

Lemma underscore_uint d : startswith (NilEmpty.string_of_uint d) "_" = false.
Proof. destruct d; reflexivity. Qed.

(** [PyLong_FromString] on the digits of a numeral that is not empty. *)
Lemma from_string_uint limit d :
  d <> Decimal.Nil -> (Decimal.nb_digits d <= 640)%nat ->
  PyLong_FromString limit (NilEmpty.string_of_uint d) = Some (Z.of_N (Pos.of_uint d))
  /\ PyLong_FromString limit (String "-" (NilEmpty.string_of_uint d))
     = Some (- Z.of_N (Pos.of_uint d)).
Proof.
  intros Hd Hlen.
  assert (Hlimit : over_limit limit (0 + Decimal.nb_digits d) = false).
  { unfold over_limit, MAX_STR_DIGITS_THRESHOLD.
    destruct (640 <? 0 + Decimal.nb_digits d)%nat eqn:Hover; [lia | reflexivity]. }
  assert (Hsome : (0 + Decimal.nb_digits d =? 0)%nat = false).
  { destruct d; [contradiction|..]; reflexivity. }
  split.
  - unfold PyLong_FromString. rewrite skip_spaces_uint.
    assert (Hsign : match NilEmpty.string_of_uint d with
                    | String c s' =>
                        if Ascii.eqb c "+" then (1, s')
                        else if Ascii.eqb c "-" then (-1, s')
                        else (1, NilEmpty.string_of_uint d)
                    | EmptyString => (1, NilEmpty.string_of_uint d)
                    end = (1, NilEmpty.string_of_uint d))
      by (destruct d; reflexivity).
    rewrite Hsign, underscore_uint, scan_uint, Hlimit, Hsome. cbn [skip_spaces is_empty].
    rewrite read_uint_value. f_equal; lia.
  - unfold PyLong_FromString. cbn [skip_spaces Py_ISSPACE]. 
    change (Py_ISSPACE "-") with false. cbv iota.
    change (Ascii.eqb "-" "+") with false. change (Ascii.eqb "-" "-") with true. cbv iota.
    rewrite underscore_uint, scan_uint, Hlimit, Hsome. cbn [skip_spaces is_empty].
    rewrite read_uint_value. f_equal; lia.
Qed.

Lemma int_of_str (limit : nat) (n : Z) :
  (String.length (of_Z n) <= 640)%nat ->
  int limit (of_Z n) = Ok n.
Proof.
  intros Hlen. unfold int, of_Z in *. rewrite <- (DecimalZ.of_to n) at 2.
  destruct (Z.to_int n) as [d|d] eqn:Hd;
    cbn [NilZero.string_of_int Z.of_int] in *; unfold Z.of_uint.
  - destruct d as [|d'|d'|d'|d'|d'|d'|d'|d'|d'|d'] eqn:Hshape.
    { destruct n; [discriminate| |discriminate].
      injection Hd as Hd. now apply DecimalPos.Unsigned.to_uint_nonnil in Hd. }
    all: rewrite <- Hshape in *; cbn [NilZero.string_of_uint] in *;
      assert (Hnil : d <> Decimal.Nil) by (rewrite Hshape; discriminate);
      replace (NilZero.string_of_uint d) with (NilEmpty.string_of_uint d) in *
        by (rewrite Hshape; reflexivity);
      rewrite transform_uint;
      rewrite (proj1 (from_string_uint limit d Hnil ltac:(rewrite <- length_uint; exact Hlen)));
      reflexivity.
  - assert (Hnil : d <> Decimal.Nil).
    { destruct n; try discriminate. injection Hd as <-.
      apply DecimalPos.Unsigned.to_uint_nonnil. }
    replace (NilZero.string_of_uint d) with (NilEmpty.string_of_uint d) in *
      by (destruct d; [contradiction|..]; reflexivity).
    cbn [String.length] in Hlen.
    rewrite (transform_ascii (String "-" (NilEmpty.string_of_uint d))) by apply uint_ascii.
    rewrite (proj2 (from_string_uint limit d Hnil ltac:(rewrite <- length_uint; lia))).
    reflexivity.
Qed.

(** X11.  The text the program prints for a port is read back as the
    same port: for every integer [n] whose text [str(n)] has at most 640
    characters, [int(str(n))] is [n] under any limit on integer texts, so the
    program started with that text as its argument takes [n] as its port. *)
Theorem port_text_is_read_back (w : World) (prog : string) (n : Z) :
  (String.length (of_Z n) <= 640)%nat ->
  int (int_max_str_digits w) (of_Z n) = Ok n
  /\ WasmServer.port_of_argv w [prog; of_Z n] = Ok n.
Proof.
  intros Hlen. pose proof (int_of_str (int_max_str_digits w) n Hlen) as Hint.
  split; [exact Hint|]. unfold WasmServer.port_of_argv. cbn. exact Hint.
Qed.

End PortAsText.

(** ** Request lines the server does not take *)

Section RefusedRequests.
Import PyStr HttpServer SocketServer WasmServer.
Context `{PyLib} (w : World).

#[local] Existing Instance WASMHandler.

Lemma send_response_old_style code message h :
  String.eqb (request_version h) "HTTP/0.9" = true ->
  stderr_left h = None ->
  send_response w code message h
  = (Ok tt, logged [dquote +:+ requestline h +:+ dquote +:+ " " +:+ of_Z code +:+ " -"] h).
Proof.
  intros Hrv Hs. unfold send_response.
  run_with ltac:(apply log_request_run; exact Hs).
  erewrite bind_Ok;
    [|unfold send_response_only, bind, get; state_simpl; rewrite Hrv; reflexivity].
  cbv beta.
  erewrite bind_Ok; [|apply send_header_simple; [state_simpl; exact Hrv | reflexivity]].
  cbv beta. run_with ltac:(apply date_time_string_now).
  apply send_header_simple; [state_simpl; exact Hrv | reflexivity].
Qed.

Lemma end_headers_old_style h :
  String.eqb (request_version h) "HTTP/0.9" = true -> end_headers h = (Ok tt, h).
Proof.
  intros Hrv. unfold end_headers, WASMHandler.
  erewrite bind_Ok; [|apply send_header_simple; [exact Hrv | reflexivity]]. cbv beta.
  erewrite bind_Ok; [|apply send_header_simple; [exact Hrv | reflexivity]].
  unfold Base_end_headers, bind, get. now rewrite Hrv.
Qed.

Lemma send_header_close_old_style h :
  String.eqb (request_version h) "HTTP/0.9" = true ->
  send_header "Connection" "close" h = (Ok tt, set_close_connection true h).
Proof.
  intros Hrv. unfold send_header, bind, get, when, append_header_line, modify. simpl.
  rewrite Hrv. reflexivity.
Qed.

(** [send_error] in the style of HTTP/0.9: no header block, the page
    alone. *)
Lemma send_error_old_style code message short long h :
  request_version h = "HTTP/0.9" ->
  writes_left h = None ->
  stderr_left h = None ->
  responses code = Some (short, long) ->
  (200 <=? code) && negb ((code =? 204) || (code =? 205) || (code =? 304)) = true ->
  exists h',
    send_error w code (Some message) None h = (Ok tt, h')
    /\ wfile h' = wfile h ++ error_body (command h) (error_page code message long)
    /\ close_connection h' = true.
Proof.
  intros Hrv Hw Hs Hresp Hpage. apply String.eqb_eq in Hrv.
  unfold send_error. rewrite Hresp. cbn [default from_option id].
  unfold log_error. run_with ltac:(apply log_message_run; exact Hs).
  run_with ltac:(apply send_response_old_style; state_simpl; [exact Hrv | exact Hs]).
  run_with ltac:(apply send_header_close_old_style; state_simpl; exact Hrv).
  rewrite Hpage.
  erewrite bind_Ok;
    [|erewrite bind_Ok; [|apply send_header_simple; [state_simpl; exact Hrv | reflexivity]];
      cbv beta;
      erewrite bind_Ok; [|apply send_header_simple; [state_simpl; exact Hrv | reflexivity]];
      reflexivity].
  cbv beta.
  run_with ltac:(apply end_headers_old_style; state_simpl; exact Hrv).
  run. unfold error_body.
  destruct (negb (bool_decide (command h = Some "HEAD"))
            && negb (is_empty (error_page code message long))); cbn [when].
  - rewrite write_run by exact Hw. eexists. split; [reflexivity|]. split; reflexivity.
  - eexists. split; [reflexivity|]. split; [|reflexivity].
    cbn. now rewrite List.app_nil_r.
Qed.

(** [parse_request] on a request line whose version word is refused: the
    error goes out while the request version is still [HTTP/0.9]. *)
Lemma parse_request_refused ws version code message short long h :
  words (rstrip is_newline (raw_requestline h)) = ws ->
  (3 <= length ws)%nat ->
  last ws = Some version ->
  writes_left h = None ->
  stderr_left h = None ->
  responses code = Some (short, long) ->
  (200 <=? code) && negb ((code =? 204) || (code =? 205) || (code =? 304)) = true ->
  match parse_version w version with
  | Raise _ => code = 400 /\ message = "Bad request version (" +:+ repr version +:+ ")"
  | Ok (major, minor, base) =>
      pair_ge (major, minor) (2, 0) = true
      /\ code = 505 /\ message = "Invalid HTTP version (" +:+ base +:+ ")"
  end ->
  exists h',
    parse_request w h = (Ok false, h')
    /\ wfile h' = wfile h ++ error_body None (error_page code message long).
Proof.
  intros Hwords Hlen Hlast Hw Hs Hresp Hpage Hversion. unfold parse_request.
  run. run. run. run. run. rewrite Hwords.
  replace (Nat.eqb (length ws) 0) with false by (symmetry; apply Nat.eqb_neq; lia).
  replace (3 <=? length ws)%nat with true by (symmetry; apply Nat.leb_le; lia).
  rewrite Hlast. cbn [default from_option id].
  match goal with
  | |- context [send_error w 400 ?m None] => set (bad := send_error w 400 m None)
  end.
  destruct (parse_version w version) as [[[major minor] base]|e].
  - destruct Hversion as (Hhigh & -> & ->).
    replace (str_ge protocol_version "HTTP/1.1") with false by reflexivity.
    rewrite andb_false_r. cbn [when]. rewrite Hhigh.
    edestruct (send_error_old_style 505 ("Invalid HTTP version (" +:+ base +:+ ")") short long)
      as [h' [Hrun [Hwfile _]]]; [| | | exact Hresp | exact Hpage |].
    4: { erewrite bind_Ok; [|erewrite bind_Ok; [|reflexivity]; cbv beta;
                             erewrite bind_Ok; [|exact Hrun]; reflexivity].
         cbv beta. cbn [negb]. eexists. split; [reflexivity | exact Hwfile]. }
    + reflexivity.
    + exact Hw.
    + exact Hs.
  - destruct Hversion as (-> & ->). subst bad.
    edestruct (send_error_old_style 400 ("Bad request version (" +:+ repr version +:+ ")")
                 short long) as [h' [Hrun [Hwfile _]]]; [| | | exact Hresp | exact Hpage |].
    4: { erewrite bind_Ok; [|erewrite bind_Ok; [|exact Hrun]; reflexivity].
         cbv beta. cbn [negb]. eexists. split; [reflexivity | exact Hwfile]. }
    + reflexivity.
    + exact Hw.
    + exact Hs.
Qed.

(** X12.  A request line whose last word is not a version the server
    takes (no [HTTP/x.y], or a version from 2.0 on) is refused while the
    request version is still [HTTP/0.9]: the reply is the error page of a 400
    or a 505 alone, with no status line and no headers, and so without the
    two cross-origin headers. *)
Theorem refused_version_gets_a_bare_page
    (d : filesystem) (raw version : string) (ws : list string) hb (more : list arrival) :
  Z.of_nat (String.length raw) <= 65536 ->
  words (rstrip is_newline raw) = ws ->
  (3 <= length ws)%nat ->
  last ws = Some version ->
  (forall e, parse_version w version = Raise e ->
     reply w d {| arrivals := Line raw hb :: more; peer_takes := None |}
     = error_body None
         (error_page 400 ("Bad request version (" +:+ repr version +:+ ")")
                     "Bad request syntax or unsupported method"))
  /\ (forall major minor base,
        parse_version w version = Ok (major, minor, base) ->
        pair_ge (major, minor) (2, 0) = true ->
        reply w d {| arrivals := Line raw hb :: more; peer_takes := None |}
        = error_body None
            (error_page 505 ("Invalid HTTP version (" +:+ base +:+ ")")
                        "Cannot fulfill request")).
Proof.
  intros Hlen Hwords Hws Hlast.
  assert (Hraw : is_empty raw = false).
  { destruct raw; [|reflexivity]. subst ws. cbn in Hws. lia. }
  assert (Hrun : forall code message short long,
            responses code = Some (short, long) ->
            (200 <=? code) && negb ((code =? 204) || (code =? 205) || (code =? 304)) = true ->
            match parse_version w version with
            | Raise _ => code = 400 /\ message = "Bad request version (" +:+ repr version +:+ ")"
            | Ok (major, minor, base) =>
                pair_ge (major, minor) (2, 0) = true
                /\ code = 505 /\ message = "Invalid HTTP version (" +:+ base +:+ ")"
            end ->
            reply w d {| arrivals := Line raw hb :: more; peer_takes := None |}
            = error_body None (error_page code message long)).
  { intros code message short long Hresp Hpage Hversion.
    unfold reply, serve, WASMHandler_handle. rewrite handle_once by reflexivity.
    unfold handle_one_request.
    erewrite bind_Ok; [|reflexivity]. cbv beta. run.
    destruct (65536 <? Z.of_nat (String.length raw)) eqn:Hlong; [lia|].
    rewrite Hraw.
    edestruct (parse_request_refused ws version code message short long)
      as [h' [Hparse Hwfile]];
      [| exact Hws | exact Hlast | | | exact Hresp | exact Hpage | exact Hversion |].
    4: { rewrite (bind_Ok _ _ _ _ _ Hparse). cbn [negb]. exact Hwfile. }
    - exact Hwords.
    - reflexivity.
    - reflexivity. }
  split.
  - intros e He. apply (Hrun 400 _ _ _ eq_refl eq_refl). rewrite He. split; reflexivity.
  - intros major minor base Hversion Hhigh. apply (Hrun 505 _ _ _ eq_refl eq_refl).
    rewrite Hversion. repeat split. exact Hhigh.
Qed.

(** Without a message, [send_error] takes the phrase of the status. *)
Lemma send_error_default code short long :
  responses code = Some (short, long) ->
  send_error w code None None = send_error w code (Some short) None.
Proof. intros Hresp. unfold send_error. rewrite Hresp. reflexivity. Qed.


End RefusedRequests.

(** ** Examples of the further properties *)

(** [GET] and [HEAD] for [/index.html]. *)
Lemma file_is_sent_whole_witness :
  exists block chunks,
    block = WasmServer.header_block (H := Example.lib) Example.world 200 "OK"
              [("Content-type",
                HttpServer.guess_type (WasmServer.mimetypes_db Example.world)
                  "/srv/www/index.html");
               ("Content-Length", "6");
               ("Last-Modified", "t=1700000000")]
    /\ WasmServer.reply (H := Example.lib) Example.world (Example.files "root:x:0:0")
         (Example.request "GET /index.html HTTP/1.1" [])
       = block :: chunks
    /\ String.concat EmptyString chunks = "<html>"
    /\ WasmServer.reply (H := Example.lib) Example.world (Example.files "root:x:0:0")
         (Example.request "HEAD /index.html HTTP/1.1" [])
       = [block].
Proof.
  apply (file_is_sent_whole (H := Example.lib) Example.world (Example.files "root:x:0:0")
           ("GET /index.html HTTP/1.1" +:+ HttpServer.CRLF)
           ("HEAD /index.html HTTP/1.1" +:+ HttpServer.CRLF) "/index.html" "HTTP/1.1"
           [] [] "/srv/www/index.html" "<html>" 1700000000
           (example_request_accepted "GET" "/index.html" ltac:(vm_compute; discriminate) eq_refl)
           (example_request_accepted "HEAD" "/index.html" ltac:(vm_compute; discriminate) eq_refl)
           eq_refl eq_refl eq_refl eq_refl eq_refl).
Defined.

(** [DELETE /module.wasm HTTP/1.1]: a 501, though the file is there. *)
Lemma other_commands_get_501_witness :
  WasmServer.reply (H := Example.lib) Example.world (Example.files "root:x:0:0")
    (Example.request "DELETE /module.wasm HTTP/1.1" [])
  = [WasmServer.header_block (H := Example.lib) Example.world 501
       "Unsupported method ('DELETE')"
       [("Connection", "close"); ("Content-Type", "text/html;charset=utf-8");
        ("Content-Length", "33")];
     "501 Unsupported method ('DELETE')"].
Proof.
  apply (other_commands_get_501 (H := Example.lib) Example.world (Example.files "root:x:0:0")
           ("DELETE /module.wasm HTTP/1.1" +:+ HttpServer.CRLF) "DELETE" "/module.wasm"
           "HTTP/1.1" [] []
           (example_request_accepted "DELETE" "/module.wasm"
              ltac:(vm_compute; discriminate) eq_refl)
           ltac:(discriminate) ltac:(discriminate)).
Defined.

(** [GET /private HTTP/1.1], a directory: redirected to [/private/]. *)
Lemma directory_without_slash_is_redirected_witness :
  WasmServer.reply (H := Example.lib) Example.world (Example.files "root:x:0:0")
    (Example.request "GET /private HTTP/1.1" [])
  = [WasmServer.header_block (H := Example.lib) Example.world 301 "Moved Permanently"
       [("Location", "/private/"); ("Content-Length", "0")]].
Proof.
  apply (directory_without_slash_is_redirected (H := Example.lib) Example.world
           (Example.files "root:x:0:0")
           ("GET /private HTTP/1.1" +:+ HttpServer.CRLF) "GET" "/private" "HTTP/1.1" [] []
           "/srv/www/private" EmptyString EmptyString "/private" EmptyString EmptyString
           (example_request_accepted "GET" "/private" ltac:(vm_compute; discriminate) eq_refl)
           (or_introl eq_refl) eq_refl eq_refl eq_refl eq_refl).
Defined.

(** [GET / HTTP/1.1] where the directory has an [index.html]. *)
Lemma directory_index_is_served_witness :
  exists chunks,
    WasmServer.reply (H := Example.lib) Example.world (Example.files "root:x:0:0")
      (Example.request "GET / HTTP/1.1" [])
    = WasmServer.header_block (H := Example.lib) Example.world 200 "OK"
        [("Content-type",
          HttpServer.guess_type (WasmServer.mimetypes_db Example.world) "/srv/www/index.html");
         ("Content-Length", "6");
         ("Last-Modified", "t=1700000000")] :: chunks
    /\ String.concat EmptyString chunks = "<html>".
Proof.
  apply (directory_index_is_served (H := Example.lib) Example.world
           (Example.files "root:x:0:0")
           ("GET / HTTP/1.1" +:+ HttpServer.CRLF) "/" "HTTP/1.1" [] []
           "/srv/www/" EmptyString EmptyString "/" EmptyString EmptyString "<html>" 1700000000
           (example_request_accepted "GET" "/" ltac:(vm_compute; discriminate) eq_refl)
           eq_refl eq_refl eq_refl eq_refl eq_refl eq_refl eq_refl).
Defined.

(** [GET / HTTP/1.1] where the directory has no index file. *)
Lemma directory_is_listed_witness :
  exists chunks,
    WasmServer.reply (H := Example.lib) Example.world Assets.files
      (Example.request "GET / HTTP/1.1" [])
    = WasmServer.header_block (H := Example.lib) Example.world 200 "OK"
        [("Content-type", "text/html; charset=utf-8"); ("Content-Length", "23")]
      :: chunks
    /\ String.concat EmptyString chunks = "Directory listing for /"
    /\ ("GET" = "HEAD" -> chunks = []).
Proof.
  apply (directory_is_listed (H := Example.lib) Example.world Assets.files
           ("GET / HTTP/1.1" +:+ HttpServer.CRLF) "GET" "/" "HTTP/1.1" [] []
           "/srv/www/" EmptyString EmptyString "/" EmptyString EmptyString ["app.wasm"]
           "Directory listing for /"
           (example_request_accepted "GET" "/" ltac:(vm_compute; discriminate) eq_refl)
           (or_introl eq_refl) eq_refl eq_refl eq_refl eq_refl eq_refl eq_refl eq_refl
           eq_refl).
Defined.

(** The port 8000. *)
Lemma port_text_is_read_back_witness :
  PyInt.int 4300 "8000" = Ok 8000
  /\ WasmServer.port_of_argv Example.world ["wasm_server.py"; "8000"] = Ok 8000.
Proof.
  apply (port_text_is_read_back Example.world "wasm_server.py" 8000).
  vm_compute. lia.
Defined.

(** [GET / HTTP/2.0] and [GET / FTP/1.0]: the pages of a 505 and of a 400,
    without status line. *)
Lemma refused_version_gets_a_bare_page_witness :
  WasmServer.reply (H := Example.lib) Example.world (Example.files "root:x:0:0")
    (Example.request "GET / HTTP/2.0" [])
  = ["505 Invalid HTTP version (2.0)"]
  /\ WasmServer.reply (H := Example.lib) Example.world (Example.files "root:x:0:0")
       (Example.request "GET / FTP/1.0" [])
     = ["400 Bad request version ('FTP/1.0')"].
Proof.
  split.
  - apply (proj2 (refused_version_gets_a_bare_page (H := Example.lib) Example.world
                    (Example.files "root:x:0:0") ("GET / HTTP/2.0" +:+ HttpServer.CRLF)
                    "HTTP/2.0" ["GET"; "/"; "HTTP/2.0"] (HeaderLines []) []
                    ltac:(vm_compute; discriminate) eq_refl ltac:(simpl; lia) eq_refl)
             2 0 "2.0" eq_refl eq_refl).
  - apply (proj1 (refused_version_gets_a_bare_page (H := Example.lib) Example.world
                    (Example.files "root:x:0:0") ("GET / FTP/1.0" +:+ HttpServer.CRLF)
                    "FTP/1.0" ["GET"; "/"; "FTP/1.0"] (HeaderLines []) []
                    ltac:(vm_compute; discriminate) eq_refl ltac:(simpl; lia) eq_refl)
             ValueError eq_refl).
Defined.

(** A handler that has buffered nothing: [WASMHandler.end_headers] sends
    the two headers and the blank line, where the method of the base class
    raises. *)
Lemma end_headers_cases_witness :
  (exists h',
     HttpServer.end_headers (HandlerClass := WasmServer.WASMHandler)
       (SocketServer.new_handler Assets.files (Example.request "GET / HTTP/1.1" []))
     = (Ok tt, h')
     /\ wfile h'
        = [] ++ [String.concat EmptyString
                   ([] ++ ["Cross-Origin-Embedder-Policy: require-corp" +:+ HttpServer.CRLF;
                           "Cross-Origin-Opener-Policy: same-origin" +:+ HttpServer.CRLF;
                           HttpServer.CRLF])]
     /\ _headers_buffer h' = Some []
     /\ close_connection h' = true)
  /\ HttpServer.end_headers (HandlerClass := WasmServer.SimpleHTTPRequestHandler)
       (SocketServer.new_handler Assets.files (Example.request "GET / HTTP/1.1" []))
     = (Raise AttributeError,
        SocketServer.new_handler Assets.files (Example.request "GET / HTTP/1.1" [])).
Proof.
  destruct (end_headers_cases
              (SocketServer.new_handler Assets.files (Example.request "GET / HTTP/1.1" [])))
    as (_ & Hsends & _ & Hbase).
  split.
  - apply Hsends; discriminate.
  - apply Hbase; [discriminate | reflexivity].
Defined.

